(** * HyperLink wallet adapter: session handshake and connection state machine

  A shallow embedding of [src/index.ts]: the environment detector, the
  allowlist guard and the [HyperLinkWalletAdapter] class, with the
  properties of its connection protocol proved over the embedding.

  Conventions.
  - An [async] method is a program of the free monad [Prog]: synchronous
    code reads and writes the [World], every [await] is an [Await] node.
    [exec] runs a program up to its next suspension point, so a theorem
    about a continuation resumed in an arbitrary world covers every
    interleaving of other tasks before it; [run] answers each [await] from
    an oracle and gives the uninterrupted execution.
  - The embedded channel ([HyperLinkEmbed], module [./embed]) and the
    platform ([fetch], [URL], [localStorage], the user agent) are external:
    their answers are inputs, their invocations are recorded in the world.
  - [console.log] lines are not modelled. *)

From Stdlib Require Import ZArith String Ascii List Bool Lia Eqdep_dec.
From stdpp Require Import gmap strings.
Import ListNotations.
Open Scope string_scope.
Open Scope list_scope.

(** * JavaScript regular expressions used by the detector *)

Module JsRegex.

(** The fragment of the pattern language that [index.ts] uses. *)
Inductive regex : Type :=
| Lit (s : string)                 (* literal text *)
| Star (p : ascii -> bool)         (* [c*] for a character class *)
| Plus (p : ascii -> bool)         (* [c+] for a character class *)
| Seq (r1 r2 : regex)
| Alt (r1 r2 : regex)
| NotAhead (r : regex).            (* [(?!r)] *)

Definition is_upper (c : ascii) : bool :=
  let n := nat_of_ascii c in (65 <=? n)%nat && (n <=? 90)%nat.

Definition lower (c : ascii) : ascii :=
  if is_upper c then ascii_of_nat (nat_of_ascii c + 32) else c.

(** Character comparison; [ci] is the [i] flag.  For the ASCII patterns
    of this file, canonicalisation only identifies ASCII letters. *)
Definition eqc (ci : bool) (a b : ascii) : bool :=
  if ci then Ascii.eqb (lower a) (lower b) else Ascii.eqb a b.

(** [.]: any character but a line terminator. *)
Definition dot (c : ascii) : bool :=
  negb (Ascii.eqb c "010"%char || Ascii.eqb c "013"%char).

(** [\d] *)
Definition digit (c : ascii) : bool :=
  let n := nat_of_ascii c in (48 <=? n)%nat && (n <=? 57)%nat.

Fixpoint lit (ci : bool) (l : string) (k : string -> bool) (s : string) : bool :=
  match l with
  | EmptyString => k s
  | String a l' =>
      match s with
      | String c s' => if eqc ci a c then lit ci l' k s' else false
      | EmptyString => false
      end
  end.

Fixpoint star (p : ascii -> bool) (k : string -> bool) (s : string) : bool :=
  if k s then true
  else match s with
       | String c s' => if p c then star p k s' else false
       | EmptyString => false
       end.

(** Backtracking matcher in continuation-passing style: [matches ci r k s]
    holds when a prefix of [s] matches [r] and [k] accepts the rest. *)
Fixpoint matches (ci : bool) (r : regex) (k : string -> bool) (s : string) : bool :=
  match r with
  | Lit l => lit ci l k s
  | Star p => star p k s
  | Plus p =>
      match s with
      | String c s' => if p c then star p k s' else false
      | EmptyString => false
      end
  | Seq r1 r2 => matches ci r1 (matches ci r2 k) s
  | Alt r1 r2 => if matches ci r1 k s then true else matches ci r2 k s
  | NotAhead r1 => if matches ci r1 (fun _ => true) s then false else k s
  end.

(** [re.test(s)] and [Boolean(s.match(re))]: a match at some position. *)
Fixpoint test (ci : bool) (r : regex) (s : string) : bool :=
  if matches ci r (fun _ => true) s then true
  else match s with
       | String _ s' => test ci r s'
       | EmptyString => false
       end.

(** [s.includes(t)] *)
Definition includes (s t : string) : bool := test false (Lit t) s.

Fixpoint seqs (rs : list regex) : regex :=
  match rs with
  | [] => Lit ""
  | [r] => r
  | r :: rs' => Seq r (seqs rs')
  end.

Fixpoint alts (r : regex) (rs : list regex) : regex :=
  match rs with
  | [] => r
  | r' :: rs' => Alt r (alts r' rs')
  end.

End JsRegex.

(** * Environment detector *)

Module Detect.
Import JsRegex.

(** The ambient runtime, as far as the adapter looks at it. *)
Record Env : Type := {
  has_window : bool;            (* typeof window !== "undefined" *)
  has_document : bool;          (* typeof document !== "undefined" *)
  has_navigator : bool;         (* typeof navigator !== "undefined" *)
  userAgent : option string;    (* globalThis.navigator?.userAgent ?? null *)
  referrer : string;            (* document.referrer *)
  standalone : bool;            (* navigator.standalone === true *)
  display_standalone : bool;    (* matchMedia("(display-mode: standalone)").matches *)
  display_fullscreen : bool;
  display_minimal_ui : bool;
  prefetch_supported : bool     (* link.relList.supports("prefetch") *)
}.

Definition isPWA (e : Env) : bool :=
  standalone e || display_standalone e || display_fullscreen e
  || display_minimal_ui e.

(** A string is falsy exactly when it is empty. *)
Definition truthy (s : string) : bool :=
  match s with EmptyString => false | _ => true end.

(** [Chrome/d.d.d.d], the tail of both Chrome alternatives of [isWebView]. *)
Definition chrome_version : regex :=
  seqs [Lit "Chrome/"; Plus digit; Lit "."; Plus digit; Lit ".";
        Plus digit; Lit "."; Plus digit].

Definition webview_regex : regex :=
  alts (Lit "WebView")
       [seqs [Lit "Version/"; Plus dot; chrome_version];
        seqs [Lit "; wv)"; Plus dot; chrome_version]].

Definition isWebView_of (ua : option string) : bool :=
  match ua with
  | Some s => if truthy s then test true webview_regex s else false
  | None => false
  end.

Definition isMobileAndroid_of (ua : option string) : bool :=
  match ua with
  | Some s =>
      if truthy s && test true (Lit "android") s && negb (isWebView_of ua)
      then true else false
  | None => false
  end.

Definition ios_regex : regex := alts (Lit "iPad") [Lit "iPhone"; Lit "iPod"].

Definition isMobileiOS_of (ua : option string) : bool :=
  match ua with
  | Some s =>
      if truthy s && test false ios_regex s && negb (isWebView_of ua)
      then true else false
  | None => false
  end.

(** [wvRules], joined with [|] under the flags [ig]. *)
Definition wvRegex : regex :=
  alts (Lit "WebView")
       [Seq (alts (Lit "iPhone") [Lit "iPod"; Lit "iPad"])
            (NotAhead (Seq (Star dot) (Lit "Safari/")));
        seqs [Lit "Android"; Star dot; Lit "wv"]].

Definition isInApp_of (ua : option string) : bool :=
  match ua with
  | Some s => if truthy s then test true wvRegex s else false
  | None => false
  end.

Definition isPhantomBrowser_of (ua : option string) : bool :=
  match ua with
  | Some s =>
      if truthy s then
        if includes s "Phantom" then isInApp_of ua else false
      else false
  | None => false
  end.

Definition isWebView (e : Env) : bool := isWebView_of (userAgent e).
Definition isMobileAndroid (e : Env) : bool := isMobileAndroid_of (userAgent e).
Definition isMobileiOS (e : Env) : bool := isMobileiOS_of (userAgent e).
Definition isInApp (e : Env) : bool := isInApp_of (userAgent e).
Definition isPhantomBrowser (e : Env) : bool := isPhantomBrowser_of (userAgent e).

(** ** The memo cells of the module

    [_userAgent], [_isInApp] and [_isPhantomBrowser] are module-level
    variables filled on first use.  The functions below thread them
    explicitly; [None] is [undefined]. *)
Record Memo : Type := {
  _userAgent : option (option string);
  _isInApp : option bool;
  _isPhantomBrowser : option bool
}.

Definition memo0 : Memo :=
  {| _userAgent := None; _isInApp := None; _isPhantomBrowser := None |}.

Definition getUserAgent (e : Env) (m : Memo) : option string * Memo :=
  match _userAgent m with
  | None =>
      (userAgent e,
       {| _userAgent := Some (userAgent e); _isInApp := _isInApp m;
          _isPhantomBrowser := _isPhantomBrowser m |})
  | Some ua => (ua, m)
  end.

Definition isWebView_memo (e : Env) (m : Memo) : bool * Memo :=
  let '(ua, m1) := getUserAgent e m in (isWebView_of ua, m1).

Definition isMobileAndroid_memo (e : Env) (m : Memo) : bool * Memo :=
  let '(ua, m1) := getUserAgent e m in
  match ua with
  | Some s =>
      if truthy s && test true (Lit "android") s then
        let '(wv, m2) := isWebView_memo e m1 in
        (if negb wv then true else false, m2)
      else (false, m1)
  | None => (false, m1)
  end.

(** The pattern is tested on [navigator.userAgent] itself, the guard and
    [isWebView] read the memo cell. *)
Definition isMobileiOS_memo (e : Env) (m : Memo) : bool * Memo :=
  let '(ua, m1) := getUserAgent e m in
  match ua with
  | Some s =>
      if truthy s
         && match userAgent e with
            | Some s' => test false ios_regex s'
            | None => false
            end
      then
        let '(wv, m2) := isWebView_memo e m1 in
        (if negb wv then true else false, m2)
      else (false, m1)
  | None => (false, m1)
  end.

Definition isInApp_memo (e : Env) (m : Memo) : bool * Memo :=
  match _isInApp m with
  | Some b => (b, m)
  | None =>
      let '(ua, m1) := getUserAgent e m in
      match ua with
      | Some s =>
          if truthy s then
            let b := test true wvRegex s in
            (b, {| _userAgent := _userAgent m1; _isInApp := Some b;
                   _isPhantomBrowser := _isPhantomBrowser m1 |})
          else (false, m1)
      | None => (false, m1)
      end
  end.

Definition isPhantomBrowser_memo (e : Env) (m : Memo) : bool * Memo :=
  match _isPhantomBrowser m with
  | Some b => (b, m)
  | None =>
      let '(ua, m1) := getUserAgent e m in
      match ua with
      | Some s =>
          if truthy s then
            let '(b, m2) :=
              if includes s "Phantom" then isInApp_memo e m1 else (false, m1) in
            (b, {| _userAgent := _userAgent m2; _isInApp := _isInApp m2;
                   _isPhantomBrowser := Some b |})
          else (false, m1)
      | None => (false, m1)
      end
  end.

(** Every filled cell holds what the user agent of [e] determines. *)
Definition coherent (e : Env) (m : Memo) : Prop :=
  (forall ua, _userAgent m = Some ua -> ua = userAgent e)
  /\ (forall b, _isInApp m = Some b -> b = isInApp e)
  /\ (forall b, _isPhantomBrowser m = Some b -> b = isPhantomBrowser e).

End Detect.


(** * Account identifiers

    [PublicKey] of [@solana/web3.js] is an external class.  The adapter
    builds keys from text with [new PublicKey(s)], which throws unless the
    base58 decoding of [s] has exactly 32 bytes, and reads them back with
    [toBase58()].  The base58 code of the library is a bijection between
    byte strings and texts over its alphabet, so a key is represented here
    by its base58 text together with the evidence that it decodes to 32
    bytes. *)

Module Base58.

Definition alphabet : string :=
  "123456789ABCDEFGHJKLMNPQRSTUVWXYZabcdefghijkmnopqrstuvwxyz".

Fixpoint index_from (i : Z) (c : ascii) (s : string) : option Z :=
  match s with
  | EmptyString => None
  | String a s' => if Ascii.eqb a c then Some i else index_from (i + 1) c s'
  end.

(** The digits of a text, [None] when a character is outside the alphabet. *)
Fixpoint digits (s : string) : option (list Z) :=
  match s with
  | EmptyString => Some []
  | String c s' =>
      match index_from 0 c alphabet, digits s' with
      | Some d, Some ds => Some (d :: ds)
      | _, _ => None
      end
  end.

(** Leading ['1'] characters decode to leading zero bytes. *)
Fixpoint leading_zeros (ds : list Z) : Z :=
  match ds with
  | d :: ds' => if (d =? 0)%Z then (1 + leading_zeros ds')%Z else 0%Z
  | [] => 0%Z
  end.

Definition value (ds : list Z) : Z :=
  fold_left (fun acc d => (acc * 58 + d)%Z) ds 0%Z.

(** Bytes of the shortest big-endian representation. *)
Definition byte_length (n : Z) : Z :=
  if (n =? 0)%Z then 0%Z else (Z.log2 n / 8 + 1)%Z.

Definition decoded_length (s : string) : option Z :=
  match digits s with
  | Some ds => Some (leading_zeros ds + byte_length (value ds))%Z
  | None => None
  end.

End Base58.

Definition is_address (s : string) : bool :=
  match Base58.decoded_length s with
  | Some n => (n =? 32)%Z
  | None => false
  end.

Record PublicKey : Type := {
  toBase58 : string;
  key_valid : is_address toBase58 = true
}.

(** [new PublicKey(s)]; [None] when the constructor throws. *)
Definition new_PublicKey (s : string) : option PublicKey :=
  match Bool.bool_dec (is_address s) true with
  | left H => Some {| toBase58 := s; key_valid := H |}
  | right _ => None
  end.


(** * Values exchanged with the platform and the channel *)

Inductive WalletReadyState : Type :=
| Installed | NotDetected | Loadable | Unsupported.

(** What can be thrown.  [External] stands for any error raised by the
    platform or by the embedded channel; the [Wallet...] constructors are the
    classes of [@solana/wallet-adapter-base], carrying the wrapped error. *)
Inductive JsError : Type :=
| External (msg : string)
| TypeError (msg : string)
| PlainError (msg : string)               (* new Error(msg) *)
| Reason (msg : string)                   (* Promise.reject(msg) *)
| WalletNotReadyError
| WalletConfigError (cause : JsError)
| WalletConnectionError (cause : JsError)
| WalletDisconnectionError (cause : JsError)
| WalletNotConnectedError (msg : option string)
| WalletPublicKeyError (cause : JsError)
| WalletSignTransactionError (cause : JsError)
| WalletSignMessageError (cause : JsError)
| WalletSignInError (cause : JsError).

Inductive EmbeddedWalletPage : Type := OVERVIEW | ADD_FUNDS | SWAP | WITHDRAW.

Inductive Theme : Type := ThemeSystem | ThemeLight | ThemeDark.

Inductive Network : Type := Mainnet | Devnet.

(** Transactions, messages and sign-in data are forwarded, never inspected. *)
Inductive Transaction : Type := Tx (id : nat).

Definition Bytes : Type := list Z.

Inductive SolanaSignInInput : Type := SignInPayload (statement : string).

Inductive SolanaSignInOutput : Type := SignInProof (proof : string).

(** [CustomSolanaSignInInput]: the payload or a function producing it. *)
Inductive CustomSolanaSignInInput : Type :=
| InputObject (i : SolanaSignInInput)
| InputFunction (i : SolanaSignInInput).

(** The argument [signIn] hands to the channel: a promise of the payload,
    obtained by calling the function or by [Promise.resolve]. *)
Inductive SignInArgument : Type :=
| CalledFunction (i : SolanaSignInInput)
| ResolvedObject (i : SolanaSignInInput).

Record ConnectOutput : Type := { siwsOutput : option SolanaSignInOutput }.

(** Options of [wallet.init]; [onWalletHandshake] is the handler
    [onWalletHandshake] below. *)
Record InitOptions : Type := {
  opt_directConnect : bool;
  opt_autoConnect : bool;
  opt_siwsInput : option CustomSolanaSignInInput;
  opt_forceClickToContinue : bool;
  opt_theme : Theme;
  opt_hideDraggableWidget : bool;
  opt_hideWalletOnboard : bool
}.

(** What [wallet.init] resolves with. *)
Record InitResult : Type := {
  pk : string;
  init_siwsOutput : option SolanaSignInOutput
}.

(** Values a JSON body can hold for the property [ancestor]. *)
Inductive JsValue : Type :=
| JUndefined | JNull | JBool (b : bool) | JNumber (n : Z) | JString (s : string)
| JObject.

Definition js_truthy (v : JsValue) : bool :=
  match v with
  | JUndefined | JNull => false
  | JBool b => b
  | JNumber n => negb (n =? 0)%Z
  | JString s => Detect.truthy s
  | JObject => true
  end.

(** A parsed JSON body: [null], or a value whose property [ancestor] reads
    as given ([JUndefined] when it has none). *)
Inductive JsonBody : Type :=
| BodyNull
| BodyWith (ancestor : JsValue).

Record HttpResponse : Type := { status : Z }.

(** [response.ok], by the Fetch standard: a status in 200..299. *)
Definition ok (r : HttpResponse) : bool :=
  (200 <=? status r)%Z && (status r <=? 299)%Z.

(** The request of the allowlist check: the path segment is the base64 text
    of [JSON.stringify({clientId, referrerUrl})]; the two values are kept
    as they are. *)
Record ConfigUrl : Type := { q_clientId : string; q_referrerUrl : string }.

(** A parsed [URL]. *)
Record URL : Type := { protocol : string; hostname : string; port : string }.

(** * Asynchronous programs *)

Inductive Settle (X : Type) : Type :=
| Fulfilled (x : X)
| Failed (e : JsError).
Arguments Fulfilled {X} x.
Arguments Failed {X} e.

(** Awaited operations, indexed by what they resolve with.  The first
    argument of a channel operation is the reference of the embed object. *)
Inductive Request : Type -> Type :=
| Tick : Request unit                       (* await of a promise of this program *)
| ReqInit (w : nat) (o : InitOptions) : Request InitResult
| ReqCleanUp (w : nat) : Request unit
| ReqSignTransaction (w : nat) (t : Transaction) : Request (option Transaction)
| ReqSignAllTransactions (w : nat) (ts : list Transaction)
  : Request (option (list Transaction))
| ReqSignMessage (w : nat) (m : Bytes) : Request Bytes
| ReqSendTransaction (w : nat) (t : Transaction) : Request string
| ReqSignIn (w : nat) (i : option SignInArgument) : Request SolanaSignInOutput
| ReqFetch (u : ConfigUrl) : Request HttpResponse
| ReqJson (r : HttpResponse) : Request JsonBody.

(** Events the adapter emits to its listeners. *)
Inductive AdapterEvent : Type :=
| EvConnect (k : PublicKey)
| EvDisconnect
| EvError (e : JsError).

(** Synchronous calls into the channel and the page, in the order made. *)
Inductive Call : Type :=
| CNew (w : nat)
| CInit (w : nat) (o : InitOptions)
| CNotifyDisallowed (w : nat)
| CCleanUp (w : nat)
| CClearElements (w : nat)
| COn (w : nat)
| COff (w : nat)
| CSignTransaction (w : nat) (t : Transaction)
| CSignAllTransactions (w : nat) (ts : list Transaction)
| CSignMessage (w : nat) (m : Bytes)
| CSendTransaction (w : nat) (t : Transaction)
| CSignIn (w : nat) (i : option SignInArgument)
| CRemovePreviousWindowRef
| CShowDialog
| CShowWallet (h : nat) (page : option EmbeddedWalletPage)
| CHideWallet (h : nat)
| CConsoleError (msg : string)
| CFetch (u : ConfigUrl)
| CPrefetchLink
| CAttachInstance.

(** A [HyperLinkEmbed] object, as far as the adapter observes it. *)
Record Embed : Type := {
  isLoggedIn : bool;
  listeners : nat;                          (* registrations of _accountChanged *)
  clearElements_throws : option JsError;
  sendTransaction_throws : option JsError
}.

(** The fields of a [HyperLinkWalletAdapter]. *)
Record Adapter : Type := {
  _connecting : bool;
  _disconnected : bool;
  _wallet : option nat;
  _publicKey : option PublicKey;
  _directConnect : bool;
  _title : string;
  _theme : Theme;
  _clientId : string;
  _isDisallowed : bool;
  _installedOnDesktop : bool;
  _installedOnAndroid : bool;
  _installedOnIos : bool;
  _forceIframe : bool;
  _hideDraggableWidget : bool;
  _hideWalletOnboard : bool;
  _walletAdapterNetwork : Network;
  _showWallet : option nat;
  _hideWallet : option nat
}.

(** The adapter with everything it shares with the page. *)
Record World : Type := {
  this : Adapter;
  env : Detect.Env;
  localStorage : gmap string string;
  heap : gmap nat Embed;                    (* embed objects by reference *)
  next_ref : nat;
  emitted : list AdapterEvent;              (* oldest first *)
  calls : list Call;                        (* oldest first *)
  query : list (string * string);           (* search parameters of the page URL *)
  origin : string;                          (* window.location.origin *)
  parse_url : string -> option URL;         (* new URL(s); None when it throws *)
  embed_ctor_throws : option JsError;       (* new HyperLinkEmbed(...) throws *)
  removePreviousWindowRef_throws : option JsError
}.

Inductive Prog (A : Type) : Type :=
| Ret (a : A)
| Throw (e : JsError)
| Get (k : World -> Prog A)
| Put (w : World) (k : Prog A)
| Await {X : Type} (req : Request X) (k : Settle X -> Prog A)
| Spawn (p : Prog unit) (k : Prog A).       (* a call whose promise is dropped *)
Arguments Ret {A} a.
Arguments Throw {A} e.
Arguments Get {A} k.
Arguments Put {A} w k.
Arguments Await {A X} req k.
Arguments Spawn {A} p k.

Fixpoint bind {A B : Type} (p : Prog A) (f : A -> Prog B) : Prog B :=
  match p with
  | Ret a => f a
  | Throw e => Throw e
  | Get k => Get (fun w => bind (k w) f)
  | Put w k => Put w (bind k f)
  | Await req k => Await req (fun r => bind (k r) f)
  | Spawn q k => Spawn q (bind k f)
  end.

Declare Scope prog_scope.
Delimit Scope prog_scope with prog.
Notation "x <- p ;; q" := (bind p (fun x => q))
  (at level 100, p at next level, right associativity) : prog_scope.
Notation "p ;; q" := (bind p (fun _ => q))
  (at level 100, right associativity) : prog_scope.
Open Scope prog_scope.

(** [try { p } catch (e) { h e }] *)
Fixpoint try_catch {A : Type} (p : Prog A) (h : JsError -> Prog A) : Prog A :=
  match p with
  | Ret a => Ret a
  | Throw e => h e
  | Get k => Get (fun w => try_catch (k w) h)
  | Put w k => Put w (try_catch k h)
  | Await req k => Await req (fun r => try_catch (k r) h)
  | Spawn q k => Spawn q (try_catch k h)
  end.

(** [try { p } finally { f }] *)
Fixpoint finally {A : Type} (p : Prog A) (f : Prog unit) : Prog A :=
  match p with
  | Ret a => f ;; Ret a
  | Throw e => f ;; Throw e
  | Get k => Get (fun w => finally (k w) f)
  | Put w k => Put w (finally k f)
  | Await req k => Await req (fun r => finally (k r) f)
  | Spawn q k => Spawn q (finally k f)
  end.

(** A settled promise, read by [await]: its value, or its reason thrown. *)
Definition settle {X : Type} (ans : Settle X) : Prog X :=
  match ans with
  | Fulfilled x => Ret x
  | Failed e => Throw e
  end.

(** [await] of an external operation. *)
Definition await {X : Type} (req : Request X) : Prog X := Await req settle.

(** [await p] for an [async] method [p] of this program: [p] runs up to its
    own first suspension at once, and the caller resumes one turn after [p]
    has settled. *)
Fixpoint await_call {A : Type} (p : Prog A) : Prog A :=
  match p with
  | Ret a => Await Tick (fun _ => Ret a)
  | Throw e => Await Tick (fun _ => Throw e)
  | Get k => Get (fun w => await_call (k w))
  | Put w k => Put w (await_call k)
  | Await req k => Await req (fun r => await_call (k r))
  | Spawn q k => Spawn q (await_call k)
  end.

Definition gets {A : Type} (f : World -> A) : Prog A := Get (fun w => Ret (f w)).

Definition modify (f : World -> World) : Prog unit := Get (fun w => Put (f w) (Ret tt)).

(** ** Execution *)

(** Where a program stands after running as far as it can. *)
Inductive Outcome (A : Type) : Type :=
| Done (r : Settle A)
| Blocked {X : Type} (req : Request X) (k : Settle X -> Prog A).
Arguments Done {A} r.
Arguments Blocked {A X} req k.

(** A suspended task nobody waits for. *)
Inductive Detached : Type :=
| Parked {X : Type} (req : Request X) (k : Settle X -> Prog unit).

Definition park (o : Outcome unit) : list Detached :=
  match o with
  | Blocked req k => [Parked req k]
  | Done _ => []
  end.

(** One turn: run [p] in [w] up to its first suspension. *)
Fixpoint exec {A : Type} (p : Prog A) (w : World)
  : World * list Detached * Outcome A :=
  match p with
  | Ret a => (w, [], Done (Fulfilled a))
  | Throw e => (w, [], Done (Failed e))
  | Get k => exec (k w) w
  | Put w' k => exec k w'
  | Await req k => (w, [], Blocked req k)
  | Spawn q k =>
      let '(w1, d1, o1) := exec q w in
      let '(w2, d2, o2) := exec k w1 in
      (w2, d1 ++ park o1 ++ d2, o2)
  end.

(** The answers of the outside world to awaited operations. *)
Definition Oracle : Type := forall X : Type, Request X -> Settle X.

(** Uninterrupted execution: every [await] of the task is answered by the
    oracle at once; tasks it spawned run their first turn only. *)
Fixpoint run {A : Type} (orc : Oracle) (p : Prog A) (w : World)
  : World * list Detached * Settle A :=
  match p with
  | Ret a => (w, [], Fulfilled a)
  | Throw e => (w, [], Failed e)
  | Get k => run orc (k w) w
  | Put w' k => run orc k w'
  | Await req k => run orc (k (orc _ req)) w
  | Spawn q k =>
      let '(w1, d1, o1) := exec q w in
      let '(w2, d2, r) := run orc k w1 in
      (w2, d1 ++ park o1 ++ d2, r)
  end.


(** * State updates *)

Definition with_this (f : Adapter -> Adapter) (w : World) : World :=
  {| this := f (this w); env := env w; localStorage := localStorage w;
     heap := heap w; next_ref := next_ref w; emitted := emitted w;
     calls := calls w; query := query w; origin := origin w;
     parse_url := parse_url w; embed_ctor_throws := embed_ctor_throws w;
     removePreviousWindowRef_throws := removePreviousWindowRef_throws w |}.

Definition with_localStorage (m : gmap string string) (w : World) : World :=
  {| this := this w; env := env w; localStorage := m;
     heap := heap w; next_ref := next_ref w; emitted := emitted w;
     calls := calls w; query := query w; origin := origin w;
     parse_url := parse_url w; embed_ctor_throws := embed_ctor_throws w;
     removePreviousWindowRef_throws := removePreviousWindowRef_throws w |}.

Definition with_heap (h : gmap nat Embed) (n : nat) (w : World) : World :=
  {| this := this w; env := env w; localStorage := localStorage w;
     heap := h; next_ref := n; emitted := emitted w;
     calls := calls w; query := query w; origin := origin w;
     parse_url := parse_url w; embed_ctor_throws := embed_ctor_throws w;
     removePreviousWindowRef_throws := removePreviousWindowRef_throws w |}.

Definition with_emitted (l : list AdapterEvent) (w : World) : World :=
  {| this := this w; env := env w; localStorage := localStorage w;
     heap := heap w; next_ref := next_ref w; emitted := l;
     calls := calls w; query := query w; origin := origin w;
     parse_url := parse_url w; embed_ctor_throws := embed_ctor_throws w;
     removePreviousWindowRef_throws := removePreviousWindowRef_throws w |}.

Definition with_calls (l : list Call) (w : World) : World :=
  {| this := this w; env := env w; localStorage := localStorage w;
     heap := heap w; next_ref := next_ref w; emitted := emitted w;
     calls := l; query := query w; origin := origin w;
     parse_url := parse_url w; embed_ctor_throws := embed_ctor_throws w;
     removePreviousWindowRef_throws := removePreviousWindowRef_throws w |}.

Definition with_query (q : list (string * string)) (w : World) : World :=
  {| this := this w; env := env w; localStorage := localStorage w;
     heap := heap w; next_ref := next_ref w; emitted := emitted w;
     calls := calls w; query := q; origin := origin w;
     parse_url := parse_url w; embed_ctor_throws := embed_ctor_throws w;
     removePreviousWindowRef_throws := removePreviousWindowRef_throws w |}.

Definition set_connecting (b : bool) (a : Adapter) : Adapter :=
  {| _connecting := b; _disconnected := _disconnected a; _wallet := _wallet a;
     _publicKey := _publicKey a; _directConnect := _directConnect a;
     _title := _title a; _theme := _theme a; _clientId := _clientId a;
     _isDisallowed := _isDisallowed a;
     _installedOnDesktop := _installedOnDesktop a;
     _installedOnAndroid := _installedOnAndroid a;
     _installedOnIos := _installedOnIos a; _forceIframe := _forceIframe a;
     _hideDraggableWidget := _hideDraggableWidget a;
     _hideWalletOnboard := _hideWalletOnboard a;
     _walletAdapterNetwork := _walletAdapterNetwork a;
     _showWallet := _showWallet a; _hideWallet := _hideWallet a |}.

Definition set_disconnected (b : bool) (a : Adapter) : Adapter :=
  {| _connecting := _connecting a; _disconnected := b; _wallet := _wallet a;
     _publicKey := _publicKey a; _directConnect := _directConnect a;
     _title := _title a; _theme := _theme a; _clientId := _clientId a;
     _isDisallowed := _isDisallowed a;
     _installedOnDesktop := _installedOnDesktop a;
     _installedOnAndroid := _installedOnAndroid a;
     _installedOnIos := _installedOnIos a; _forceIframe := _forceIframe a;
     _hideDraggableWidget := _hideDraggableWidget a;
     _hideWalletOnboard := _hideWalletOnboard a;
     _walletAdapterNetwork := _walletAdapterNetwork a;
     _showWallet := _showWallet a; _hideWallet := _hideWallet a |}.

Definition set_wallet (r : option nat) (a : Adapter) : Adapter :=
  {| _connecting := _connecting a; _disconnected := _disconnected a;
     _wallet := r;
     _publicKey := _publicKey a; _directConnect := _directConnect a;
     _title := _title a; _theme := _theme a; _clientId := _clientId a;
     _isDisallowed := _isDisallowed a;
     _installedOnDesktop := _installedOnDesktop a;
     _installedOnAndroid := _installedOnAndroid a;
     _installedOnIos := _installedOnIos a; _forceIframe := _forceIframe a;
     _hideDraggableWidget := _hideDraggableWidget a;
     _hideWalletOnboard := _hideWalletOnboard a;
     _walletAdapterNetwork := _walletAdapterNetwork a;
     _showWallet := _showWallet a; _hideWallet := _hideWallet a |}.

Definition set_publicKey (k : option PublicKey) (a : Adapter) : Adapter :=
  {| _connecting := _connecting a; _disconnected := _disconnected a;
     _wallet := _wallet a;
     _publicKey := k; _directConnect := _directConnect a;
     _title := _title a; _theme := _theme a; _clientId := _clientId a;
     _isDisallowed := _isDisallowed a;
     _installedOnDesktop := _installedOnDesktop a;
     _installedOnAndroid := _installedOnAndroid a;
     _installedOnIos := _installedOnIos a; _forceIframe := _forceIframe a;
     _hideDraggableWidget := _hideDraggableWidget a;
     _hideWalletOnboard := _hideWalletOnboard a;
     _walletAdapterNetwork := _walletAdapterNetwork a;
     _showWallet := _showWallet a; _hideWallet := _hideWallet a |}.

Definition set_isDisallowed (b : bool) (a : Adapter) : Adapter :=
  {| _connecting := _connecting a; _disconnected := _disconnected a;
     _wallet := _wallet a;
     _publicKey := _publicKey a; _directConnect := _directConnect a;
     _title := _title a; _theme := _theme a; _clientId := _clientId a;
     _isDisallowed := b;
     _installedOnDesktop := _installedOnDesktop a;
     _installedOnAndroid := _installedOnAndroid a;
     _installedOnIos := _installedOnIos a; _forceIframe := _forceIframe a;
     _hideDraggableWidget := _hideDraggableWidget a;
     _hideWalletOnboard := _hideWalletOnboard a;
     _walletAdapterNetwork := _walletAdapterNetwork a;
     _showWallet := _showWallet a; _hideWallet := _hideWallet a |}.

Definition set_methods (s h : option nat) (a : Adapter) : Adapter :=
  {| _connecting := _connecting a; _disconnected := _disconnected a;
     _wallet := _wallet a;
     _publicKey := _publicKey a; _directConnect := _directConnect a;
     _title := _title a; _theme := _theme a; _clientId := _clientId a;
     _isDisallowed := _isDisallowed a;
     _installedOnDesktop := _installedOnDesktop a;
     _installedOnAndroid := _installedOnAndroid a;
     _installedOnIos := _installedOnIos a; _forceIframe := _forceIframe a;
     _hideDraggableWidget := _hideDraggableWidget a;
     _hideWalletOnboard := _hideWalletOnboard a;
     _walletAdapterNetwork := _walletAdapterNetwork a;
     _showWallet := s; _hideWallet := h |}.

Definition assign (f : Adapter -> Adapter) : Prog unit := modify (with_this f).

(** [this.emit(...)] *)
Definition emit (e : AdapterEvent) : Prog unit :=
  modify (fun w => with_emitted (emitted w ++ [e]) w).

Definition record (c : Call) : Prog unit :=
  modify (fun w => with_calls (calls w ++ [c]) w).

(** * The embedded channel, seen from the adapter *)

Definition fresh_embed : Embed :=
  {| isLoggedIn := false; listeners := 0;
     clearElements_throws := None; sendTransaction_throws := None |}.

(** [new HyperLinkEmbed(...)] *)
Definition new_HyperLinkEmbed : Prog nat :=
  Get (fun w =>
    match embed_ctor_throws w with
    | Some e => Throw e
    | None =>
        let r := next_ref w in
        Put (with_heap (<[r := fresh_embed]> (heap w)) (S r) w)
            (record (CNew r) ;; Ret r)
    end).

Definition add_listener (o : Embed) : Embed :=
  {| isLoggedIn := isLoggedIn o; listeners := S (listeners o);
     clearElements_throws := clearElements_throws o;
     sendTransaction_throws := sendTransaction_throws o |}.

Definition remove_listener (o : Embed) : Embed :=
  {| isLoggedIn := isLoggedIn o; listeners := pred (listeners o);
     clearElements_throws := clearElements_throws o;
     sendTransaction_throws := sendTransaction_throws o |}.

(** [wallet.on("accountChanged", this._accountChanged)] *)
Definition wallet_on (r : nat) : Prog unit :=
  modify (fun w => with_heap (alter add_listener r (heap w)) (next_ref w) w) ;;
  record (COn r).

(** [wallet.off("accountChanged", this._accountChanged)] *)
Definition wallet_off (r : nat) : Prog unit :=
  modify (fun w => with_heap (alter remove_listener r (heap w)) (next_ref w) w) ;;
  record (COff r).

Definition logged_in (w : World) (r : nat) : bool :=
  match heap w !! r with
  | Some o => isLoggedIn o
  | None => false
  end.

Definition wallet_cleanUp (r : nat) : Prog unit :=
  record (CCleanUp r) ;; await (ReqCleanUp r).

Definition wallet_clearElements (r : nat) : Prog unit :=
  record (CClearElements r) ;;
  Get (fun w =>
    match heap w !! r with
    | Some o =>
        match clearElements_throws o with
        | Some e => Throw e
        | None => Ret tt
        end
    | None => Ret tt
    end).

Definition removePreviousWindowRef : Prog unit :=
  record CRemovePreviousWindowRef ;;
  Get (fun w =>
    match removePreviousWindowRef_throws w with
    | Some e => Throw e
    | None => Ret tt
    end).

Definition wallet_init (r : nat) (o : InitOptions) : Prog InitResult :=
  record (CInit r o) ;; await (ReqInit r o).

Definition wallet_signTransaction (r : nat) (t : Transaction)
  : Prog (option Transaction) :=
  record (CSignTransaction r t) ;; await (ReqSignTransaction r t).

Definition wallet_signAllTransactions (r : nat) (ts : list Transaction)
  : Prog (option (list Transaction)) :=
  record (CSignAllTransactions r ts) ;; await (ReqSignAllTransactions r ts).

Definition wallet_signMessage (r : nat) (m : Bytes) : Prog Bytes :=
  record (CSignMessage r m) ;; await (ReqSignMessage r m).

Definition wallet_signIn (r : nat) (i : option SignInArgument)
  : Prog SolanaSignInOutput :=
  record (CSignIn r i) ;; await (ReqSignIn r i).

(** The call [wallet.sendTransaction(...)] itself: it may throw, otherwise
    it hands back the promise. *)
Definition wallet_sendTransaction (r : nat) (t : Transaction)
  : Prog (Request string) :=
  record (CSendTransaction r t) ;;
  Get (fun w =>
    match heap w !! r with
    | Some o =>
        match sendTransaction_throws o with
        | Some e => Throw e
        | None => Ret (ReqSendTransaction r t)
        end
    | None => Ret (ReqSendTransaction r t)
    end).


(** * Allowlist guard *)

Inductive BuildEnv : Type := PRODUCTION.

(** [sanitizeUrlForAllowList] *)
Definition sanitizeUrlForAllowList (urlString : string) : Prog string :=
  Get (fun w =>
    match parse_url w urlString with
    | None => Throw (TypeError "Invalid URL")
    | Some url =>
        Ret (protocol url ++ "//" ++ hostname url
             ++ (if Detect.truthy (port url) then ":" ++ port url else ""))%string
    end).

(** [checkIfAllowListed] *)
Definition checkIfAllowListed (buildEnv : BuildEnv) (clientId url : string)
    (failCallback : Prog unit) : Prog unit :=
  referrerUrl <- sanitizeUrlForAllowList url ;;
  let configUrl := {| q_clientId := clientId; q_referrerUrl := referrerUrl |} in
  response <- (record (CFetch configUrl) ;; await (ReqFetch configUrl)) ;;
  body <- await (ReqJson response) ;;
  ancestor <- match body with
              | BodyNull => Throw (TypeError "Cannot destructure property")
              | BodyWith a => Ret a
              end ;;
  if ok response && (status response =? 200)%Z && js_truthy ancestor
  then Ret tt
  else failCallback ;; Ret tt.

(** * The adapter *)

Definition installedToWalletReadyState (installed : bool) : WalletReadyState :=
  if installed then Installed else Loadable.

(** [get connected] *)
Definition connected (w : World) : bool :=
  match _wallet (this w) with
  | Some r => logged_in w r
  | None => false
  end.

(** [get readyState] *)
Definition readyState (w : World) : WalletReadyState :=
  let isAndroid := Detect.isMobileAndroid (env w) in
  let isiOS := Detect.isMobileiOS (env w) in
  let isPhantom := Detect.isPhantomBrowser (env w) in
  let isInstalled :=
    if isPhantom then false
    else if isAndroid then _installedOnAndroid (this w)
    else if isiOS then _installedOnIos (this w)
    else _installedOnDesktop (this w) in
  if negb (Detect.has_window (env w)) || negb (Detect.has_document (env w))
  then Unsupported
  else installedToWalletReadyState isInstalled.

Definition invalid_public_key : JsError := PlainError "Invalid public key input".

(** [new PublicKey(s)] as a statement that may throw. *)
Definition construct_PublicKey (s : string) : Prog PublicKey :=
  match new_PublicKey s with
  | Some k => Ret k
  | None => Throw invalid_public_key
  end.

(** [_accountChanged] *)
Definition _accountChanged (newPublicKeyString : string) : Prog unit :=
  publicKey <- gets (fun w => _publicKey (this w)) ;;
  match publicKey with
  | None => Ret tt
  | Some publicKey =>
      if String.eqb (toBase58 publicKey) newPublicKeyString then Ret tt
      else
        newPublicKey <-
          try_catch
            (k <- construct_PublicKey newPublicKeyString ;; Ret (Some k))
            (fun error => emit (EvError (WalletPublicKeyError error)) ;; Ret None) ;;
        match newPublicKey with
        | None => Ret tt
        | Some newPublicKey =>
            assign (set_publicKey (Some newPublicKey)) ;;
            emit (EvConnect newPublicKey)
        end
  end.

(** [removeQueryParam] *)
Definition removeQueryParam (key : string) : Prog unit :=
  modify (fun w =>
    if existsb (fun p => String.eqb (fst p) key) (query w)
    then with_query (filter (fun p => negb (String.eqb (fst p) key)) (query w)) w
    else w).

(** The handler passed to [wallet.init] as [onWalletHandshake]. *)
Definition onWalletHandshake (showWallet hideWallet : nat) : Prog unit :=
  assign (set_methods (Some showWallet) (Some hideWallet)).

Definition storage_key : string := "hyperLink_pk_connected".

Definition truthy_item (v : option string) : bool :=
  match v with
  | Some s => Detect.truthy s
  | None => false
  end.

(** [disconnect] *)
Definition disconnect : Prog unit :=
  wallet <- gets (fun w => _wallet (this w)) ;;
  assign (set_connecting false) ;;
  assign (set_disconnected true) ;;
  match wallet with
  | Some wallet =>
      assign (set_wallet None) ;;
      assign (set_publicKey None) ;;
      wallet_off wallet ;;
      try_catch
        (loggedIn <- gets (fun w => logged_in w wallet) ;;
         (if loggedIn : bool then wallet_cleanUp wallet
          else wallet_clearElements wallet) ;;
         removePreviousWindowRef)
        (fun error => emit (EvError (WalletDisconnectionError error)))
  | None => Ret tt
  end ;;
  emit EvDisconnect.

Record ConnectArgs : Type := {
  forceNoDirectConnect : bool;
  siwsInput : option CustomSolanaSignInInput;
  autoConnect : bool
}.

(** How the [try] block of [_connect] ends: by a [return;] or by reaching
    its end with [solanaSignInOutput] set. *)
Inductive Completion : Type :=
| Returned
| Reached (solanaSignInOutput : option SolanaSignInOutput).

Definition not_supported_message : string :=
  "The HyperLink Wallet is not supported in this browser.".

(** [previouslyConnectedPublicKey &&
     previouslyConnectedPublicKey !== publicKey.toBase58()] *)
Definition switched_account (previouslyConnectedPublicKey : option string)
    (publicKey : PublicKey) : bool :=
  match previouslyConnectedPublicKey with
  | Some s => Detect.truthy s && negb (String.eqb s (toBase58 publicKey))
  | None => false
  end.

(** The part of [_connect] after [wallet.init] has resolved and the public
    key was built. *)
Definition _connect_accept (wallet : nat)
    (previouslyConnectedPublicKey : option string) (publicKey : PublicKey)
    (solanaSignInOutput : option SolanaSignInOutput) : Prog Completion :=
  disconnected <- gets (fun w => _disconnected (this w)) ;;
  if disconnected : bool then Ret Returned
  else
    if switched_account previouslyConnectedPublicKey publicKey
    then Spawn disconnect (Ret Returned)
    else
      removeQueryParam "hyperLinkAutoConnect" ;;
      removeQueryParam "hyperLinkAutoConnectPublicKey" ;;
      removeQueryParam "promptHyperLinkAutoConnect" ;;
      wallet_on wallet ;;
      assign (set_publicKey (Some publicKey)) ;;
      modify (fun w =>
        with_localStorage (<[storage_key := toBase58 publicKey]> (localStorage w)) w) ;;
      emit (EvConnect publicKey) ;;
      Ret (Reached solanaSignInOutput).

(** [_connect] *)
Definition _connect (a : ConnectArgs) : Prog (option ConnectOutput) :=
  inApp <- gets (fun w => Detect.isInApp (env w)) ;;
  if inApp : bool then
    Spawn disconnect
      (record CShowDialog ;; Throw (Reason not_supported_message))
  else
    busy <- gets (fun w => connected w || _connecting (this w)) ;;
    if busy : bool then Ret None
    else
      previouslyConnectedPublicKey <- gets (fun w => localStorage w !! storage_key) ;;
      forceIframe <- gets (fun w => _forceIframe (this w)) ;;
      let downgrade := truthy_item previouslyConnectedPublicKey || forceIframe in
      let forceNoDirectConnect := if downgrade then true else forceNoDirectConnect a in
      let autoConnect := if downgrade then true else autoConnect a in
      assign (set_disconnected false) ;;
      c <- finally
             (try_catch
                (rs <- gets readyState ;;
                 match rs with
                 | Installed | Loadable =>
                     assign (set_connecting true) ;;
                     wallet <- try_catch new_HyperLinkEmbed
                                 (fun error => Throw (WalletConfigError error)) ;;
                     assign (set_wallet (Some wallet)) ;;
                     r <- try_catch
                            (options <- gets (fun w =>
                               {| opt_directConnect :=
                                    if forceNoDirectConnect then false
                                    else _directConnect (this w);
                                  opt_autoConnect := autoConnect;
                                  opt_siwsInput := siwsInput a;
                                  opt_forceClickToContinue := _forceIframe (this w);
                                  opt_theme := _theme (this w);
                                  opt_hideDraggableWidget := _hideDraggableWidget (this w);
                                  opt_hideWalletOnboard := _hideWalletOnboard (this w) |}) ;;
                             res <- wallet_init wallet options ;;
                             publicKey <- construct_PublicKey (pk res) ;;
                             Ret (publicKey, init_siwsOutput res))
                            (fun error =>
                               await_call disconnect ;;
                               Throw (WalletConnectionError error)) ;;
                     _connect_accept wallet previouslyConnectedPublicKey (fst r) (snd r)
                 | _ => Throw WalletNotReadyError
                 end)
                (fun error => emit (EvError error) ;; Throw error))
             (assign (set_connecting false)) ;;
      match c with
      | Returned => Ret None
      | Reached solanaSignInOutput => Ret (Some {| siwsOutput := solanaSignInOutput |})
      end.

(** [autoConnect] *)
Definition autoConnect_ : Prog unit :=
  await_call (_connect {| forceNoDirectConnect := true; siwsInput := None;
                          autoConnect := true |}) ;;
  Ret tt.

(** [connect] *)
Definition connect : Prog unit :=
  await_call (_connect {| forceNoDirectConnect := false; siwsInput := None;
                          autoConnect := false |}) ;;
  Ret tt.

(** The guard shared by the signing methods:
    [if (!wallet || !this.connected) throw new WalletNotConnectedError()]. *)
Definition live_wallet : Prog nat :=
  Get (fun w =>
    match _wallet (this w) with
    | Some wallet =>
        if connected w then Ret wallet else Throw (WalletNotConnectedError None)
    | None => Throw (WalletNotConnectedError None)
    end).

Definition emit_and_rethrow {A : Type} (error : JsError) : Prog A :=
  emit (EvError error) ;; Throw error.

(** [signTransaction] *)
Definition signTransaction (transaction : Transaction) : Prog Transaction :=
  try_catch
    (wallet <- live_wallet ;;
     try_catch
       (signed <- wallet_signTransaction wallet transaction ;;
        Ret (match signed with Some t => t | None => transaction end))
       (fun error => Throw (WalletSignTransactionError error)))
    emit_and_rethrow.

(** [signAllTransactions] *)
Definition signAllTransactions (transactions : list Transaction)
  : Prog (list Transaction) :=
  try_catch
    (wallet <- live_wallet ;;
     try_catch
       (signed <- wallet_signAllTransactions wallet transactions ;;
        Ret (match signed with Some ts => ts | None => transactions end))
       (fun error => Throw (WalletSignTransactionError error)))
    emit_and_rethrow.

(** [signMessage] *)
Definition signMessage (message : Bytes) : Prog Bytes :=
  try_catch
    (wallet <- live_wallet ;;
     try_catch
       (wallet_signMessage wallet message)
       (fun error => Throw (WalletSignMessageError error)))
    emit_and_rethrow.

(** [sendTransaction]: the promise of the channel is returned from inside
    the [try] without being awaited there, so only what the call itself
    throws reaches the [catch]. *)
Definition sendTransaction (transaction : Transaction) : Prog string :=
  promise <- try_catch
               (wallet <- live_wallet ;;
                wallet_sendTransaction wallet transaction)
               emit_and_rethrow ;;
  await promise.

Definition signIn_argument (input : option CustomSolanaSignInInput)
  : option SignInArgument :=
  match input with
  | Some (InputFunction i) => Some (CalledFunction i)
  | Some (InputObject i) => Some (ResolvedObject i)
  | None => None
  end.

(** The first branch of [signIn]: connect with the payload and take the
    proof out of what [_connect] returned; [connect_call] is the call
    [this._connect({ siwsInput: input })]. *)
Definition signIn_via_connect (input : option CustomSolanaSignInInput)
    (connect_call : Prog (option ConnectOutput))
  : Prog (option SolanaSignInOutput) :=
  output <- await_call connect_call ;;
  let siwsOutput := match output with
                    | Some o => siwsOutput o
                    | None => None
                    end in
  match input with
  | Some _ =>
      match siwsOutput with
      | None => Throw (PlainError "No Solana Sign In Output")
      | Some proof => Ret (Some proof)
      end
  | None => Ret None
  end.

(** The rest of [signIn]: the sign-in call on the channel. *)
Definition signIn_direct (input : option CustomSolanaSignInInput)
  : Prog SolanaSignInOutput :=
  wallet <- live_wallet ;;
  publicKey <- gets (fun w => _publicKey (this w)) ;;
  match publicKey with
  | None => Throw (WalletNotConnectedError (Some "no public key found"))
  | Some _ =>
      try_catch
        (wallet_signIn wallet (signIn_argument input))
        (fun error => Throw (WalletSignInError error))
  end.

(** [signIn] *)
Definition signIn (input : option CustomSolanaSignInInput)
  : Prog SolanaSignInOutput :=
  try_catch
    (isConnected <- gets connected ;;
     early <- (if isConnected : bool then Ret None
               else signIn_via_connect input
                      (_connect {| forceNoDirectConnect := false;
                                   siwsInput := input;
                                   autoConnect := false |})) ;;
     match early with
     | Some proof => Ret proof
     | None => signIn_direct input
     end)
    emit_and_rethrow.

(** [showWallet] *)
Definition showWallet (page : option EmbeddedWalletPage) : Prog unit :=
  method <- gets (fun w => _showWallet (this w)) ;;
  match method with
  | Some h => record (CShowWallet h page)
  | None => record (CConsoleError "showWallet method not found")
  end.

(** [hideWallet] *)
Definition hideWallet : Prog unit :=
  method <- gets (fun w => _hideWallet (this w)) ;;
  match method with
  | Some h => record (CHideWallet h)
  | None => record (CConsoleError "hideWallet method not found")
  end.

(** ** Construction *)

Record WalletAdapterConfig : Type := {
  clientId : string;
  title : string;
  theme : Theme;
  installedOnDesktop : option bool;
  installedOnIos : option bool;
  installedOnAndroid : option bool;
  hideDraggableWidget : option bool;
  hideWalletOnboard : option bool;
  walletAdapterNetwork : option Network
}.

(** The callback the constructor gives to [checkIfAllowListed]. *)
Definition on_disallowed : Prog unit :=
  assign (set_isDisallowed true) ;;
  wallet <- gets (fun w => _wallet (this w)) ;;
  match wallet with
  | Some r => record (CNotifyDisallowed r)
  | None => Ret tt
  end ;;
  Spawn disconnect (Ret tt).

(** [preLoadIframe] *)
Definition preLoadIframe : Prog unit :=
  Get (fun w =>
    if negb (Detect.has_document (env w)) || negb (Detect.has_window (env w))
    then Ret tt
    else if Detect.prefetch_supported (env w) then record CPrefetchLink
    else Ret tt).

Definition forceIframe_of (e : Detect.Env) : bool :=
  (Detect.has_document e && String.eqb (Detect.referrer e) "https://t.co/"
   && Detect.has_navigator e && Detect.isMobileiOS e)
  || Detect.isPWA e.

Definition initial_adapter (c : WalletAdapterConfig) (e : Detect.Env) : Adapter :=
  {| _connecting := false; _disconnected := false; _wallet := None;
     _publicKey := None; _directConnect := true;
     _title := title c; _theme := theme c; _clientId := clientId c;
     _isDisallowed := false;
     _installedOnDesktop := default true (installedOnDesktop c);
     _installedOnAndroid := default false (installedOnAndroid c);
     _installedOnIos := default true (installedOnIos c);
     _forceIframe := forceIframe_of e;
     _hideDraggableWidget := default false (hideDraggableWidget c);
     _hideWalletOnboard := default false (hideWalletOnboard c);
     _walletAdapterNetwork := default Mainnet (walletAdapterNetwork c);
     _showWallet := None; _hideWallet := None |}.

(** [constructor] *)
Definition constructor (c : WalletAdapterConfig) : Prog unit :=
  hasWindow <- gets (fun w => Detect.has_window (env w)) ;;
  page <- gets origin ;;
  (if hasWindow : bool
   then Spawn (checkIfAllowListed PRODUCTION (clientId c) page on_disallowed) (Ret tt)
   else Ret tt) ;;
  Spawn preLoadIframe (Ret tt) ;;
  modify (fun w => with_this (fun _ => initial_adapter c (env w)) w) ;;
  record CAttachInstance.


(** * Continuations

    The remainder of each method after the [await] it suspends on, written
    out so that statements can name it; the lemmas [connect_suspends],
    [disconnect_suspends] and the like show that these are the
    continuations [exec] reaches. *)

(** [disconnect] after [await wallet.cleanUp()]. *)
Definition disconnect_resume (ans : Settle unit) : Prog unit :=
  try_catch
    (settle ans ;; removePreviousWindowRef)
    (fun error => emit (EvError (WalletDisconnectionError error))) ;;
  emit EvDisconnect.

(** [_connect] after [await wallet.init(...)]; [previous] is the value of
    [previouslyConnectedPublicKey] read when the call began. *)
Definition _connect_resume (wallet : nat) (previous : option string)
    (ans : Settle InitResult) : Prog (option ConnectOutput) :=
  c <- finally
         (try_catch
            (r <- try_catch
                    (res <- settle ans ;;
                     publicKey <- construct_PublicKey (pk res) ;;
                     Ret (publicKey, init_siwsOutput res))
                    (fun error =>
                       await_call disconnect ;;
                       Throw (WalletConnectionError error)) ;;
             _connect_accept wallet previous (fst r) (snd r))
            (fun error => emit (EvError error) ;; Throw error))
         (assign (set_connecting false)) ;;
  match c with
  | Returned => Ret None
  | Reached solanaSignInOutput => Ret (Some {| siwsOutput := solanaSignInOutput |})
  end.

(** [connect] and [autoConnect] after the handshake. *)
Definition connect_resume (wallet : nat) (previous : option string)
    (ans : Settle InitResult) : Prog unit :=
  await_call (_connect_resume wallet previous ans) ;; Ret tt.

(** [signIn] after the handshake. *)
Definition signIn_resume (input : option CustomSolanaSignInInput)
    (wallet : nat) (previous : option string) (ans : Settle InitResult)
  : Prog SolanaSignInOutput :=
  try_catch
    (early <- signIn_via_connect input (_connect_resume wallet previous ans) ;;
     match early with
     | Some proof => Ret proof
     | None => signIn_direct input
     end)
    emit_and_rethrow.

(** * Notions used in the statements *)

Definition is_tick {X : Type} (req : Request X) : bool :=
  match req with
  | Tick => true
  | _ => false
  end.

(** The conditions under which [_connect] gets as far as [wallet.init]:
    not an in-app browser, neither connected nor connecting, a supported
    ready state, and an embed constructor that does not throw. *)
Definition starts_handshake (w : World) : bool :=
  negb (Detect.isInApp (env w))
  && negb (connected w || _connecting (this w))
  && match readyState w with
     | Installed | Loadable => true
     | _ => false
     end
  && match embed_ctor_throws w with
     | None => true
     | Some _ => false
     end.

(** The options [_connect] passes to [wallet.init] in world [w]. *)
Definition init_options (a : ConnectArgs) (w : World) : InitOptions :=
  let downgrade :=
    truthy_item (localStorage w !! storage_key) || _forceIframe (this w) in
  {| opt_directConnect :=
       if (if downgrade then true else forceNoDirectConnect a) then false
       else _directConnect (this w);
     opt_autoConnect := if downgrade then true else autoConnect a;
     opt_siwsInput := siwsInput a;
     opt_forceClickToContinue := _forceIframe (this w);
     opt_theme := _theme (this w);
     opt_hideDraggableWidget := _hideDraggableWidget (this w);
     opt_hideWalletOnboard := _hideWalletOnboard (this w) |}.

(** The world in which [_connect] suspends on [wallet.init]. *)
Definition handshake_started (a : ConnectArgs) (w : World) : World :=
  let r := next_ref w in
  with_calls (calls w ++ [CNew r; CInit r (init_options a w)])
    (with_this (fun t => set_wallet (Some r)
                           (set_connecting true (set_disconnected false t)))
       (with_heap (<[r := fresh_embed]> (heap w)) (S r) w)).

Definition is_connect_event (e : AdapterEvent) : bool :=
  match e with
  | EvConnect _ => true
  | _ => false
  end.

(** The public entry points that start a connection. *)
Inductive EntryPoint : Type := CallConnect | CallAutoConnect.

Definition entry (c : EntryPoint) : Prog unit :=
  match c with
  | CallConnect => connect
  | CallAutoConnect => autoConnect_
  end.

(** Calls issued one after the other within one turn: each runs up to its
    first suspension before the next starts. *)
Fixpoint issue (cs : list EntryPoint) (w : World)
  : World * list Detached * list (Outcome unit) :=
  match cs with
  | [] => (w, [], [])
  | c :: cs' =>
      let '(w1, d1, o) := exec (entry c) w in
      let '(w2, d2, os) := issue cs' w1 in
      (w2, d1 ++ d2, o :: os)
  end.

(** A suspended call that only waits for its own, already settled, promise
    and then resolves without touching the world. *)
Definition resolves_as_noop (o : Outcome unit) : Prop :=
  match o with
  | Blocked req k =>
      is_tick req = true
      /\ forall ans w', exec (k ans) w' = (w', [], Done (Fulfilled tt))
  | Done _ => False
  end.

(** [get readyState] with the memo cells of the detector threaded through. *)
Definition readyState_memo (w : World) (m : Detect.Memo)
  : WalletReadyState * Detect.Memo :=
  let '(isAndroid, m1) := Detect.isMobileAndroid_memo (env w) m in
  let '(isiOS, m2) := Detect.isMobileiOS_memo (env w) m1 in
  let '(isPhantom, m3) := Detect.isPhantomBrowser_memo (env w) m2 in
  let isInstalled :=
    if isPhantom then false
    else if isAndroid then _installedOnAndroid (this w)
    else if isiOS then _installedOnIos (this w)
    else _installedOnDesktop (this w) in
  (if negb (Detect.has_window (env w)) || negb (Detect.has_document (env w))
   then Unsupported
   else installedToWalletReadyState isInstalled, m3).

(** ** Sample inputs *)

Definition ua_android_chrome : string :=
  "Mozilla/5.0 (Linux; Android 10; K) AppleWebKit/537.36 (KHTML, like Gecko) Chrome/114.0.0.0 Mobile Safari/537.36".

Definition ua_android_webview : string :=
  "Mozilla/5.0 (Linux; Android 10; K; wv) AppleWebKit/537.36 (KHTML, like Gecko) Version/4.0 Chrome/114.0.0.0 Mobile Safari/537.36".

Definition ua_iphone_safari : string :=
  "Mozilla/5.0 (iPhone; CPU iPhone OS 16_0 like Mac OS X) AppleWebKit/605.1.15 (KHTML, like Gecko) Version/16.0 Mobile/15E148 Safari/604.1".

Definition ua_iphone_phantom : string :=
  "Mozilla/5.0 (iPhone; CPU iPhone OS 16_0 like Mac OS X) AppleWebKit/605.1.15 (KHTML, like Gecko) Mobile/15E148 Phantom/ios".

Definition ua_desktop : string :=
  "Mozilla/5.0 (X11; Linux x86_64) AppleWebKit/537.36 (KHTML, like Gecko) Chrome/114.0.0.0 Safari/537.36".

Definition browser (ua : string) : Detect.Env :=
  {| Detect.has_window := true; Detect.has_document := true;
     Detect.has_navigator := true; Detect.userAgent := Some ua;
     Detect.referrer := ""; Detect.standalone := false;
     Detect.display_standalone := false; Detect.display_fullscreen := false;
     Detect.display_minimal_ui := false; Detect.prefetch_supported := true |}.

Definition server_side : Detect.Env :=
  {| Detect.has_window := false; Detect.has_document := false;
     Detect.has_navigator := false; Detect.userAgent := None;
     Detect.referrer := ""; Detect.standalone := false;
     Detect.display_standalone := false; Detect.display_fullscreen := false;
     Detect.display_minimal_ui := false; Detect.prefetch_supported := false |}.

Definition sample_config : WalletAdapterConfig :=
  {| clientId := "client-1"; title := "Sample dApp"; theme := ThemeSystem;
     installedOnDesktop := None; installedOnIos := Some true;
     installedOnAndroid := Some false; hideDraggableWidget := None;
     hideWalletOnboard := None; walletAdapterNetwork := None |}.

Definition sample_origin : string := "https://dapp.example".

Definition sample_parse_url (s : string) : option URL :=
  if String.eqb s sample_origin
  then Some {| protocol := "https:"; hostname := "dapp.example"; port := "" |}
  else None.

(** A page that holds a freshly constructed adapter. *)
Definition page (e : Detect.Env) (store : gmap string string) : World :=
  {| this := initial_adapter sample_config e; env := e;
     localStorage := store; heap := ∅; next_ref := 0; emitted := [];
     calls := []; query := []; origin := sample_origin;
     parse_url := sample_parse_url; embed_ctor_throws := None;
     removePreviousWindowRef_throws := None |}.

Definition ADDR_A : string := "11111111111111111111111111111111".

Definition ADDR_B : string := "So11111111111111111111111111111111111111112".

(** ** Worlds and values named in the statements *)

(** What [disconnect] leaves of the adapter's fields: the flags are forced,
    and a held channel is released together with the public key. *)
Definition release (a : Adapter) : Adapter :=
  match _wallet a with
  | Some _ =>
      set_publicKey None
        (set_wallet None (set_disconnected true (set_connecting false a)))
  | None => set_disconnected true (set_connecting false a)
  end.

(** The [error] events of a forced teardown of channel [r] in world [w]. *)
Definition teardown_errors (w : World) (r : nat) : list AdapterEvent :=
  match heap w !! r with
  | Some o =>
      match clearElements_throws o with
      | Some e => [EvError (WalletDisconnectionError e)]
      | None =>
          match removePreviousWindowRef_throws w with
          | Some e => [EvError (WalletDisconnectionError e)]
          | None => []
          end
      end
  | None =>
      match removePreviousWindowRef_throws w with
      | Some e => [EvError (WalletDisconnectionError e)]
      | None => []
      end
  end.

(** The calls of a forced teardown of channel [r] in world [w]. *)
Definition teardown_calls (w : World) (r : nat) : list Call :=
  match heap w !! r with
  | Some o =>
      match clearElements_throws o with
      | Some e => [COff r; CClearElements r]
      | None => [COff r; CClearElements r; CRemovePreviousWindowRef]
      end
  | None => [COff r; CClearElements r; CRemovePreviousWindowRef]
  end.

(** The [error] events of a graceful teardown once [cleanUp] has settled. *)
Definition resume_errors (ans : Settle unit) (w : World) : list AdapterEvent :=
  match ans with
  | Failed e => [EvError (WalletDisconnectionError e)]
  | Fulfilled _ =>
      match removePreviousWindowRef_throws w with
      | Some e => [EvError (WalletDisconnectionError e)]
      | None => []
      end
  end.

Definition no_connect_event (l : list AdapterEvent) : bool :=
  forallb (fun e => negb (is_connect_event e)) l.

Definition is_disconnection_error (e : AdapterEvent) : bool :=
  match e with
  | EvError (WalletDisconnectionError _) => true
  | _ => false
  end.

(** The page URL without the search parameter [key]. *)
Definition strip_param (key : string) (w : World) : World :=
  if existsb (fun p => String.eqb (fst p) key) (query w)
  then with_query (filter (fun p => negb (String.eqb (fst p) key)) (query w)) w
  else w.

Definition strip_redirect_params (w : World) : World :=
  strip_param "promptHyperLinkAutoConnect"
    (strip_param "hyperLinkAutoConnectPublicKey"
       (strip_param "hyperLinkAutoConnect" w)).

(** The world after [_connect] has accepted the account [key] over the
    channel [r]. *)
Definition accepted (r : nat) (key : PublicKey) (w : World) : World :=
  let w1 := strip_redirect_params w in
  with_this (fun t => set_connecting false (set_publicKey (Some key) t))
    (with_emitted (emitted w1 ++ [EvConnect key])
       (with_localStorage (<[storage_key := toBase58 key]> (localStorage w1))
          (with_calls (calls w1 ++ [COn r])
             (with_heap (alter add_listener r (heap w1)) (next_ref w1) w1)))).

(** The shape of the adapter between operations: no channel once flagged
    disconnected, and no public key without a channel. *)
Definition well_formed (a : Adapter) : Prop :=
  (_disconnected a = true -> _wallet a = None)
  /\ (_wallet a = None -> _publicKey a = None).

(** The text [sanitizeUrlForAllowList] makes of a parsed URL. *)
Definition sanitized (u : URL) : string :=
  (protocol u ++ "//" ++ hostname u
   ++ (if Detect.truthy (port u) then ":" ++ port u else ""))%string.

(** The answer that lets [checkIfAllowListed] return without the callback. *)
Definition allowed (response : HttpResponse) (ancestor : JsValue) : bool :=
  (status response =? 200)%Z && js_truthy ancestor.

Definition no_proof : JsError := PlainError "No Solana Sign In Output".

Definition in_browser (w : World) : bool :=
  Detect.has_window (env w) && Detect.has_document (env w).

(** The installed flag configured for the platform the detector reports. *)
Definition platform_flag (w : World) : bool :=
  if Detect.isMobileAndroid (env w) then _installedOnAndroid (this w)
  else if Detect.isMobileiOS (env w) then _installedOnIos (this w)
  else _installedOnDesktop (this w).

(** ** More sample inputs *)

Definition key_A : PublicKey := {| toBase58 := ADDR_A; key_valid := eq_refl |}.

Definition key_B : PublicKey := {| toBase58 := ADDR_B; key_valid := eq_refl |}.

Definition plain_connect : ConnectArgs :=
  {| forceNoDirectConnect := false; siwsInput := None; autoConnect := false |}.

Definition fresh_page : World := page (browser ua_desktop) ∅.

(** A page whose storage remembers [ADDR_A]. *)
Definition returning_page : World :=
  page (browser ua_desktop) {[ storage_key := ADDR_A ]}.

(** [fresh_page] with a handshake in flight. *)
Definition pending_page : World := handshake_started plain_connect fresh_page.

Definition logged_in_embed : Embed :=
  {| isLoggedIn := true; listeners := 1;
     clearElements_throws := None; sendTransaction_throws := None |}.

(** A page connected as [key] over channel [0]. *)
Definition session (key : PublicKey) : World :=
  {| this := set_publicKey (Some key)
               (set_wallet (Some 0) (initial_adapter sample_config (browser ua_desktop)));
     env := browser ua_desktop;
     localStorage := {[ storage_key := toBase58 key ]};
     heap := {[ 0 := logged_in_embed ]}; next_ref := 1;
     emitted := [EvConnect key]; calls := []; query := [];
     origin := sample_origin; parse_url := sample_parse_url;
     embed_ctor_throws := None; removePreviousWindowRef_throws := None |}.

Definition sample_input : CustomSolanaSignInInput :=
  InputObject (SignInPayload "Sign in to Sample dApp").

Definition sample_proof : SolanaSignInOutput := SignInProof "signed".

Definition handshake_A : InitResult := {| pk := ADDR_A; init_siwsOutput := None |}.

Definition handshake_B : InitResult :=
  {| pk := ADDR_B; init_siwsOutput := Some sample_proof |}.

Definition android_page : World := page (browser ua_android_chrome) ∅.

(** * Notions used in the further properties *)

(** [wp p Q w]: started in [w], and whatever the answers to its awaits and
    the worlds it is resumed in, [p] settles, in a world and with a result
    that satisfy [Q]. *)
Fixpoint wp {A : Type} (p : Prog A) (Q : World -> Settle A -> Prop) (w : World)
  : Prop :=
  match p with
  | Ret a => Q w (Fulfilled a)
  | Throw e => Q w (Failed e)
  | Get k => wp (k w) Q w
  | Put w' k => wp k Q w'
  | Await req k => forall ans w', wp (k ans) Q w'
  | Spawn q k => wp k Q (fst (fst (exec q w)))
  end.

(** [turns I p Q w]: started in [w], resumed only in worlds that satisfy
    [I], the program [p] satisfies [I] whenever it suspends, so do the tasks
    it spawns, and it settles in a world and with a result that satisfy
    [Q]. *)
Fixpoint turns {A : Type} (I : World -> Prop) (p : Prog A)
    (Q : World -> Settle A -> Prop) (w : World) : Prop :=
  match p with
  | Ret a => Q w (Fulfilled a)
  | Throw e => Q w (Failed e)
  | Get k => turns I (k w) Q w
  | Put w' k => turns I k Q w'
  | Await req k => I w /\ forall ans w', I w' -> turns I (k ans) Q w'
  | Spawn q k =>
      turns I q (fun w' _ => I w') w /\ turns I k Q (fst (fst (exec q w)))
  end.

(** The world and the spawned tasks a program leaves after its first turn. *)
Definition first_turn {A : Type} (p : Prog A) (w : World) : World * list Detached :=
  fst (exec p w).

Definition suspends {A : Type} (p : Prog A) (w : World) : Prop :=
  match snd (exec p w) with
  | Blocked _ _ => True
  | Done _ => False
  end.

(** The calls that open a channel to the wallet. *)
Definition is_channel_start (c : Call) : bool :=
  match c with
  | CNew _ | CInit _ _ => true
  | _ => false
  end.

Definition is_fetch (c : Call) : bool :=
  match c with
  | CFetch _ => true
  | _ => false
  end.

(** [url.searchParams.has(key)] for the page URL. *)
Definition has_param (key : string) (w : World) : bool :=
  existsb (fun p => String.eqb (fst p) key) (query w).

(** The error the [catch] around [wallet.init] and [new PublicKey(pk)]
    receives, if any. *)
Definition handshake_error (ans : Settle InitResult) : option JsError :=
  match ans with
  | Failed e => Some e
  | Fulfilled res =>
      match new_PublicKey (pk res) with
      | Some _ => None
      | None => Some invalid_public_key
      end
  end.

(** [checkIfAllowListed] after [await response.json()]. *)
Definition check_after_json (failCallback : Prog unit) (response : HttpResponse)
    (ans : Settle JsonBody) : Prog unit :=
  body <- settle ans ;;
  ancestor <- match body with
              | BodyNull => Throw (TypeError "Cannot destructure property")
              | BodyWith a => Ret a
              end ;;
  if ok response && (status response =? 200)%Z && js_truthy ancestor
  then Ret tt
  else failCallback ;; Ret tt.

(** [checkIfAllowListed] after [await fetch(configUrl)]. *)
Definition check_after_fetch (failCallback : Prog unit)
    (ans : Settle HttpResponse) : Prog unit :=
  response <- settle ans ;;
  Await (ReqJson response) (check_after_json failCallback response).

(** The flags agree with the channel reference: no channel once flagged
    disconnected, and a connect in flight holds a channel and is not
    flagged disconnected. *)
Definition consistent (w : World) : Prop :=
  (_disconnected (this w) = true -> _wallet (this w) = None)
  /\ (_connecting (this w) = true ->
      _disconnected (this w) = false /\ _wallet (this w) <> None).

(** What can run on the adapter: its public methods, the listener it
    registers on the channel, the handshake callback it passes to
    [wallet.init] and the callback it gives to the allowlist check. *)
Inductive Operation : Type :=
| OpConnect
| OpAutoConnect
| OpDisconnect
| OpSignTransaction (t : Transaction)
| OpSignAllTransactions (ts : list Transaction)
| OpSignMessage (m : Bytes)
| OpSendTransaction (t : Transaction)
| OpSignIn (input : option CustomSolanaSignInInput)
| OpShowWallet (page : option EmbeddedWalletPage)
| OpHideWallet
| OpAccountChanged (newPublicKeyString : string)
| OpWalletHandshake (showWallet hideWallet : nat)
| OpDisallowed.

(** The program of an operation, its result dropped. *)
Definition perform (op : Operation) : Prog unit :=
  match op with
  | OpConnect => connect
  | OpAutoConnect => autoConnect_
  | OpDisconnect => disconnect
  | OpSignTransaction t => signTransaction t ;; Ret tt
  | OpSignAllTransactions ts => signAllTransactions ts ;; Ret tt
  | OpSignMessage m => signMessage m ;; Ret tt
  | OpSendTransaction t => sendTransaction t ;; Ret tt
  | OpSignIn input => signIn input ;; Ret tt
  | OpShowWallet page => showWallet page
  | OpHideWallet => hideWallet
  | OpAccountChanged s => _accountChanged s
  | OpWalletHandshake s h => onWalletHandshake s h
  | OpDisallowed => on_disallowed
  end.

(** The [_disconnected] flag is up. *)
Definition flagged (w : World) : Prop := _disconnected (this w) = true.

(** The operations that call [_connect]. *)
Definition starts_connect (op : Operation) : bool :=
  match op with
  | OpConnect | OpAutoConnect | OpSignIn _ => true
  | _ => false
  end.

(** ** Further sample inputs *)

Definition ua_ios_webview : string :=
  "Mozilla/5.0 (iPhone; CPU iPhone OS 16_0 like Mac OS X) AppleWebKit/605.1.15 (KHTML, like Gecko) Mobile/15E148 WebView".

Definition in_app_page : World := page (browser ua_android_webview) ∅.

Definition phantom_page : World := page (browser ua_iphone_phantom) ∅.

(** [fresh_page] on which [new HyperLinkEmbed(...)] throws. *)
Definition broken_page : World :=
  {| this := this fresh_page; env := env fresh_page;
     localStorage := localStorage fresh_page; heap := heap fresh_page;
     next_ref := next_ref fresh_page; emitted := emitted fresh_page;
     calls := calls fresh_page; query := query fresh_page;
     origin := origin fresh_page; parse_url := parse_url fresh_page;
     embed_ctor_throws := Some (External "container not found");
     removePreviousWindowRef_throws := None |}.

(** [pending_page] reached through a redirect link. *)
Definition redirected_page : World :=
  with_query [("hyperLinkAutoConnect", "true"); ("ref", "newsletter")] pending_page.

Definition default_config : WalletAdapterConfig :=
  {| clientId := "client-1"; title := "Sample dApp"; theme := ThemeSystem;
     installedOnDesktop := None; installedOnIos := None;
     installedOnAndroid := None; hideDraggableWidget := None;
     hideWalletOnboard := None; walletAdapterNetwork := None |}.

(** A page that holds an adapter constructed with the defaults. *)
Definition default_page (e : Detect.Env) : World :=
  with_this (fun _ => initial_adapter default_config e) (page e ∅).

(** An outside world in which every awaited operation fails. *)
Definition offline : Oracle := fun X _ => Failed (External "unavailable").

(** An outside world whose handshake answers with [handshake_B]; it
    answers nothing else. *)
Definition answers_B : Oracle :=
  fun X req =>
    match req in Request T return Settle T with
    | Tick => Fulfilled tt
    | ReqInit _ _ => Fulfilled handshake_B
    | _ => Failed (External "unavailable")
    end.

(** * Proofs *)

Import Detect.

(** ** Account identifiers *)

Lemma PublicKey_ext (a b : PublicKey) : toBase58 a = toBase58 b -> a = b.
Proof.
  destruct a as [s Hs], b as [t Ht]; cbn. intros ->.
  f_equal. apply UIP_dec. apply Bool.bool_dec.
Qed.

Lemma new_PublicKey_Some s k : new_PublicKey s = Some k -> toBase58 k = s.
Proof.
  unfold new_PublicKey. destruct (Bool.bool_dec (is_address s) true); [|discriminate].
  intros [= <-]. reflexivity.
Qed.

Lemma new_PublicKey_toBase58 k : new_PublicKey (toBase58 k) = Some k.
Proof.
  unfold new_PublicKey. destruct (Bool.bool_dec _ true) as [H|H].
  - f_equal. apply PublicKey_ext. reflexivity.
  - destruct H. apply key_valid.
Qed.

(** * Heap *)

Lemma logged_in_alter_off w r r' :
  match alter remove_listener r' (heap w) !! r with
  | Some o => isLoggedIn o
  | None => false
  end = logged_in w r.
Proof.
  unfold logged_in. destruct (decide (r' = r)) as [->|Hne].
  - rewrite lookup_alter_eq. destruct (heap w !! r); reflexivity.
  - rewrite lookup_alter_ne by done. reflexivity.
Qed.

Lemma clearElements_alter_off w r :
  match alter remove_listener r (heap w) !! r with
  | Some o => clearElements_throws o
  | None => None
  end = match heap w !! r with
        | Some o => clearElements_throws o
        | None => None
        end.
Proof. rewrite lookup_alter_eq. destruct (heap w !! r); reflexivity. Qed.

(** * Disconnect *)

Lemma world_ext (w1 w2 : World) :
  this w1 = this w2 -> env w1 = env w2 -> localStorage w1 = localStorage w2 ->
  heap w1 = heap w2 -> next_ref w1 = next_ref w2 -> emitted w1 = emitted w2 ->
  calls w1 = calls w2 -> query w1 = query w2 -> origin w1 = origin w2 ->
  parse_url w1 = parse_url w2 -> embed_ctor_throws w1 = embed_ctor_throws w2 ->
  removePreviousWindowRef_throws w1 = removePreviousWindowRef_throws w2 ->
  w1 = w2.
Proof.
  destruct w1, w2. cbn. intros. subst. reflexivity.
Qed.

Lemma result_eq {A} (w1 w2 : World) (d1 d2 : list Detached) (o1 o2 : Outcome A) :
  w1 = w2 -> d1 = d2 -> o1 = o2 -> (w1, d1, o1) = (w2, d2, o2).
Proof. intros -> -> ->. reflexivity. Qed.

Ltac fields :=
  cbn [this env localStorage heap next_ref emitted calls query origin
       parse_url embed_ctor_throws removePreviousWindowRef_throws
       with_this with_localStorage with_heap with_emitted with_calls with_query].

Ltac assoc w :=
  rewrite <- ?(app_assoc (emitted w)), <- ?(app_assoc (calls w)); cbn [app].

(** Equality of two results whose worlds differ by the grouping of
    appended events and calls. *)
Ltac same_world w :=
  apply result_eq; [apply world_ext; fields; assoc w; try reflexivity
                   | try reflexivity | try reflexivity].

Lemma disconnect_no_channel w :
  _wallet (this w) = None ->
  exec disconnect w
  = (with_emitted (emitted w ++ [EvDisconnect])
       (with_this (fun a => set_disconnected true (set_connecting false a)) w),
     [], Done (Fulfilled tt)).
Proof. intros H. unfold disconnect. cbn. rewrite H. reflexivity. Qed.

Lemma disconnect_forced w r :
  _wallet (this w) = Some r ->
  logged_in w r = false ->
  exec disconnect w
  = (with_emitted (emitted w ++ teardown_errors w r ++ [EvDisconnect])
       (with_calls (calls w ++ teardown_calls w r)
          (with_heap (alter remove_listener r (heap w)) (next_ref w)
             (with_this release w))),
     [], Done (Fulfilled tt)).
Proof.
  intros H L. unfold disconnect, release, teardown_errors, teardown_calls. cbn. rewrite H. cbn.
  unfold logged_in at 1. cbn. rewrite logged_in_alter_off, L. cbn.
  rewrite lookup_alter_eq.
  destruct (heap w !! r) as [o|]; cbn.
  - destruct (clearElements_throws o); cbn.
    + same_world w. rewrite H. reflexivity.
    + destruct (removePreviousWindowRef_throws w); same_world w;
        rewrite H; reflexivity.
  - destruct (removePreviousWindowRef_throws w); same_world w;
      rewrite H; reflexivity.
Qed.

Lemma disconnect_suspends w r :
  _wallet (this w) = Some r ->
  logged_in w r = true ->
  exec disconnect w
  = (with_calls (calls w ++ [COff r; CCleanUp r])
       (with_heap (alter remove_listener r (heap w)) (next_ref w)
          (with_this release w)),
     [], Blocked (ReqCleanUp r) disconnect_resume).
Proof.
  intros H L. unfold disconnect, release. cbn. rewrite H. cbn.
  unfold logged_in at 1. cbn. rewrite logged_in_alter_off, L. cbn.
  same_world w. rewrite H. reflexivity.
Qed.

Lemma disconnect_resume_spec ans w :
  exec (disconnect_resume ans) w
  = (with_emitted (emitted w ++ resume_errors ans w ++ [EvDisconnect])
       (with_calls (calls w ++ match ans with
                               | Fulfilled _ => [CRemovePreviousWindowRef]
                               | Failed _ => []
                               end) w),
     [], Done (Fulfilled tt)).
Proof.
  unfold disconnect_resume, resume_errors. destruct ans as [[]|e]; cbn.
  - destruct (removePreviousWindowRef_throws w); same_world w.
  - same_world w. rewrite app_nil_r. reflexivity.
Qed.

(** What one turn of [disconnect] does to the rest of the world. *)
Lemma disconnect_turn w :
  exists w1 o,
    exec disconnect w = (w1, [], o)
    /\ this w1 = release (this w)
    /\ localStorage w1 = localStorage w
    /\ query w1 = query w
    /\ env w1 = env w
    /\ (exists l, emitted w1 = emitted w ++ l /\ no_connect_event l = true)
    /\ match o with
       | Done r => r = Fulfilled tt
       | Blocked req _ => emitted w1 = emitted w
       end.
Proof.
  destruct (_wallet (this w)) as [r|] eqn:H.
  - destruct (logged_in w r) eqn:L.
    + rewrite (disconnect_suspends w r H L). eexists _, _. split; [reflexivity|].
      cbn. repeat split; try reflexivity.
      exists []. rewrite app_nil_r. split; reflexivity.
    + rewrite (disconnect_forced w r H L). eexists _, _. split; [reflexivity|].
      cbn. repeat split; try reflexivity.
      eexists. split; [reflexivity|].
      unfold teardown_errors.
      destruct (heap w !! r) as [o|]; [destruct (clearElements_throws o)|];
        try destruct (removePreviousWindowRef_throws w); reflexivity.
  - rewrite (disconnect_no_channel w H). eexists _, _. split; [reflexivity|].
    cbn. unfold release. rewrite H. repeat split; try reflexivity.
    eexists. split; reflexivity.
Qed.

(** * Connect *)

Lemma connect_suspends a w :
  starts_handshake w = true ->
  exec (_connect a) w
  = (handshake_started a w, [],
     Blocked (ReqInit (next_ref w) (init_options a w))
       (_connect_resume (next_ref w) (localStorage w !! storage_key))).
Proof.
  unfold starts_handshake. intros H.
  apply andb_true_iff in H as [H Hc]. apply andb_true_iff in H as [H Hr].
  apply andb_true_iff in H as [Hi Hb].
  apply negb_true_iff in Hi, Hb.
  unfold _connect. cbn. rewrite Hi. cbn. rewrite Hb. cbn.
  assert (Hrs : readyState (with_this (set_disconnected false) w) = readyState w) by reflexivity.
  rewrite Hrs.
  destruct (readyState w); try discriminate; cbn;
    destruct (embed_ctor_throws w); try discriminate; cbn;
    unfold handshake_started, init_options; same_world w.
Qed.

Lemma connect_resume_discarded r prev res key w :
  new_PublicKey (pk res) = Some key ->
  _disconnected (this w) = true ->
  exec (_connect_resume r prev (Fulfilled res)) w
  = (with_this (set_connecting false) w, [], Done (Fulfilled None)).
Proof.
  intros Hk Hd. unfold _connect_resume, construct_PublicKey, _connect_accept.
  cbn. rewrite Hk. cbn. rewrite Hd. cbn. reflexivity.
Qed.

Lemma connect_resume_switched r prev res key w :
  new_PublicKey (pk res) = Some key ->
  _disconnected (this w) = false ->
  switched_account prev key = true ->
  exec (_connect_resume r prev (Fulfilled res)) w
  = (let '(w1, d, o) := exec disconnect w in
     (with_this (set_connecting false) w1, d ++ park o, Done (Fulfilled None))).
Proof.
  intros Hk Hd Hs. unfold _connect_resume, construct_PublicKey, _connect_accept.
  cbn -[disconnect]. rewrite Hk. cbn -[disconnect]. rewrite Hd.
  cbn -[disconnect]. rewrite Hs. cbn -[disconnect].
  destruct (exec disconnect w) as [[w1 d] o]. cbn.
  rewrite ?app_nil_r. reflexivity.
Qed.

Lemma strip_param_this key w : this (strip_param key w) = this w.
Proof. unfold strip_param. destruct (existsb _ _); reflexivity. Qed.

Lemma connect_resume_accepted r prev res key w :
  new_PublicKey (pk res) = Some key ->
  _disconnected (this w) = false ->
  switched_account prev key = false ->
  exec (_connect_resume r prev (Fulfilled res)) w
  = (accepted r key w, [],
     Done (Fulfilled (Some {| siwsOutput := init_siwsOutput res |}))).
Proof.
  intros Hk Hd Hs. unfold _connect_resume, construct_PublicKey, _connect_accept.
  cbn. rewrite Hk. cbn. rewrite Hd. cbn. rewrite Hs. cbn.
  unfold accepted, strip_redirect_params, strip_param, removeQueryParam.
  cbn.
  repeat (destruct (existsb _ _); cbn); reflexivity.
Qed.

(** * Claims *)

Lemma connect_busy a w :
  Detect.isInApp (env w) = false ->
  connected w || _connecting (this w) = true ->
  exec (_connect a) w = (w, [], Done (Fulfilled None)).
Proof.
  intros Hi Hb. unfold _connect. cbn. rewrite Hi. cbn. rewrite Hb. reflexivity.
Qed.

Lemma entry_busy c w :
  Detect.isInApp (env w) = false ->
  connected w || _connecting (this w) = true ->
  exists o, exec (entry c) w = (w, [], o) /\ resolves_as_noop o.
Proof.
  intros Hi Hb. destruct c; unfold entry, connect, autoConnect_, _connect; cbn;
    rewrite Hi; cbn; rewrite Hb; cbn;
    (eexists; split; [reflexivity|]; split; [reflexivity|]; intros; reflexivity).
Qed.

(** C3.  Outside an in-app browser, while the adapter is connected or its
    [connecting] flag is set, any sequence of [connect()] and
    [autoConnect()] calls leaves the world exactly as it was: no second
    channel is created, no [init] is started, no field changes, and every
    call only waits for its own settled promise and then resolves. *)
Theorem connect_reentrancy_guard (w : World) (cs : list EntryPoint) :
  Detect.isInApp (env w) = false ->
  connected w || _connecting (this w) = true ->
  exists os,
    issue cs w = (w, [], os)
    /\ length os = length cs
    /\ Forall resolves_as_noop os.
Proof.
  intros Hi Hb. induction cs as [|c cs IH].
  - exists []. cbn. repeat split. constructor.
  - destruct IH as (os & Hos & Hlen & Hall).
    destruct (entry_busy c w Hi Hb) as (o & Ho & Hn).
    exists (o :: os). cbn. rewrite Ho, Hos. cbn.
    repeat split; [congruence | constructor; assumption].
Qed.

Lemma release_facts a :
  _connecting (release a) = false
  /\ _disconnected (release a) = true
  /\ _wallet (release a) = None
  /\ (_wallet a <> None \/ _publicKey a = None -> _publicKey (release a) = None).
Proof.
  unfold release. destruct (_wallet a) eqn:E; cbn; repeat split; try assumption.
  intros [H|H]; [congruence|assumption].
Qed.



Lemma flags_already_set a :
  _connecting a = false -> _disconnected a = true ->
  set_disconnected true (set_connecting false a) = a.
Proof. destruct a; cbn; intros -> ->; reflexivity. Qed.

Lemma disconnect_again w :
  _wallet (this w) = None ->
  _connecting (this w) = false ->
  _disconnected (this w) = true ->
  exec disconnect w
  = (with_emitted (emitted w ++ [EvDisconnect]) w, [], Done (Fulfilled tt)).
Proof.
  intros Hw Hc Hd. rewrite (disconnect_no_channel w Hw).
  apply result_eq; try reflexivity. apply world_ext; fields; try reflexivity.
  apply flags_already_set; assumption.
Qed.

(** C5.  Every [disconnect()] forces the state first ([_connecting]
    cleared, [_disconnected] set, channel and, if there was a channel,
    public key released) and spawns nothing.  If it finishes in its first
    turn it resolves, having appended at most one disconnection [error]
    and then [disconnect]; none without a channel, and exactly the wrapped
    error when [clearElements] throws.  If it suspends (on [cleanUp]) no
    event has been emitted yet, and resuming it with any answer in any world
    resolves, leaves the adapter's fields alone and appends the error of a
    failed teardown followed by [disconnect].  A second call right after
    the first only appends another [disconnect]. *)
Theorem disconnect_always_emits (w : World) :
  let '(w1, d, o) := exec disconnect w in
  d = []
  /\ _connecting (this w1) = false
  /\ _disconnected (this w1) = true
  /\ _wallet (this w1) = None
  /\ (_wallet (this w) <> None -> _publicKey (this w1) = None)
  /\ match o with
     | Done r =>
         r = Fulfilled tt
         /\ exists errs,
              emitted w1 = emitted w ++ errs ++ [EvDisconnect]
              /\ forallb is_disconnection_error errs = true
              /\ (_wallet (this w) = None -> errs = [])
              /\ (forall r ob e,
                    _wallet (this w) = Some r -> heap w !! r = Some ob ->
                    clearElements_throws ob = Some e ->
                    errs = [EvError (WalletDisconnectionError e)])
     | Blocked req k =>
         emitted w1 = emitted w
         /\ forall ans w2,
              let '(w3, d3, o3) := exec (k ans) w2 in
              d3 = [] /\ o3 = Done (Fulfilled tt) /\ this w3 = this w2
              /\ exists errs,
                   emitted w3 = emitted w2 ++ errs ++ [EvDisconnect]
                   /\ forallb is_disconnection_error errs = true
                   /\ (forall e, ans = Failed e ->
                         errs = [EvError (WalletDisconnectionError e)])
     end
  /\ exec disconnect w1
     = (with_emitted (emitted w1 ++ [EvDisconnect]) w1, [], Done (Fulfilled tt)).
Proof.
  destruct (_wallet (this w)) as [r|] eqn:H.
  - destruct (release_facts (this w)) as (F1 & F2 & F3 & F4).
    assert (F5 : _publicKey (release (this w)) = None)
      by (apply F4; left; congruence).
    destruct (logged_in w r) eqn:L.
    + rewrite (disconnect_suspends w r H L).
      split_and!; try (apply disconnect_again; fields; assumption); fields; auto.
      intros ans w2. rewrite disconnect_resume_spec.
      split_and!; try reflexivity.
      exists (resume_errors ans w2). fields. split_and!; try reflexivity.
      * unfold resume_errors.
        destruct ans; [destruct (removePreviousWindowRef_throws w2)|]; reflexivity.
      * intros e ->. reflexivity.
    + rewrite (disconnect_forced w r H L).
      split_and!; try (apply disconnect_again; fields; assumption); fields; auto.
      exists (teardown_errors w r). split_and!; try reflexivity.
      * unfold teardown_errors.
        destruct (heap w !! r) as [ob|]; [destruct (clearElements_throws ob)|];
          try destruct (removePreviousWindowRef_throws w); reflexivity.
      * discriminate.
      * intros r' ob e [= <-] Hob He. unfold teardown_errors.
        rewrite Hob, He. reflexivity.
  - rewrite (disconnect_no_channel w H).
    split_and!; try (apply disconnect_again; fields; auto); fields; auto.
    + congruence.
    + exists []. split_and!; try reflexivity. intros r ob e Hr. congruence.
Qed.

Lemma not_connected_no_wallet w : _wallet (this w) = None -> connected w = false.
Proof. unfold connected. intros ->. reflexivity. Qed.

(** C6.  Without a channel, or with [connected] false, each of
    [signTransaction], [signAllTransactions], [signMessage] and
    [sendTransaction] rejects with [WalletNotConnectedError] after emitting
    it as an [error] event, and makes no call on the channel. *)
Theorem signing_requires_connection
    (w : World) (t : Transaction) (ts : list Transaction) (m : Bytes) :
  _wallet (this w) = None \/ connected w = false ->
  let e := WalletNotConnectedError None in
  let w' := with_emitted (emitted w ++ [EvError e]) w in
  calls w' = calls w
  /\ exec (signTransaction t) w = (w', [], Done (Failed e))
  /\ exec (signAllTransactions ts) w = (w', [], Done (Failed e))
  /\ exec (signMessage m) w = (w', [], Done (Failed e))
  /\ exec (sendTransaction t) w = (w', [], Done (Failed e)).
Proof.
  intros H. assert (Hc : connected w = false).
  { destruct H; [apply not_connected_no_wallet|]; assumption. }
  cbn zeta. split; [reflexivity|].
  unfold signTransaction, signAllTransactions, signMessage, sendTransaction, live_wallet.
  cbn. rewrite Hc. destruct (_wallet (this w)); cbn; repeat split; reflexivity.
Qed.

(** C7.  While the adapter holds a public key, an [accountChanged]
    notification whose text is not a valid public key emits exactly one
    [error] event, a [WalletPublicKeyError], and changes nothing else. *)
Theorem malformed_account_change_discarded
    (w : World) (newPublicKeyString : string) (current : PublicKey) :
  _publicKey (this w) = Some current ->
  new_PublicKey newPublicKeyString = None ->
  exec (_accountChanged newPublicKeyString) w
  = (with_emitted
       (emitted w ++ [EvError (WalletPublicKeyError invalid_public_key)]) w,
     [], Done (Fulfilled tt)).
Proof.
  intros Hk Hs. unfold _accountChanged. cbn. rewrite Hk.
  destruct (String.eqb_spec (toBase58 current) newPublicKeyString) as [E|E].
  - rewrite <- E, new_PublicKey_toBase58 in Hs. discriminate.
  - unfold construct_PublicKey. rewrite Hs. cbn. reflexivity.
Qed.

(** C10.  For an [accountChanged] notification carrying a valid address:
    without a current public key, or when the address is the current key's
    base58 text, nothing happens; otherwise [_publicKey] becomes the new key
    and one [connect] event carrying it is emitted, storage and everything
    else staying as they were. *)
Theorem account_change_switches_key
    (w : World) (newPublicKeyString : string) (newPublicKey : PublicKey) :
  new_PublicKey newPublicKeyString = Some newPublicKey ->
  exec (_accountChanged newPublicKeyString) w
  = match _publicKey (this w) with
    | None => (w, [], Done (Fulfilled tt))
    | Some current =>
        if String.eqb (toBase58 current) newPublicKeyString
        then (w, [], Done (Fulfilled tt))
        else (with_emitted (emitted w ++ [EvConnect newPublicKey])
                (with_this (set_publicKey (Some newPublicKey)) w),
              [], Done (Fulfilled tt))
    end.
Proof.
  intros Hs. unfold _accountChanged. cbn.
  destruct (_publicKey (this w)) as [current|]; [|reflexivity].
  destruct (String.eqb (toBase58 current) newPublicKeyString); [reflexivity|].
  unfold construct_PublicKey. rewrite Hs. cbn. reflexivity.
Qed.

(** * Allowlist guard *)

Lemma ok_200 response : (status response =? 200)%Z = true -> ok response = true.
Proof. unfold ok. intros H. apply Z.eqb_eq in H. rewrite H. reflexivity. Qed.

(** C1, as amended.  When the URL parses, [checkIfAllowListed] issues one
    [fetch] and suspends.  A response whose JSON body yields [ancestor]
    ends the check: with status 200 and a truthy [ancestor] it resolves
    without the callback, otherwise it behaves exactly as one run of the
    callback and then resolves.  A failed [fetch], a failed [json()] or a
    [null] body rejects the check without running the callback. *)
Theorem allowlist_check_outcomes
    (buildEnv : BuildEnv) (clientId url : string) (failCallback : Prog unit)
    (w : World) (u : URL) :
  parse_url w url = Some u ->
  let configUrl := {| q_clientId := clientId; q_referrerUrl := sanitized u |} in
  exists k1,
    exec (checkIfAllowListed buildEnv clientId url failCallback) w
    = (with_calls (calls w ++ [CFetch configUrl]) w, [], Blocked (ReqFetch configUrl) k1)
    /\ (forall e w1, exec (k1 (Failed e)) w1 = (w1, [], Done (Failed e)))
    /\ forall response w1,
         exists k2,
           exec (k1 (Fulfilled response)) w1 = (w1, [], Blocked (ReqJson response) k2)
           /\ (forall e w2, exec (k2 (Failed e)) w2 = (w2, [], Done (Failed e)))
           /\ (forall w2, exists e,
                 exec (k2 (Fulfilled BodyNull)) w2 = (w2, [], Done (Failed e)))
           /\ (forall ancestor w2,
                 exec (k2 (Fulfilled (BodyWith ancestor))) w2
                 = if allowed response ancestor
                   then (w2, [], Done (Fulfilled tt))
                   else exec (failCallback ;; Ret tt) w2).
Proof.
  intros Hu configUrl. unfold checkIfAllowListed, sanitizeUrlForAllowList.
  cbn. rewrite Hu. cbn. eexists. split; [reflexivity|].
  split; [intros; reflexivity|].
  intros response w1. cbn. eexists. split; [reflexivity|].
  split; [intros; reflexivity|].
  split; [intros; eexists; reflexivity|].
  intros ancestor w2. cbn. unfold allowed.
  destruct (status response =? 200)%Z eqn:E.
  - rewrite (ok_200 _ E). cbn. destruct (js_truthy ancestor); reflexivity.
  - rewrite andb_false_r. reflexivity.
Qed.

(** * Sign-in *)

Lemma starts_handshake_not_connected w :
  starts_handshake w = true -> connected w = false.
Proof.
  unfold starts_handshake. intros H.
  apply andb_true_iff in H as [H _]. apply andb_true_iff in H as [H _].
  apply andb_true_iff in H as [_ H]. apply negb_true_iff, orb_false_iff in H.
  apply H.
Qed.

Lemma exec_bind {A B} (p : Prog A) (f : A -> Prog B) w :
  exec (bind p f) w =
  match exec p w with
  | (w1, d1, Done (Fulfilled a)) =>
      let '(w2, d2, o) := exec (f a) w1 in (w2, d1 ++ d2, o)
  | (w1, d1, Done (Failed e)) => (w1, d1, Done (Failed e))
  | (w1, d1, Blocked req k) => (w1, d1, Blocked req (fun r => bind (k r) f))
  end.
Proof.
  revert B f w.
  induction p as [A a|A e|A k IH|A w' k IH|A X req k IH|A q IHq k IH];
    intros B f w; cbn.
  - destruct (exec (f a) w) as [[w2 d2] o]. reflexivity.
  - reflexivity.
  - apply IH.
  - apply IH.
  - reflexivity.
  - destruct (exec q w) as [[w1 d1] o1]. rewrite IH.
    destruct (exec k w1) as [[w2 d2] [[a|e]|X req k']]; cbn.
    + destruct (exec (f a) w2) as [[w3 d3] o3]. rewrite <- !app_assoc. reflexivity.
    + reflexivity.
    + reflexivity.
Qed.

Lemma exec_try_catch {A} (p : Prog A) (h : JsError -> Prog A) w :
  exec (try_catch p h) w =
  match exec p w with
  | (w1, d1, Done (Fulfilled a)) => (w1, d1, Done (Fulfilled a))
  | (w1, d1, Done (Failed e)) =>
      let '(w2, d2, o) := exec (h e) w1 in (w2, d1 ++ d2, o)
  | (w1, d1, Blocked req k) => (w1, d1, Blocked req (fun r => try_catch (k r) h))
  end.
Proof.
  revert h w.
  induction p as [A a|A e|A k IH|A w' k IH|A X req k IH|A q IHq k IH];
    intros h w; cbn.
  - reflexivity.
  - destruct (exec (h e) w) as [[w2 d2] o]. reflexivity.
  - apply IH.
  - apply IH.
  - reflexivity.
  - destruct (exec q w) as [[w1 d1] o1]. rewrite IH.
    destruct (exec k w1) as [[w2 d2] [[a|e]|X req k']]; cbn.
    + reflexivity.
    + destruct (exec (h e) w2) as [[w3 d3] o3]. rewrite <- !app_assoc. reflexivity.
    + reflexivity.
Qed.

Lemma exec_await_call {A} (p : Prog A) w :
  exec (await_call p) w =
  match exec p w with
  | (w1, d1, Done r) => (w1, d1, Blocked Tick (fun _ => settle r))
  | (w1, d1, Blocked req k) => (w1, d1, Blocked req (fun r => await_call (k r)))
  end.
Proof.
  revert w.
  induction p as [A a|A e|A k IH|A w' k IH|A X req k IH|A q IHq k IH];
    intros w; cbn.
  - reflexivity.
  - reflexivity.
  - apply IH.
  - apply IH.
  - reflexivity.
  - destruct (exec q w) as [[w1 d1] o1]. rewrite IH.
    destruct (exec k w1) as [[w2 d2] [r|X req k']]; reflexivity.
Qed.

Lemma signIn_suspends input w :
  starts_handshake w = true ->
  let a := {| forceNoDirectConnect := false; siwsInput := input;
              autoConnect := false |} in
  exec (signIn input) w
  = (handshake_started a w, [],
     Blocked (ReqInit (next_ref w) (init_options a w))
       (signIn_resume input (next_ref w) (localStorage w !! storage_key))).
Proof.
  intros Hs a. pose proof (starts_handshake_not_connected w Hs) as Hc.
  unfold signIn, signIn_resume, signIn_via_connect.
  rewrite exec_try_catch. cbn [gets bind exec]. rewrite Hc.
  rewrite exec_bind, exec_bind, exec_await_call.
  subst a. rewrite (connect_suspends _ w Hs). reflexivity.
Qed.

Lemma signIn_resume_accepted input0 r prev res key w :
  new_PublicKey (pk res) = Some key ->
  _disconnected (this w) = false ->
  switched_account prev key = false ->
  exists k,
    exec (signIn_resume (Some input0) r prev (Fulfilled res)) w
    = (accepted r key w, [], Blocked Tick k)
    /\ forall ans w',
         exec (k ans) w'
         = match init_siwsOutput res with
           | Some proof => (w', [], Done (Fulfilled proof))
           | None =>
               (with_emitted (emitted w' ++ [EvError no_proof]) w', [],
                Done (Failed no_proof))
           end.
Proof.
  intros Hk Hd Hs. unfold signIn_resume, signIn_via_connect.
  rewrite exec_try_catch, exec_bind, exec_bind, exec_await_call.
  rewrite (connect_resume_accepted r prev res key w Hk Hd Hs).
  eexists. split; [reflexivity|].
  intros ans w'. cbn. destruct (init_siwsOutput res); reflexivity.
Qed.

Lemma signIn_connected input w r key :
  _wallet (this w) = Some r ->
  connected w = true ->
  _publicKey (this w) = Some key ->
  exists k,
    exec (signIn input) w
    = (with_calls (calls w ++ [CSignIn r (signIn_argument input)]) w, [],
       Blocked (ReqSignIn r (signIn_argument input)) k)
    /\ (forall proof w', exec (k (Fulfilled proof)) w' = (w', [], Done (Fulfilled proof)))
    /\ (forall e w',
          exec (k (Failed e)) w'
          = (with_emitted (emitted w' ++ [EvError (WalletSignInError e)]) w', [],
             Done (Failed (WalletSignInError e)))).
Proof.
  intros Hw Hc Hk. unfold signIn, signIn_direct, live_wallet.
  cbn. rewrite Hc. cbn. rewrite Hw, Hc. cbn. rewrite Hk. cbn.
  eexists. split; [reflexivity|]. split; intros; reflexivity.
Qed.

Lemma signIn_connect_in_flight w input :
  isInApp (env w) = false ->
  connected w = false ->
  _connecting (this w) = true ->
  exists k,
    exec (signIn (Some input)) w = (w, [], Blocked Tick k)
    /\ forall ans w',
         exec (k ans) w'
         = (with_emitted (emitted w' ++ [EvError no_proof]) w', [],
            Done (Failed no_proof)).
Proof.
  intros Hi Hc Hg. unfold signIn, signIn_via_connect, _connect.
  cbn. rewrite Hc. cbn. rewrite Hi. cbn. rewrite Hc, Hg. cbn.
  eexists. split; [reflexivity|]. intros. reflexivity.
Qed.

Lemma signIn_resume_discarded input0 r prev res key w :
  new_PublicKey (pk res) = Some key ->
  _disconnected (this w) = true ->
  exists k,
    exec (signIn_resume (Some input0) r prev (Fulfilled res)) w
    = (with_this (set_connecting false) w, [], Blocked Tick k)
    /\ forall ans w',
         exec (k ans) w'
         = (with_emitted (emitted w' ++ [EvError no_proof]) w', [],
            Done (Failed no_proof)).
Proof.
  intros Hk Hd. unfold signIn_resume, signIn_via_connect.
  rewrite exec_try_catch, exec_bind, exec_bind, exec_await_call.
  rewrite (connect_resume_discarded r prev res key w Hk Hd).
  eexists. split; [reflexivity|]. intros ans w'. reflexivity.
Qed.

Lemma signIn_resume_switched input0 r prev res key w :
  new_PublicKey (pk res) = Some key ->
  _disconnected (this w) = false ->
  switched_account prev key = true ->
  exists k,
    exec (signIn_resume (Some input0) r prev (Fulfilled res)) w
    = (with_this (set_connecting false) (fst (fst (exec disconnect w))),
       park (snd (exec disconnect w)), Blocked Tick k)
    /\ forall ans w',
         exec (k ans) w'
         = (with_emitted (emitted w' ++ [EvError no_proof]) w', [],
            Done (Failed no_proof)).
Proof.
  intros Hk Hd Hs. unfold signIn_resume, signIn_via_connect.
  rewrite exec_try_catch, exec_bind, exec_bind, exec_await_call.
  rewrite (connect_resume_switched r prev res key w Hk Hd Hs).
  destruct (disconnect_turn w) as (w1 & o & E & _). rewrite E.
  eexists. split; [reflexivity|]. intros ans w'. reflexivity.
Qed.

Lemma signIn_without_key input w r :
  _wallet (this w) = Some r ->
  connected w = true ->
  _publicKey (this w) = None ->
  let e := WalletNotConnectedError (Some "no public key found") in
  exec (signIn input) w
  = (with_emitted (emitted w ++ [EvError e]) w, [], Done (Failed e)).
Proof.
  intros Hw Hc Hk. unfold signIn, signIn_direct, live_wallet.
  cbn. rewrite Hc. cbn. rewrite Hw, Hc. cbn. rewrite Hk. reflexivity.
Qed.

(** C8.  Not connected, with a payload: [signIn] runs [_connect] with the
    payload as [siwsInput] of [wallet.init].  When the handshake resolves
    with an account and that account is accepted, [signIn] waits for
    [_connect]'s promise and resolves with the proof the handshake
    returned, or rejects with [No Solana Sign In Output] (emitting it) when
    there was none; the channel's [signIn] is not called.  When [_connect]
    returns without output, [signIn] rejects with that same error whatever
    the handshake produced: the account is a switch from the persisted one
    (the adapter disconnects), the adapter was disconnected meanwhile (the
    result is discarded), or a connect is already in flight (no handshake
    is started at all).  Connected, with a public key: [signIn] calls the
    channel's [signIn] and resolves with its proof, starting no handshake.
    Connected without a public key: it rejects with
    [WalletNotConnectedError], emitted once, and calls nothing. *)
Theorem signIn_paths :
  (forall (w w' : World) (input : CustomSolanaSignInInput) (res : InitResult)
          (key : PublicKey),
      starts_handshake w = true ->
      new_PublicKey (pk res) = Some key ->
      let a := {| forceNoDirectConnect := false; siwsInput := Some input;
                  autoConnect := false |} in
      let r := next_ref w in
      let previous := localStorage w !! storage_key in
      let rejects_without_proof (k : Settle unit -> Prog SolanaSignInOutput) :=
        forall ans w'',
          exec (k ans) w''
          = (with_emitted (emitted w'' ++ [EvError no_proof]) w'', [],
             Done (Failed no_proof)) in
      connected w = false
      /\ exec (signIn (Some input)) w
         = (handshake_started a w, [],
            Blocked (ReqInit r (init_options a w))
              (signIn_resume (Some input) r previous))
      /\ opt_siwsInput (init_options a w) = Some input
      /\ (_disconnected (this w') = false ->
          switched_account previous key = false ->
          exists k,
            exec (signIn_resume (Some input) r previous (Fulfilled res)) w'
            = (accepted r key w', [], Blocked Tick k)
            /\ forall ans w'',
                 exec (k ans) w''
                 = match init_siwsOutput res with
                   | Some proof => (w'', [], Done (Fulfilled proof))
                   | None =>
                       (with_emitted (emitted w'' ++ [EvError no_proof]) w'', [],
                        Done (Failed no_proof))
                   end)
      /\ (_disconnected (this w') = false ->
          switched_account previous key = true ->
          exists k,
            exec (signIn_resume (Some input) r previous (Fulfilled res)) w'
            = (with_this (set_connecting false) (fst (fst (exec disconnect w'))),
               park (snd (exec disconnect w')), Blocked Tick k)
            /\ rejects_without_proof k)
      /\ (_disconnected (this w') = true ->
          exists k,
            exec (signIn_resume (Some input) r previous (Fulfilled res)) w'
            = (with_this (set_connecting false) w', [], Blocked Tick k)
            /\ rejects_without_proof k))
  /\ (forall (w : World) (input : CustomSolanaSignInInput),
        isInApp (env w) = false ->
        connected w = false ->
        _connecting (this w) = true ->
        exists k,
          exec (signIn (Some input)) w = (w, [], Blocked Tick k)
          /\ forall ans w',
               exec (k ans) w'
               = (with_emitted (emitted w' ++ [EvError no_proof]) w', [],
                  Done (Failed no_proof)))
  /\ (forall (w : World) (input : option CustomSolanaSignInInput) (r : nat)
             (key : PublicKey),
        _wallet (this w) = Some r ->
        connected w = true ->
        _publicKey (this w) = Some key ->
        exists k,
          exec (signIn input) w
          = (with_calls (calls w ++ [CSignIn r (signIn_argument input)]) w, [],
             Blocked (ReqSignIn r (signIn_argument input)) k)
          /\ forall proof w',
               exec (k (Fulfilled proof)) w' = (w', [], Done (Fulfilled proof)))
  /\ (forall (w : World) (input : option CustomSolanaSignInInput) (r : nat),
        _wallet (this w) = Some r ->
        connected w = true ->
        _publicKey (this w) = None ->
        let e := WalletNotConnectedError (Some "no public key found") in
        exec (signIn input) w
        = (with_emitted (emitted w ++ [EvError e]) w, [], Done (Failed e))).
Proof.
  split_and!.
  - intros w w' input res key Hs Hk a r previous rejects. split_and!.
    + apply starts_handshake_not_connected, Hs.
    + apply (signIn_suspends (Some input) w Hs).
    + reflexivity.
    + intros Hd Hsw. apply signIn_resume_accepted; assumption.
    + intros Hd Hsw. apply (signIn_resume_switched input r previous res key w' Hk Hd Hsw).
    + intros Hd. apply (signIn_resume_discarded input r previous res key w' Hk Hd).
  - intros w input. apply signIn_connect_in_flight.
  - intros w input r key Hw Hc Hk.
    destruct (signIn_connected input w r key Hw Hc Hk) as (k & E & Hok & _).
    exists k. split; assumption.
  - intros w input r. apply signIn_without_key.
Qed.

(** * Ready state *)

Lemma getUserAgent_coherent e m :
  coherent e m ->
  fst (getUserAgent e m) = userAgent e /\ coherent e (snd (getUserAgent e m)).
Proof.
  intros H. pose proof H as (Hu & Hi & Hp). unfold getUserAgent.
  destruct (_userAgent m) as [ua|] eqn:E; cbn.
  - split; [apply Hu; reflexivity|assumption].
  - split; [reflexivity|]. unfold coherent. split_and!; cbn; try assumption.
    intros ua [= <-]. reflexivity.
Qed.

Lemma isWebView_memo_coherent e m :
  coherent e m ->
  fst (isWebView_memo e m) = isWebView e /\ coherent e (snd (isWebView_memo e m)).
Proof.
  intros H. unfold isWebView_memo.
  destruct (getUserAgent_coherent e m H) as [E C].
  destruct (getUserAgent e m) as [ua m1]. cbn in *. subst ua.
  split; [reflexivity|assumption].
Qed.

Lemma isMobileAndroid_memo_coherent e m :
  coherent e m ->
  fst (isMobileAndroid_memo e m) = isMobileAndroid e
  /\ coherent e (snd (isMobileAndroid_memo e m)).
Proof.
  intros H. unfold isMobileAndroid_memo, isMobileAndroid, isMobileAndroid_of.
  destruct (getUserAgent_coherent e m H) as [E C].
  destruct (getUserAgent e m) as [ua m1]. cbn in E, C. subst ua.
  destruct (userAgent e) as [s|] eqn:Eu; [|split; [reflexivity|assumption]].
  destruct (truthy s && JsRegex.test true (JsRegex.Lit "android") s) eqn:T; cbn.
  - destruct (isWebView_memo_coherent e m1 C) as [E2 C2].
    destruct (isWebView_memo e m1) as [wv m2]. cbn in E2, C2. subst wv.
    unfold isWebView. rewrite Eu. split; [reflexivity|assumption].
  - split; [reflexivity|assumption].
Qed.

Lemma isMobileiOS_memo_coherent e m :
  coherent e m ->
  fst (isMobileiOS_memo e m) = isMobileiOS e
  /\ coherent e (snd (isMobileiOS_memo e m)).
Proof.
  intros H. unfold isMobileiOS_memo, isMobileiOS, isMobileiOS_of.
  destruct (getUserAgent_coherent e m H) as [E C].
  destruct (getUserAgent e m) as [ua m1]. cbn in E, C. subst ua.
  destruct (userAgent e) as [s|] eqn:Eu; [|split; [reflexivity|assumption]].
  destruct (truthy s && JsRegex.test false ios_regex s) eqn:T; cbn.
  - destruct (isWebView_memo_coherent e m1 C) as [E2 C2].
    destruct (isWebView_memo e m1) as [wv m2]. cbn in E2, C2. subst wv.
    unfold isWebView. rewrite Eu. split; [reflexivity|assumption].
  - split; [reflexivity|assumption].
Qed.

Lemma isInApp_memo_coherent e m :
  coherent e m ->
  fst (isInApp_memo e m) = isInApp e /\ coherent e (snd (isInApp_memo e m)).
Proof.
  intros H. unfold isInApp_memo.
  destruct (_isInApp m) as [b|] eqn:Em; cbn.
  - split; [|assumption]. destruct H as (_ & Hi & _). apply Hi, Em.
  - destruct (getUserAgent_coherent e m H) as [E C].
    destruct (getUserAgent e m) as [ua m1]. cbn in E, C. subst ua.
    unfold isInApp, isInApp_of.
    destruct (userAgent e) as [s|] eqn:Eu; [|split; [reflexivity|assumption]].
    destruct (truthy s) eqn:T; [|split; [reflexivity|assumption]].
    cbn. split; [reflexivity|].
    destruct C as (Hu & Hi & Hp). unfold coherent. split_and!; cbn; try assumption.
    intros b [= <-]. unfold isInApp, isInApp_of. rewrite Eu, T. reflexivity.
Qed.

Lemma isPhantomBrowser_memo_coherent e m :
  coherent e m ->
  fst (isPhantomBrowser_memo e m) = isPhantomBrowser e
  /\ coherent e (snd (isPhantomBrowser_memo e m)).
Proof.
  intros H. unfold isPhantomBrowser_memo.
  destruct (_isPhantomBrowser m) as [b|] eqn:Em; cbn.
  - split; [|assumption]. destruct H as (_ & _ & Hp). apply Hp, Em.
  - destruct (getUserAgent_coherent e m H) as [E C].
    destruct (getUserAgent e m) as [ua m1]. cbn in E, C. subst ua.
    unfold isPhantomBrowser, isPhantomBrowser_of.
    destruct (userAgent e) as [s|] eqn:Eu; [|split; [reflexivity|assumption]].
    destruct (truthy s) eqn:T; [|split; [reflexivity|assumption]].
    assert (exists b m2,
               (if JsRegex.includes s "Phantom" then isInApp_memo e m1 else (false, m1))
               = (b, m2)
               /\ b = (if JsRegex.includes s "Phantom" then isInApp_of (Some s) else false)
               /\ coherent e m2) as (b & m2 & -> & -> & C2).
    { destruct (JsRegex.includes s "Phantom").
      - destruct (isInApp_memo_coherent e m1 C) as [E2 C2].
        destruct (isInApp_memo e m1) as [b m2]. cbn in E2, C2.
        exists b, m2. split_and!; try assumption; try reflexivity.
        rewrite E2. unfold isInApp. rewrite Eu. reflexivity.
      - exists false, m1. split_and!; try assumption; reflexivity. }
    cbn. split; [reflexivity|].
    destruct C2 as (Hu & Hi & Hp). unfold coherent. split_and!; cbn; try assumption.
    intros b [= <-]. unfold isPhantomBrowser, isPhantomBrowser_of, isInApp_of.
    rewrite Eu, !T. reflexivity.
Qed.

Lemma readyState_memo_coherent w m :
  coherent (env w) m ->
  fst (readyState_memo w m) = readyState w
  /\ coherent (env w) (snd (readyState_memo w m)).
Proof.
  intros H. unfold readyState_memo, readyState.
  destruct (isMobileAndroid_memo_coherent _ _ H) as [E1 C1].
  destruct (isMobileAndroid_memo (env w) m) as [b1 m1]. cbn in E1, C1.
  destruct (isMobileiOS_memo_coherent _ _ C1) as [E2 C2].
  destruct (isMobileiOS_memo (env w) m1) as [b2 m2]. cbn in E2, C2.
  destruct (isPhantomBrowser_memo_coherent _ _ C2) as [E3 C3].
  destruct (isPhantomBrowser_memo (env w) m2) as [b3 m3]. cbn in E3, C3.
  subst. split; [reflexivity|assumption].
Qed.

Lemma memo0_coherent e : coherent e memo0.
Proof. unfold coherent. split_and!; intros ? [=]. Qed.

(** C9.  [readyState] is [Unsupported] outside a browser document context;
    in a browser it is [Loadable] in a known in-app wallet browser, and
    otherwise [Installed] or [Loadable] as the installed flag of the
    detected platform says.  It depends on the world only through that
    classification and the three flags, memoised evaluation returns the
    same value and keeps the memo coherent, and an Android Chrome user
    agent with [installedOnAndroid = false] gives [Loadable] whatever the
    iOS flag. *)
Theorem readyState_classification (w : World) :
  (in_browser w = false -> readyState w = Unsupported)
  /\ (in_browser w = true -> isPhantomBrowser (env w) = true ->
      readyState w = Loadable)
  /\ (in_browser w = true -> isPhantomBrowser (env w) = false ->
      readyState w = if platform_flag w then Installed else Loadable)
  /\ (forall w',
        in_browser w' = in_browser w ->
        isPhantomBrowser (env w') = isPhantomBrowser (env w) ->
        isMobileAndroid (env w') = isMobileAndroid (env w) ->
        isMobileiOS (env w') = isMobileiOS (env w) ->
        _installedOnAndroid (this w') = _installedOnAndroid (this w) ->
        _installedOnIos (this w') = _installedOnIos (this w) ->
        _installedOnDesktop (this w') = _installedOnDesktop (this w) ->
        readyState w' = readyState w)
  /\ (forall m,
        coherent (env w) m ->
        fst (readyState_memo w m) = readyState w
        /\ coherent (env w) (snd (readyState_memo w m)))
  /\ (in_browser w = true ->
      userAgent (env w) = Some ua_android_chrome ->
      _installedOnAndroid (this w) = false ->
      readyState w = Loadable).
Proof.
  assert (G : forall v, readyState v
            = if in_browser v
              then if isPhantomBrowser (env v) then Loadable
                   else if platform_flag v then Installed else Loadable
              else Unsupported).
  { intros v. unfold readyState, in_browser, platform_flag, installedToWalletReadyState.
    destruct (has_window (env v)), (has_document (env v)); cbn; try reflexivity.
    destruct (isPhantomBrowser (env v)); [reflexivity|].
    destruct (isMobileAndroid (env v)); [reflexivity|].
    destruct (isMobileiOS (env v)); reflexivity. }
  split_and!.
  - intros H. rewrite G, H. reflexivity.
  - intros H P. rewrite G, H, P. reflexivity.
  - intros H P. rewrite G, H, P. reflexivity.
  - intros w' Hb Hp Ha Hi Fa Fi Fd. rewrite !G. unfold platform_flag.
    rewrite Hb, Hp, Ha, Hi, Fa, Fi, Fd. reflexivity.
  - apply readyState_memo_coherent.
  - intros H Hu Ha. rewrite G, H. unfold platform_flag, isPhantomBrowser, isMobileAndroid.
    rewrite Hu, Ha.
    assert (isPhantomBrowser_of (Some ua_android_chrome) = false) as ->
      by (vm_compute; reflexivity).
    assert (isMobileAndroid_of (Some ua_android_chrome) = true) as ->
      by (vm_compute; reflexivity).
    reflexivity.
Qed.

(** * Instances *)

Lemma connect_reentrancy_guard_witness :
  Detect.isInApp (env pending_page) = false
  /\ connected pending_page || _connecting (this pending_page) = true
  /\ exists os,
       issue [CallConnect; CallAutoConnect; CallConnect] pending_page
       = (pending_page, [], os)
       /\ length os = 3
       /\ Forall resolves_as_noop os.
Proof.
  assert (H1 : Detect.isInApp (env pending_page) = false)
    by (vm_compute; reflexivity).
  assert (H2 : connected pending_page || _connecting (this pending_page) = true)
    by (vm_compute; reflexivity).
  split; [exact H1|]. split; [exact H2|].
  exact (connect_reentrancy_guard pending_page
           [CallConnect; CallAutoConnect; CallConnect] H1 H2).
Defined.


Lemma allowlist_check_outcomes_witness :
  let configUrl := {| q_clientId := "client-1"; q_referrerUrl := "https://dapp.example" |} in
  exists k1,
    exec (checkIfAllowListed PRODUCTION "client-1" sample_origin on_disallowed) fresh_page
    = (with_calls [CFetch configUrl] fresh_page, [], Blocked (ReqFetch configUrl) k1)
    /\ exists k2,
         exec (k1 (Fulfilled {| status := 403 |})) fresh_page
         = (fresh_page, [], Blocked (ReqJson {| status := 403 |}) k2)
         /\ exec (k2 (Fulfilled (BodyWith (JString "https://dapp.example")))) fresh_page
            = exec (on_disallowed ;; Ret tt) fresh_page.
Proof.
  assert (H : parse_url fresh_page sample_origin
              = Some {| protocol := "https:"; hostname := "dapp.example"; port := "" |})
    by reflexivity.
  destruct (allowlist_check_outcomes PRODUCTION "client-1" sample_origin
              on_disallowed fresh_page _ H) as (k1 & E1 & _ & Hk1).
  exists k1. split; [exact E1|].
  destruct (Hk1 {| status := 403 |} fresh_page) as (k2 & E2 & _ & _ & Hk2).
  exists k2. split; [exact E2|].
  exact (Hk2 (JString "https://dapp.example") fresh_page).
Defined.

(** The counterexample to the fail-closed reading: a failed [fetch]. *)
Lemma allowlist_network_failure_skips_callback :
  let configUrl := {| q_clientId := "client-1"; q_referrerUrl := "https://dapp.example" |} in
  let w1 := with_calls [CFetch configUrl] fresh_page in
  exists k1,
    exec (checkIfAllowListed PRODUCTION "client-1" sample_origin on_disallowed) fresh_page
    = (w1, [], Blocked (ReqFetch configUrl) k1)
    /\ exec (k1 (Failed (TypeError "Failed to fetch"))) w1
       = (w1, [], Done (Failed (TypeError "Failed to fetch")))
    /\ _isDisallowed (this w1) = false
    /\ emitted w1 = [].
Proof.
  cbv zeta. eexists. split; [reflexivity|]. split_and!; reflexivity.
Defined.

Lemma signing_requires_connection_witness :
  let e := WalletNotConnectedError None in
  _wallet (this fresh_page) = None
  /\ exec (signMessage [104; 105]%Z) fresh_page
     = (with_emitted [EvError e] fresh_page, [], Done (Failed e))
  /\ exec (sendTransaction (Tx 7)) fresh_page
     = (with_emitted [EvError e] fresh_page, [], Done (Failed e)).
Proof.
  assert (H : _wallet (this fresh_page) = None \/ connected fresh_page = false)
    by (left; reflexivity).
  pose proof (signing_requires_connection fresh_page (Tx 7) [Tx 7] [104; 105]%Z H)
    as (_ & _ & _ & Hm & Hs).
  split_and!; [reflexivity|exact Hm|exact Hs].
Defined.

Lemma malformed_account_change_discarded_witness :
  _publicKey (this (session key_A)) = Some key_A
  /\ new_PublicKey "not-an-address" = None
  /\ exec (_accountChanged "not-an-address") (session key_A)
     = (with_emitted
          [EvConnect key_A; EvError (WalletPublicKeyError invalid_public_key)]
          (session key_A),
        [], Done (Fulfilled tt)).
Proof.
  assert (H1 : _publicKey (this (session key_A)) = Some key_A) by reflexivity.
  assert (H2 : new_PublicKey "not-an-address" = None) by (vm_compute; reflexivity).
  split_and!; [exact H1|exact H2|].
  exact (malformed_account_change_discarded (session key_A) "not-an-address"
           key_A H1 H2).
Defined.

Lemma account_change_switches_key_witness :
  new_PublicKey ADDR_B = Some key_B
  /\ exec (_accountChanged ADDR_B) (session key_A)
     = (with_emitted [EvConnect key_A; EvConnect key_B]
          (with_this (set_publicKey (Some key_B)) (session key_A)),
        [], Done (Fulfilled tt))
  /\ exec (_accountChanged ADDR_A) (session key_A)
     = (session key_A, [], Done (Fulfilled tt)).
Proof.
  assert (H1 : new_PublicKey ADDR_B = Some key_B)
    by (apply (new_PublicKey_toBase58 key_B)).
  assert (H2 : new_PublicKey ADDR_A = Some key_A)
    by (apply (new_PublicKey_toBase58 key_A)).
  split_and!; [exact H1| |].
  - exact (account_change_switches_key (session key_A) ADDR_B key_B H1).
  - exact (account_change_switches_key (session key_A) ADDR_A key_A H2).
Defined.

Lemma readyState_classification_witness :
  in_browser android_page = true
  /\ Detect.isMobileAndroid (env android_page) = true
  /\ _installedOnAndroid (this android_page) = false
  /\ _installedOnIos (this android_page) = true
  /\ readyState android_page = Loadable
  /\ readyState (page server_side ∅) = Unsupported.
Proof.
  assert (H1 : in_browser android_page = true) by reflexivity.
  assert (H2 : Detect.isPhantomBrowser (env android_page) = false)
    by (vm_compute; reflexivity).
  destruct (readyState_classification android_page) as (_ & _ & H & _).
  destruct (readyState_classification (page server_side ∅)) as (U & _).
  split_and!.
  - exact H1.
  - vm_compute. reflexivity.
  - reflexivity.
  - reflexivity.
  - rewrite (H H1 H2). vm_compute. reflexivity.
  - apply U. reflexivity.
Defined.

(** * Further properties *)

Lemma wp_bind {A B} (p : Prog A) (f : A -> Prog B) Q w :
  wp p (fun w' r => match r with
                    | Fulfilled a => wp (f a) Q w'
                    | Failed e => Q w' (Failed e)
                    end) w ->
  wp (bind p f) Q w.
Proof.
  revert B f Q w.
  induction p as [A a|A e|A k IH|A w' k IH|A X req k IH|A q IHq k IH];
    intros B f Q w H; cbn in *; auto.
Qed.

Lemma wp_try_catch {A} (p : Prog A) (h : JsError -> Prog A) Q w :
  wp p (fun w' r => match r with
                    | Fulfilled a => Q w' (Fulfilled a)
                    | Failed e => wp (h e) Q w'
                    end) w ->
  wp (try_catch p h) Q w.
Proof.
  revert h Q w.
  induction p as [A a|A e|A k IH|A w' k IH|A X req k IH|A q IHq k IH];
    intros h Q w H; cbn in *; auto.
Qed.

Lemma wp_finally {A} (p : Prog A) (f : Prog unit) Q w :
  wp p (fun w' r => wp f (fun w'' r' => match r' with
                                      | Fulfilled _ => Q w'' r
                                      | Failed e => Q w'' (Failed e)
                                      end) w') w ->
  wp (finally p f) Q w.
Proof.
  revert f Q w.
  induction p as [A a|A e|A k IH|A w' k IH|A X req k IH|A q IHq k IH];
    intros f Q w H; cbn [finally wp] in *; auto.
  - apply wp_bind. revert H. generalize w. clear.
    induction f as [A0 a0|A0 e|A0 k IH|A0 w' k IH|A0 X req k IH|A0 q IHq k IH]; intros w H; cbn in *; auto.
  - apply wp_bind. revert H. generalize w. clear.
    induction f as [A0 a0|A0 e0|A0 k IH|A0 w' k IH|A0 X req k IH|A0 q IHq k IH]; intros w H; cbn in *; auto.
Qed.

Lemma wp_mono {A} (p : Prog A) (Q Q' : World -> Settle A -> Prop) w :
  (forall w' r, Q w' r -> Q' w' r) -> wp p Q w -> wp p Q' w.
Proof.
  revert Q Q' w.
  induction p as [A a|A e|A k IH|A w' k IH|A X req k IH|A q IHq k IH];
    intros Q Q' w HQ H; cbn in *; eauto.
Qed.

Lemma wp_anything {A} (p : Prog A) w : wp p (fun _ _ => True) w.
Proof.
  revert w.
  induction p as [A a|A e|A k IH|A w' k IH|A X req k IH|A q IHq k IH];
    intros w; cbn; auto.
Qed.

Lemma disconnect_calls w :
  exists cs,
    calls (fst (fst (exec disconnect w))) = calls w ++ cs
    /\ filter is_channel_start cs = [].
Proof.
  destruct (_wallet (this w)) as [r|] eqn:H.
  - destruct (logged_in w r) eqn:L.
    + rewrite (disconnect_suspends w r H L). eexists. split; reflexivity.
    + rewrite (disconnect_forced w r H L). eexists. split; [reflexivity|].
      unfold teardown_calls.
      destruct (heap w !! r) as [o|]; [destruct (clearElements_throws o)|]; reflexivity.
  - rewrite (disconnect_no_channel w H). exists []. cbn. rewrite app_nil_r.
    split; reflexivity.
Qed.

Lemma disconnect_this w : this (fst (fst (exec disconnect w))) = release (this w).
Proof.
  destruct (disconnect_turn w) as (w1 & o & E & Ht & _). rewrite E. exact Ht.
Qed.

Lemma disconnect_storage w :
  localStorage (fst (fst (exec disconnect w))) = localStorage w.
Proof.
  destruct (disconnect_turn w) as (w1 & o & E & _ & Hl & _). rewrite E. exact Hl.
Qed.

Lemma disconnect_spawns_nothing w : snd (fst (exec disconnect w)) = [].
Proof.
  destruct (disconnect_turn w) as (w1 & o & E & _). rewrite E. reflexivity.
Qed.

(** X1.  In an in-app browser [_connect] opens no channel.  It starts
    [disconnect], shows the dialog and rejects with the plain text reason:
    the adapter's fields are those [disconnect] leaves, the rejection itself
    adds no event, and neither [new HyperLinkEmbed] nor [wallet.init] is
    called. *)
Theorem connect_refused_in_app (a : ConnectArgs) (w : World) :
  isInApp (env w) = true ->
  let w0 := fst (fst (exec disconnect w)) in
  exec (_connect a) w
  = (with_calls (calls w0 ++ [CShowDialog]) w0,
     park (snd (exec disconnect w)),
     Done (Failed (Reason not_supported_message)))
  /\ this w0 = release (this w)
  /\ emitted (with_calls (calls w0 ++ [CShowDialog]) w0) = emitted w0
  /\ filter is_channel_start (calls w0 ++ [CShowDialog])
     = filter is_channel_start (calls w).
Proof.
  intros Hi w0. split_and!.
  - unfold _connect. cbn -[disconnect]. rewrite Hi. cbn -[disconnect].
    subst w0. pose proof (disconnect_spawns_nothing w) as Hd.
    destruct (exec disconnect w) as [[w1 d1] o1]. cbn in Hd. subst d1.
    cbn. rewrite app_nil_r. reflexivity.
  - apply disconnect_this.
  - reflexivity.
  - subst w0. destruct (disconnect_calls w) as (cs & -> & Hcs).
    rewrite <- app_assoc, filter_app, filter_app. cbn. rewrite Hcs, !app_nil_r.
    reflexivity.
Qed.

Lemma not_ready_cases w :
  readyState w = Unsupported \/ readyState w = Installed \/ readyState w = Loadable.
Proof.
  unfold readyState, installedToWalletReadyState.
  destruct (negb _ || negb _); [left; reflexivity|].
  right. match goal with |- context [if ?b then Installed else Loadable] => destruct b end; auto.
Qed.

(** X2.  When [new HyperLinkEmbed(...)] throws in a supported
    environment, [_connect] rejects in its first turn with a
    [WalletConfigError] that wraps the error and emits it as one [error]
    event; [_connecting] is false again, [_disconnected] has been reset and
    everything else is untouched. *)
Theorem connect_config_error (a : ConnectArgs) (w : World) (e : JsError) :
  isInApp (env w) = false ->
  connected w || _connecting (this w) = false ->
  readyState w <> Unsupported ->
  embed_ctor_throws w = Some e ->
  exec (_connect a) w
  = (with_emitted (emitted w ++ [EvError (WalletConfigError e)])
       (with_this (fun t => set_connecting false (set_disconnected false t)) w),
     [], Done (Failed (WalletConfigError e))).
Proof.
  intros Hi Hb Hr He. unfold _connect. cbn. rewrite Hi. cbn. rewrite Hb. cbn.
  assert (Hrs : readyState (with_this (set_disconnected false) w) = readyState w)
    by reflexivity.
  rewrite Hrs.
  destruct (not_ready_cases w) as [H|[H|H]]; [congruence| |];
    rewrite H; cbn; rewrite He; cbn; reflexivity.
Qed.

(** ** Acceptance *)

Lemma existsb_filter_other (key key' : string) (q : list (string * string)) :
  existsb (fun p => String.eqb (fst p) key)
    (filter (fun p => negb (String.eqb (fst p) key')) q)
  = if String.eqb key key' then false
    else existsb (fun p => String.eqb (fst p) key) q.
Proof.
  induction q as [|[k v] q IH].
  - cbn. destruct (String.eqb key key'); reflexivity.
  - rewrite filter_cons. cbn [fst existsb].
    destruct (String.eqb_spec k key') as [->|Hk].
    + rewrite decide_False by (cbn; auto). rewrite IH.
      destruct (String.eqb_spec key key') as [->|Hne]; [reflexivity|].
      destruct (String.eqb_spec key' key); [congruence|reflexivity].
    + rewrite decide_True by (cbn; auto). cbn [existsb fst]. rewrite IH.
      destruct (String.eqb_spec key key') as [->|Hne]; [|reflexivity].
      destruct (String.eqb_spec k key'); [congruence|reflexivity].
Qed.

Lemma has_param_strip key key' w :
  has_param key (strip_param key' w)
  = if String.eqb key key' then false else has_param key w.
Proof.
  unfold has_param, strip_param.
  destruct (existsb (fun p => String.eqb (fst p) key') (query w)) eqn:E.
  - cbn. apply existsb_filter_other.
  - destruct (String.eqb_spec key key') as [->|]; [exact E|reflexivity].
Qed.

Lemma strip_param_fields key w :
  this (strip_param key w) = this w
  /\ localStorage (strip_param key w) = localStorage w
  /\ heap (strip_param key w) = heap w
  /\ emitted (strip_param key w) = emitted w
  /\ calls (strip_param key w) = calls w.
Proof. unfold strip_param. destruct (existsb _ _); split_and!; reflexivity. Qed.

Lemma strip_redirect_fields w :
  this (strip_redirect_params w) = this w
  /\ localStorage (strip_redirect_params w) = localStorage w
  /\ heap (strip_redirect_params w) = heap w
  /\ emitted (strip_redirect_params w) = emitted w
  /\ calls (strip_redirect_params w) = calls w.
Proof.
  unfold strip_redirect_params.
  destruct (strip_param_fields "promptHyperLinkAutoConnect"
              (strip_param "hyperLinkAutoConnectPublicKey"
                 (strip_param "hyperLinkAutoConnect" w))) as (A1 & A2 & A3 & A4 & A5).
  destruct (strip_param_fields "hyperLinkAutoConnectPublicKey"
              (strip_param "hyperLinkAutoConnect" w)) as (B1 & B2 & B3 & B4 & B5).
  destruct (strip_param_fields "hyperLinkAutoConnect" w) as (C1 & C2 & C3 & C4 & C5).
  split_and!; congruence.
Qed.

(** X3.  When the handshake resolves with a valid address, the adapter
    was not disconnected meanwhile and the address is not a switch from the
    persisted one, the rest of [_connect] finishes in one turn: it registers
    the listener on the channel, stores the key, persists its address,
    emits one [connect] event, clears [_connecting] and resolves with the
    sign-in output of the handshake.  The three redirect parameters are gone
    from the page URL and every other parameter is kept. *)
Theorem connect_accepts
    (r : nat) (previous : option string) (res : InitResult) (key : PublicKey)
    (w : World) :
  new_PublicKey (pk res) = Some key ->
  _disconnected (this w) = false ->
  switched_account previous key = false ->
  let w' := accepted r key w in
  exec (_connect_resume r previous (Fulfilled res)) w
  = (w', [], Done (Fulfilled (Some {| siwsOutput := init_siwsOutput res |})))
  /\ this w' = set_connecting false (set_publicKey (Some key) (this w))
  /\ localStorage w' = <[storage_key := pk res]> (localStorage w)
  /\ emitted w' = emitted w ++ [EvConnect key]
  /\ calls w' = calls w ++ [COn r]
  /\ heap w' = alter add_listener r (heap w)
  /\ has_param "hyperLinkAutoConnect" w' = false
  /\ has_param "hyperLinkAutoConnectPublicKey" w' = false
  /\ has_param "promptHyperLinkAutoConnect" w' = false
  /\ (forall key',
        key' <> "hyperLinkAutoConnect" ->
        key' <> "hyperLinkAutoConnectPublicKey" ->
        key' <> "promptHyperLinkAutoConnect" ->
        has_param key' w' = has_param key' w).
Proof.
  intros Hk Hd Hs w'.
  destruct (strip_redirect_fields w) as (S1 & S2 & S3 & S4 & S5).
  assert (Hq : forall k, has_param k w' = has_param k (strip_redirect_params w))
    by reflexivity.
  split_and!.
  - apply connect_resume_accepted; assumption.
  - subst w'. unfold accepted. fields. rewrite S1. reflexivity.
  - subst w'. unfold accepted. fields. rewrite S2, (new_PublicKey_Some _ _ Hk).
    reflexivity.
  - subst w'. unfold accepted. fields. rewrite S4. reflexivity.
  - subst w'. unfold accepted. fields. rewrite S5. reflexivity.
  - subst w'. unfold accepted. fields. rewrite S3. reflexivity.
  - rewrite Hq. unfold strip_redirect_params. rewrite !has_param_strip. reflexivity.
  - rewrite Hq. unfold strip_redirect_params. rewrite !has_param_strip. reflexivity.
  - rewrite Hq. unfold strip_redirect_params. rewrite !has_param_strip. reflexivity.
  - intros key' N1 N2 N3. rewrite Hq. unfold strip_redirect_params.
    rewrite !has_param_strip.
    apply String.eqb_neq in N1, N2, N3. rewrite N1, N2, N3. reflexivity.
Qed.

(** ** Failure of the handshake *)

Lemma exec_finally {A} (p : Prog A) (f : Prog unit) w :
  exec (finally p f) w =
  match exec p w with
  | (w1, d1, Done r) =>
      let '(w2, d2, o) := exec (f ;; settle r) w1 in (w2, d1 ++ d2, o)
  | (w1, d1, Blocked req k) => (w1, d1, Blocked req (fun r => finally (k r) f))
  end.
Proof.
  revert w.
  induction p as [A a|A e|A k IH|A w' k IH|A X req k IH|A q IHq k IH];
    intros w; cbn [finally exec].
  - cbn [settle]. destruct (exec (f ;; Ret a) w) as [[w2 d2] o]. reflexivity.
  - cbn [settle]. destruct (exec (f ;; Throw e) w) as [[w2 d2] o]. reflexivity.
  - apply IH.
  - apply IH.
  - reflexivity.
  - destruct (exec q w) as [[w1 d1] o1]. rewrite IH.
    destruct (exec k w1) as [[w2 d2] [r|X req k']].
    + destruct (exec (f ;; settle r) w2) as [[w3 d3] o3].
      rewrite <- !app_assoc. reflexivity.
    + reflexivity.
Qed.

Lemma suspends_bind {A B} (p : Prog A) (f : A -> Prog B) w :
  suspends p w ->
  suspends (bind p f) w /\ first_turn (bind p f) w = first_turn p w.
Proof.
  unfold suspends, first_turn. rewrite exec_bind.
  destruct (exec p w) as [[w1 d1] [r|X req k]]; cbn; [tauto|auto].
Qed.

Lemma suspends_try_catch {A} (p : Prog A) h w :
  suspends p w ->
  suspends (try_catch p h) w /\ first_turn (try_catch p h) w = first_turn p w.
Proof.
  unfold suspends, first_turn. rewrite exec_try_catch.
  destruct (exec p w) as [[w1 d1] [r|X req k]]; cbn; [tauto|auto].
Qed.

Lemma suspends_finally {A} (p : Prog A) f w :
  suspends p w ->
  suspends (finally p f) w /\ first_turn (finally p f) w = first_turn p w.
Proof.
  unfold suspends, first_turn. rewrite exec_finally.
  destruct (exec p w) as [[w1 d1] [r|X req k]]; cbn; [tauto|auto].
Qed.

Lemma suspends_await_call {A} (p : Prog A) w :
  suspends (await_call p) w /\ first_turn (await_call p) w = first_turn p w.
Proof.
  unfold suspends, first_turn. rewrite exec_await_call.
  destruct (exec p w) as [[w1 d1] [r|X req k]]; cbn; auto.
Qed.

Lemma wp_await_call {A} (p : Prog A) (P : Settle A -> Prop) w :
  wp p (fun _ r => P r) w -> wp (await_call p) (fun _ r => P r) w.
Proof.
  revert w.
  induction p as [A a|A e|A k IH|A w' k IH|A X req k IH|A q IHq k IH];
    intros w H; cbn in *; auto.
Qed.

Lemma disconnect_never_rejects w : wp disconnect (fun _ r => r = Fulfilled tt) w.
Proof.
  unfold disconnect. cbn. destruct (_wallet (this w)) as [r|]; cbn; [|reflexivity].
  match goal with |- context [if ?b then _ else _] => destruct b end; cbn.
  - intros [[]|e] w'; cbn.
    + destruct (removePreviousWindowRef_throws _); reflexivity.
    + reflexivity.
  - match goal with |- context [match ?x with Some _ => _ | None => _ end] =>
      destruct x as [ob|] end; cbn.
    + destruct (clearElements_throws ob); cbn; [reflexivity|].
      destruct (removePreviousWindowRef_throws w); reflexivity.
    + destruct (removePreviousWindowRef_throws w); reflexivity.
Qed.

Lemma connect_resume_failure_shape r previous ans e :
  handshake_error ans = Some e ->
  _connect_resume r previous ans
  = (c <- finally
            (try_catch
               (x <- (await_call disconnect ;; Throw (WalletConnectionError e)) ;;
                _connect_accept r previous (fst x) (snd x))
               (fun error => emit (EvError error) ;; Throw error))
            (assign (set_connecting false)) ;;
     match c with
     | Returned => Ret None
     | Reached s => Ret (Some {| siwsOutput := s |})
     end).
Proof.
  intros He. unfold _connect_resume, handshake_error, construct_PublicKey in *.
  destruct ans as [res|e0]; cbn in *.
  - destruct (new_PublicKey (pk res)); [discriminate|]. injection He as <-.
    reflexivity.
  - injection He as <-. reflexivity.
Qed.

(** X4.  When [wallet.init] rejects, or resolves with text that is not
    a public key, the rest of [_connect] first runs [disconnect], whose first
    turn releases the channel and leaves storage alone, and then, whatever
    happens meanwhile, rejects with a [WalletConnectionError] that wraps the
    error, with [_connecting] false and that error as the last event
    emitted. *)
Theorem handshake_failure_disconnects
    (r : nat) (previous : option string) (ans : Settle InitResult)
    (e : JsError) (w : World) :
  handshake_error ans = Some e ->
  this (fst (fst (exec (_connect_resume r previous ans) w))) = release (this w)
  /\ localStorage (fst (fst (exec (_connect_resume r previous ans) w)))
     = localStorage w
  /\ wp (_connect_resume r previous ans)
       (fun w' result =>
          result = Failed (WalletConnectionError e)
          /\ _connecting (this w') = false
          /\ exists l, emitted w' = l ++ [EvError (WalletConnectionError e)])
       w.
Proof.
  intros He. rewrite (connect_resume_failure_shape r previous ans e He). clear He.
  assert (Hfirst : forall w0 d0,
    first_turn (c <- finally
              (try_catch
                 (x <- (await_call disconnect ;; Throw (WalletConnectionError e)) ;;
                  _connect_accept r previous (fst x) (snd x))
                 (fun error => emit (EvError error) ;; Throw error))
              (assign (set_connecting false)) ;;
          match c with
          | Returned => Ret None
          | Reached s => Ret (Some {| siwsOutput := s |})
          end) w = (w0, d0) ->
    w0 = fst (fst (exec disconnect w))).
  { intros w0 d0.
    destruct (suspends_await_call disconnect w) as [S1 F1].
    destruct (@suspends_bind unit (PublicKey * option SolanaSignInOutput) _
                (fun _ => Throw (WalletConnectionError e)) w S1) as [S2 F2].
    destruct (suspends_bind _ (fun x : PublicKey * option SolanaSignInOutput =>
                _connect_accept r previous (fst x) (snd x)) w S2) as [S3 F3].
    destruct (suspends_try_catch _ (fun error => emit (EvError error) ;; Throw error)
                w S3) as [S4 F4].
    destruct (suspends_finally _ (assign (set_connecting false)) w S4) as [S5 F5].
    destruct (suspends_bind _ (fun c : Completion =>
                match c with
                | Returned => Ret None
                | Reached s => Ret (Some {| siwsOutput := s |})
                end) w S5) as [S6 F6].
    rewrite F6, F5, F4, F3, F2, F1. unfold first_turn. intros E.
    rewrite E. reflexivity. }
  unfold first_turn in Hfirst.
  destruct (fst (exec _ w)) as [w0 d0] eqn:E0 in Hfirst.
  specialize (Hfirst w0 d0 eq_refl).
  split_and!.
  - rewrite E0. cbn [fst]. rewrite Hfirst. apply disconnect_this.
  - rewrite E0. cbn [fst]. rewrite Hfirst. apply disconnect_storage.
  - apply wp_bind, wp_finally, wp_try_catch, wp_bind, wp_bind.
    eapply wp_mono; [|apply wp_await_call, disconnect_never_rejects].
    intros w1 res ->. cbn.
    split_and!; try reflexivity. eexists. reflexivity.
Qed.

(** X5.  A [_connect] that gets past its reentrancy guard never leaves
    [_connecting] set: on every path, whatever the handshake answers and
    whatever happened to the adapter meanwhile, [_connecting] is false when
    it settles. *)
Theorem connecting_cleared_on_every_exit (a : ConnectArgs) (w : World) :
  connected w || _connecting (this w) = false ->
  wp (_connect a) (fun w' _ => _connecting (this w') = false) w.
Proof.
  intros Hb. unfold _connect. cbn -[disconnect].
  destruct (isInApp (env w)); cbn -[disconnect].
  - rewrite disconnect_this.
    destruct (release_facts (this w)) as (F & _). exact F.
  - rewrite Hb. cbn -[disconnect].
    apply wp_bind, wp_finally.
    eapply wp_mono; [|apply wp_anything].
    intros w' res _. cbn. destruct res as [[]|]; reflexivity.
Qed.

(** ** Options of the handshake *)

Lemma entry_suspends c w :
  starts_handshake w = true ->
  let a := match c with
           | CallConnect => plain_connect
           | CallAutoConnect =>
               {| forceNoDirectConnect := true; siwsInput := None;
                  autoConnect := true |}
           end in
  exec (entry c) w
  = (handshake_started a w, [],
     Blocked (ReqInit (next_ref w) (init_options a w))
       (connect_resume (next_ref w) (localStorage w !! storage_key))).
Proof.
  intros Hs a. destruct c; subst a; unfold entry, connect, autoConnect_, connect_resume, plain_connect;
    rewrite exec_bind, exec_await_call, (connect_suspends _ w Hs); reflexivity.
Qed.

(** X6.  The options [connect] and [autoConnect] hand to
    [wallet.init].  Neither passes a sign-in input, and
    [forceClickToContinue] is [_forceIframe].  With a persisted account or
    [_forceIframe] both ask for [autoConnect] without [directConnect];
    otherwise [connect] asks for [_directConnect] without [autoConnect] and
    [autoConnect] for [autoConnect] without [directConnect]. *)
Theorem handshake_options (c : EntryPoint) (w : World) :
  starts_handshake w = true ->
  exists o k,
    exec (entry c) w = (handshake_started
                          match c with
                          | CallConnect => plain_connect
                          | CallAutoConnect =>
                              {| forceNoDirectConnect := true; siwsInput := None;
                                 autoConnect := true |}
                          end w, [], Blocked (ReqInit (next_ref w) o) k)
    /\ opt_siwsInput o = None
    /\ opt_forceClickToContinue o = _forceIframe (this w)
    /\ (truthy_item (localStorage w !! storage_key) || _forceIframe (this w) = true ->
        opt_directConnect o = false /\ opt_autoConnect o = true)
    /\ (truthy_item (localStorage w !! storage_key) || _forceIframe (this w) = false ->
        match c with
        | CallConnect =>
            opt_directConnect o = _directConnect (this w) /\ opt_autoConnect o = false
        | CallAutoConnect =>
            opt_directConnect o = false /\ opt_autoConnect o = true
        end).
Proof.
  intros Hs. eexists _, _. split; [apply (entry_suspends c w Hs)|].
  unfold init_options. cbn.
  destruct (truthy_item (localStorage w !! storage_key) || _forceIframe (this w));
    destruct c; cbn; split_and!; try reflexivity; intros; try discriminate; auto.
Qed.

(** ** The persisted account *)

Lemma address_not_empty key : toBase58 key <> "".
Proof.
  intros E. pose proof (key_valid key) as H. rewrite E in H. discriminate.
Qed.

(** X7.  [disconnect] never clears the persisted account.  After a
    connection was accepted and then disconnected the address is still
    stored, also once a pending [cleanUp] has settled, so the next
    [_connect], whatever its arguments, asks for [autoConnect] without
    [directConnect]. *)
Theorem disconnect_keeps_persisted_account
    (r : nat) (key : PublicKey) (w w2 : World) (ans : Settle unit)
    (a : ConnectArgs) :
  let connected_world := accepted r key w in
  let w1 := fst (fst (exec disconnect connected_world)) in
  localStorage w1 !! storage_key = Some (toBase58 key)
  /\ localStorage (fst (fst (exec (disconnect_resume ans) w2))) = localStorage w2
  /\ opt_directConnect (init_options a w1) = false
  /\ opt_autoConnect (init_options a w1) = true.
Proof.
  intros connected_world w1.
  assert (H : localStorage w1 !! storage_key = Some (toBase58 key)).
  { subst w1. rewrite disconnect_storage. subst connected_world.
    unfold accepted. fields. apply lookup_insert_eq. }
  split_and!.
  - exact H.
  - rewrite disconnect_resume_spec. reflexivity.
  - unfold init_options. rewrite H. cbn.
    destruct (toBase58 key) eqn:E; [destruct (address_not_empty key E)|reflexivity].
  - unfold init_options. rewrite H. cbn.
    destruct (toBase58 key) eqn:E; [destruct (address_not_empty key E)|reflexivity].
Qed.

(** ** Signing while connected *)

Lemma live_wallet_connected w r :
  _wallet (this w) = Some r -> connected w = true ->
  exec live_wallet w = (w, [], Done (Fulfilled r)).
Proof. intros H C. unfold live_wallet. cbn. rewrite H, C. reflexivity. Qed.

(** X8.  On a connected adapter [signTransaction] forwards the
    transaction to the channel and suspends.  It resolves with the signed
    transaction, or with the transaction it was given when the channel
    answers with nothing; a rejection is wrapped in a
    [WalletSignTransactionError], emitted once and rethrown. *)
Theorem signTransaction_connected (w : World) (r : nat) (t : Transaction) :
  _wallet (this w) = Some r ->
  connected w = true ->
  exists k,
    exec (signTransaction t) w
    = (with_calls (calls w ++ [CSignTransaction r t]) w, [],
       Blocked (ReqSignTransaction r t) k)
    /\ (forall t' w', exec (k (Fulfilled (Some t'))) w' = (w', [], Done (Fulfilled t')))
    /\ (forall w', exec (k (Fulfilled None)) w' = (w', [], Done (Fulfilled t)))
    /\ (forall e w',
          exec (k (Failed e)) w'
          = (with_emitted (emitted w' ++ [EvError (WalletSignTransactionError e)]) w',
             [], Done (Failed (WalletSignTransactionError e)))).
Proof.
  intros H C. unfold signTransaction, live_wallet. cbn. rewrite H, C. cbn.
  eexists. split; [reflexivity|]. split_and!; intros; reflexivity.
Qed.

(** X9.  On a connected adapter [signAllTransactions] forwards the
    list to the channel and suspends.  It resolves with the signed list, or
    with the list it was given when the channel answers with nothing; a
    rejection is wrapped in a [WalletSignTransactionError], emitted once and
    rethrown. *)
Theorem signAllTransactions_connected
    (w : World) (r : nat) (ts : list Transaction) :
  _wallet (this w) = Some r ->
  connected w = true ->
  exists k,
    exec (signAllTransactions ts) w
    = (with_calls (calls w ++ [CSignAllTransactions r ts]) w, [],
       Blocked (ReqSignAllTransactions r ts) k)
    /\ (forall ts' w', exec (k (Fulfilled (Some ts'))) w' = (w', [], Done (Fulfilled ts')))
    /\ (forall w', exec (k (Fulfilled None)) w' = (w', [], Done (Fulfilled ts)))
    /\ (forall e w',
          exec (k (Failed e)) w'
          = (with_emitted (emitted w' ++ [EvError (WalletSignTransactionError e)]) w',
             [], Done (Failed (WalletSignTransactionError e)))).
Proof.
  intros H C. unfold signAllTransactions, live_wallet. cbn. rewrite H, C. cbn.
  eexists. split; [reflexivity|]. split_and!; intros; reflexivity.
Qed.

(** X10.  On a connected adapter [signMessage] forwards the message
    to the channel and resolves with the signature of the answer; a
    rejection is wrapped in a [WalletSignMessageError], emitted once and
    rethrown. *)
Theorem signMessage_connected (w : World) (r : nat) (m : Bytes) :
  _wallet (this w) = Some r ->
  connected w = true ->
  exists k,
    exec (signMessage m) w
    = (with_calls (calls w ++ [CSignMessage r m]) w, [],
       Blocked (ReqSignMessage r m) k)
    /\ (forall signature w',
          exec (k (Fulfilled signature)) w' = (w', [], Done (Fulfilled signature)))
    /\ (forall e w',
          exec (k (Failed e)) w'
          = (with_emitted (emitted w' ++ [EvError (WalletSignMessageError e)]) w',
             [], Done (Failed (WalletSignMessageError e)))).
Proof.
  intros H C. unfold signMessage, live_wallet. cbn. rewrite H, C. cbn.
  eexists. split; [reflexivity|]. split_and!; intros; reflexivity.
Qed.

(** X11.  On a connected adapter [sendTransaction] hands the
    transaction to the channel and returns the channel's promise without
    awaiting it.  An error thrown by the call itself is emitted as an
    [error] event and rethrown unwrapped; a later rejection of the promise
    reaches the caller unwrapped and without any event. *)
Theorem sendTransaction_connected
    (w : World) (r : nat) (ob : Embed) (t : Transaction) :
  _wallet (this w) = Some r ->
  heap w !! r = Some ob ->
  isLoggedIn ob = true ->
  let w1 := with_calls (calls w ++ [CSendTransaction r t]) w in
  match sendTransaction_throws ob with
  | Some e =>
      exec (sendTransaction t) w
      = (with_emitted (emitted w ++ [EvError e]) w1, [], Done (Failed e))
  | None =>
      exists k,
        exec (sendTransaction t) w = (w1, [], Blocked (ReqSendTransaction r t) k)
        /\ (forall s w', exec (k (Fulfilled s)) w' = (w', [], Done (Fulfilled s)))
        /\ (forall e w', exec (k (Failed e)) w' = (w', [], Done (Failed e)))
  end.
Proof.
  intros H Hob C w1.
  unfold sendTransaction, live_wallet. cbn. unfold connected, logged_in.
  rewrite H, Hob, C. cbn. rewrite Hob.
  destruct (sendTransaction_throws ob); cbn.
  - reflexivity.
  - eexists. split; [reflexivity|]. split; intros; reflexivity.
Qed.

(** ** The wallet surface *)

(** X12.  [showWallet] and [hideWallet] never throw.  While no method
    is stored they only log an error; once the handshake callback has run
    they call the method it stored, [showWallet] with its page argument. *)
Theorem wallet_surface_methods
    (w : World) (page : option EmbeddedWalletPage) (s h : nat) :
  (_showWallet (this w) = None ->
   exists msg,
     exec (showWallet page) w
     = (with_calls (calls w ++ [CConsoleError msg]) w, [], Done (Fulfilled tt)))
  /\ (_hideWallet (this w) = None ->
      exists msg,
        exec hideWallet w
        = (with_calls (calls w ++ [CConsoleError msg]) w, [], Done (Fulfilled tt)))
  /\ (let w1 := fst (fst (exec (onWalletHandshake s h) w)) in
      exec (showWallet page) w1
      = (with_calls (calls w1 ++ [CShowWallet s page]) w1, [], Done (Fulfilled tt))
      /\ exec hideWallet w1
         = (with_calls (calls w1 ++ [CHideWallet h]) w1, [], Done (Fulfilled tt))).
Proof.
  split_and!.
  - intros H. unfold showWallet. cbn. rewrite H. cbn. eexists. reflexivity.
  - intros H. unfold hideWallet. cbn. rewrite H. cbn. eexists. reflexivity.
  - cbn. split; reflexivity.
Qed.

(** ** The allowlist verdict *)

Lemma on_disallowed_turn w :
  let w0 := with_calls
              (calls w ++ match _wallet (this w) with
                          | Some r => [CNotifyDisallowed r]
                          | None => []
                          end)
              (with_this (set_isDisallowed true) w) in
  exec on_disallowed w
  = (fst (fst (exec disconnect w0)), park (snd (exec disconnect w0)),
     Done (Fulfilled tt)).
Proof.
  intros w0.
  assert (E : exec on_disallowed w
              = let '(w1, d1, o1) := exec disconnect w0 in
                (w1, d1 ++ park o1 ++ [], Done (Fulfilled tt))).
  { unfold on_disallowed. cbn -[disconnect]. subst w0.
    destruct (_wallet (this w)) as [r|] eqn:H; cbn -[disconnect].
    - reflexivity.
    - assert (E : with_calls (calls w ++ [])
                    (with_this (set_isDisallowed true) w)
                  = with_this (set_isDisallowed true) w).
      { apply world_ext; fields; try reflexivity. apply app_nil_r. }
      rewrite E. reflexivity. }
  rewrite E. pose proof (disconnect_spawns_nothing w0) as Hd.
  destruct (exec disconnect w0) as [[w1 d1] o1]. cbn in Hd. subst d1.
  cbn. rewrite app_nil_r. reflexivity.
Qed.

Lemma on_disallowed_effect (w : World) :
  let w1 := fst (fst (exec on_disallowed w)) in
  _isDisallowed (this w1) = true
  /\ _connecting (this w1) = false
  /\ _disconnected (this w1) = true
  /\ _wallet (this w1) = None
  /\ (_wallet (this w) <> None -> _publicKey (this w1) = None)
  /\ (forall r, _wallet (this w) = Some r ->
        exists cs, calls w1 = calls w ++ CNotifyDisallowed r :: COff r :: cs)
  /\ (_wallet (this w) = None -> calls w1 = calls w).
Proof.
  intros w1. subst w1. rewrite on_disallowed_turn. cbn [fst].
  match goal with |- context [exec disconnect ?W] => set (W0 := W) end.
  assert (Hw : _wallet (this W0) = _wallet (this w)) by reflexivity.
  assert (Hp : _publicKey (this W0) = _publicKey (this w)) by reflexivity.
  pose proof (disconnect_this W0) as Ht.
  destruct (release_facts (this W0)) as (F1 & F2 & F3 & F4).
  split_and!.
  - rewrite Ht. unfold release. destruct (_wallet (this W0)); reflexivity.
  - rewrite Ht. exact F1.
  - rewrite Ht. exact F2.
  - rewrite Ht. exact F3.
  - intros Hne. rewrite Ht. apply F4. left. congruence.
  - intros r Hr. rewrite Hr in Hw.
    destruct (logged_in W0 r) eqn:L.
    + rewrite (disconnect_suspends W0 r Hw L). fields. subst W0. fields.
      rewrite Hr. eexists. rewrite <- app_assoc. reflexivity.
    + rewrite (disconnect_forced W0 r Hw L). fields. subst W0. fields.
      rewrite Hr. unfold teardown_calls.
      match goal with |- context [match ?x with Some _ => _ | None => _ end] =>
        destruct x as [ob|] end;
        [destruct (clearElements_throws ob)|]; eexists; rewrite <- app_assoc; reflexivity.
  - intros Hn. rewrite Hn in Hw. rewrite (disconnect_no_channel W0 Hw).
    fields. subst W0. fields. rewrite Hn. apply app_nil_r.
Qed.

(** ** Construction and the allowlist check *)

Lemma check_suspends b cid url cb w u :
  parse_url w url = Some u ->
  exec (checkIfAllowListed b cid url cb) w
  = (with_calls (calls w ++ [CFetch {| q_clientId := cid; q_referrerUrl := sanitized u |}]) w,
     [],
     Blocked (ReqFetch {| q_clientId := cid; q_referrerUrl := sanitized u |})
       (check_after_fetch cb)).
Proof.
  intros Hu. unfold checkIfAllowListed, sanitizeUrlForAllowList. cbn. rewrite Hu.
  reflexivity.
Qed.

Lemma check_after_fetch_suspends cb response w :
  exec (check_after_fetch cb (Fulfilled response)) w
  = (w, [], Blocked (ReqJson response) (check_after_json cb response)).
Proof. reflexivity. Qed.

Lemma check_unparsable b cid url cb w :
  parse_url w url = None ->
  exec (checkIfAllowListed b cid url cb) w
  = (w, [], Done (Failed (TypeError "Invalid URL"))).
Proof.
  intros Hu. unfold checkIfAllowListed, sanitizeUrlForAllowList. cbn. rewrite Hu.
  reflexivity.
Qed.

(** X13.  When its URL argument, for the constructor the page origin,
    does not parse as a URL, [checkIfAllowListed] rejects with the
    [TypeError] of [new URL] before anything else: no request is sent and
    the callback never runs. *)
Theorem unparsable_origin_skips_check
    (b : BuildEnv) (cid url : string) (cb : Prog unit) (w : World) :
  parse_url w url = None ->
  exec (checkIfAllowListed b cid url cb) w
  = (w, [], Done (Failed (TypeError "Invalid URL"))).
Proof.
  intros Hu. unfold checkIfAllowListed, sanitizeUrlForAllowList. cbn.
  rewrite Hu. reflexivity.
Qed.

Lemma exec_preLoadIframe w :
  exists cs,
    exec preLoadIframe w = (with_calls (calls w ++ cs) w, [], Done (Fulfilled tt))
    /\ filter is_fetch cs = [].
Proof.
  unfold preLoadIframe. cbn.
  destruct (negb (has_document (env w)) || negb (has_window (env w))); cbn.
  - exists []. split; [|reflexivity]. apply result_eq; try reflexivity.
    apply world_ext; fields; try reflexivity. symmetry. apply app_nil_r.
  - destruct (prefetch_supported (env w)); cbn.
    + exists [CPrefetchLink]. split; reflexivity.
    + exists []. split; [|reflexivity]. apply result_eq; try reflexivity.
      apply world_ext; fields; try reflexivity. symmetry. apply app_nil_r.
Qed.

(** X14.  The constructor returns with the adapter in its initial
    state, emits nothing and leaves storage alone.  Without a [window] it
    sends no request; with one, and an origin that parses, it leaves exactly
    one detached task, the allowlist check waiting on its single [fetch] for
    the sanitized origin and the [clientId]. *)
Theorem constructor_starts_check (c : WalletAdapterConfig) (w : World) :
  let '(w1, d, o) := exec (constructor c) w in
  o = Done (Fulfilled tt)
  /\ this w1 = initial_adapter c (env w)
  /\ emitted w1 = emitted w
  /\ localStorage w1 = localStorage w
  /\ (has_window (env w) = false ->
      d = [] /\ filter is_fetch (calls w1) = filter is_fetch (calls w))
  /\ (forall u,
        has_window (env w) = true ->
        parse_url w (origin w) = Some u ->
        let configUrl := {| q_clientId := clientId c; q_referrerUrl := sanitized u |} in
        d = [Parked (ReqFetch configUrl) (check_after_fetch on_disallowed)]
        /\ filter is_fetch (calls w1) = filter is_fetch (calls w) ++ [CFetch configUrl]).
Proof.
  unfold constructor. cbn -[checkIfAllowListed on_disallowed preLoadIframe].
  destruct (has_window (env w)) eqn:Hw;
    cbn -[checkIfAllowListed on_disallowed preLoadIframe].
  - destruct (parse_url w (origin w)) as [u|] eqn:Hu.
    + rewrite (check_suspends _ _ _ _ _ _ Hu).
      match goal with |- context [exec preLoadIframe ?W] =>
        destruct (exec_preLoadIframe W) as (cs & -> & Hcs) end.
      cbn -[on_disallowed].
      split_and!; try reflexivity.
      * discriminate.
      * intros u' _ [= <-]. split; [reflexivity|].
        rewrite !filter_app, Hcs. cbn. rewrite !app_nil_r. reflexivity.
    + rewrite (check_unparsable _ _ _ _ _ Hu).
      match goal with |- context [exec preLoadIframe ?W] =>
        destruct (exec_preLoadIframe W) as (cs & -> & Hcs) end.
      cbn. split_and!; try reflexivity.
      * discriminate.
      * intros u' _ [=].
  - match goal with |- context [exec preLoadIframe ?W] =>
      destruct (exec_preLoadIframe W) as (cs & -> & Hcs) end.
    cbn. split_and!; try reflexivity.
    + intros _. split; [reflexivity|].
      rewrite !filter_app, Hcs. cbn. rewrite !app_nil_r. reflexivity.
    + discriminate.
Qed.

(** X15.  When the allowlist answer is a denial, the check runs the
    constructor's callback in that same turn, whatever the adapter is doing:
    [_isDisallowed] is set, the flags are those of a disconnect, and a held
    channel is first notified, then unregistered and released together with
    the public key.  Without a channel no call is made. *)
Theorem late_denial_disconnects
    (response : HttpResponse) (ancestor : JsValue) (w : World) :
  allowed response ancestor = false ->
  let '(w1, d, o) :=
    exec (check_after_json on_disallowed response (Fulfilled (BodyWith ancestor))) w in
  o = Done (Fulfilled tt)
  /\ _isDisallowed (this w1) = true
  /\ _connecting (this w1) = false
  /\ _disconnected (this w1) = true
  /\ _wallet (this w1) = None
  /\ (_wallet (this w) <> None -> _publicKey (this w1) = None)
  /\ (forall r, _wallet (this w) = Some r ->
        exists cs, calls w1 = calls w ++ CNotifyDisallowed r :: COff r :: cs)
  /\ (_wallet (this w) = None -> calls w1 = calls w).
Proof.
  intros Ha.
  assert (E : exec (check_after_json on_disallowed response
                      (Fulfilled (BodyWith ancestor))) w
              = exec (on_disallowed ;; Ret tt) w).
  { unfold check_after_json. cbn -[on_disallowed]. unfold allowed in Ha.
    destruct (status response =? 200)%Z eqn:Es.
    - rewrite (ok_200 _ Es). cbn -[on_disallowed]. cbn in Ha. rewrite Ha. reflexivity.
    - rewrite andb_false_r. reflexivity. }
  rewrite E, exec_bind. pose proof (on_disallowed_effect w) as H. cbv zeta in H.
  rewrite on_disallowed_turn in H |- *. cbn [exec fst] in H |- *.
  split; [reflexivity|exact H].
Qed.

(** ** More of sign-in *)

(** X16.  [signIn] with an input, called while a connect is in
    flight, does not wait for that connect: the guard of [_connect] makes it
    return at once without output, and [signIn] rejects with
    [No Solana Sign In Output], emitted once, leaving the pending handshake
    as it is. *)
Theorem signIn_while_connecting
    (w : World) (input : CustomSolanaSignInInput) :
  isInApp (env w) = false ->
  connected w = false ->
  _connecting (this w) = true ->
  exists k,
    exec (signIn (Some input)) w = (w, [], Blocked Tick k)
    /\ forall ans w',
         exec (k ans) w'
         = (with_emitted (emitted w' ++ [EvError no_proof]) w', [],
            Done (Failed no_proof)).
Proof.
  intros Hi Hc Hg. unfold signIn, signIn_via_connect, _connect.
  cbn. rewrite Hc. cbn. rewrite Hi. cbn. rewrite Hc, Hg. cbn.
  eexists. split; [reflexivity|]. intros. reflexivity.
Qed.

(** X17.  [signIn] without an input on an adapter that is not
    connected connects first and then goes on to the channel: if the adapter
    is connected and holds its key when it resumes it calls [wallet.signIn]
    without argument and resolves with its answer, and if it is no longer
    connected it rejects with [WalletNotConnectedError], emitted once. *)
Theorem signIn_without_payload
    (r : nat) (previous : option string) (res : InitResult) (key : PublicKey)
    (w : World) :
  new_PublicKey (pk res) = Some key ->
  _disconnected (this w) = false ->
  switched_account previous key = false ->
  exists k,
    exec (signIn_resume None r previous (Fulfilled res)) w
    = (accepted r key w, [], Blocked Tick k)
    /\ (forall ans w',
          connected w' = false ->
          exec (k ans) w'
          = (with_emitted (emitted w' ++ [EvError (WalletNotConnectedError None)]) w',
             [], Done (Failed (WalletNotConnectedError None))))
    /\ (forall ans w' r' key',
          _wallet (this w') = Some r' ->
          connected w' = true ->
          _publicKey (this w') = Some key' ->
          exists k',
            exec (k ans) w'
            = (with_calls (calls w' ++ [CSignIn r' None]) w', [],
               Blocked (ReqSignIn r' None) k')
            /\ forall proof w'',
                 exec (k' (Fulfilled proof)) w'' = (w'', [], Done (Fulfilled proof))).
Proof.
  intros Hk Hd Hs. unfold signIn_resume, signIn_via_connect.
  rewrite exec_try_catch, exec_bind, exec_bind, exec_await_call.
  rewrite (connect_resume_accepted r previous res key w Hk Hd Hs).
  eexists. split; [reflexivity|]. split.
  - intros ans w' Hc. unfold signIn_direct, live_wallet. cbn. rewrite Hc.
    destruct (_wallet (this w')); reflexivity.
  - intros ans w' r' key' Hw Hc Hp. unfold signIn_direct, live_wallet.
    cbn. rewrite Hw, Hc. cbn. rewrite Hp. cbn.
    eexists. split; [reflexivity|]. intros. reflexivity.
Qed.

(** X18.  When the handshake that [signIn] started fails, the same
    [WalletConnectionError] is emitted twice, once by [_connect] and once by
    [signIn], after the teardown errors, if any, and the [disconnect] event;
    [signIn] rejects with it and the channel is released. *)
Theorem signIn_reports_failure_twice
    (orc : Oracle) (input : option CustomSolanaSignInInput) (r : nat)
    (previous : option string) (ans : Settle InitResult) (e : JsError)
    (w : World) :
  handshake_error ans = Some e ->
  let '(w', d, result) := run orc (signIn_resume input r previous ans) w in
  result = Failed (WalletConnectionError e)
  /\ d = []
  /\ this w' = release (this w)
  /\ exists l,
       emitted w'
       = emitted w ++ l ++ [EvDisconnect;
                            EvError (WalletConnectionError e);
                            EvError (WalletConnectionError e)]
       /\ forallb is_disconnection_error l = true.
Proof.
  intros He. unfold signIn_resume, signIn_via_connect.
  rewrite (connect_resume_failure_shape r previous ans e He).
  unfold disconnect. cbn.
  destruct (_wallet (this w)) as [r0|] eqn:H; cbn.
  - unfold logged_in at 1. cbn. rewrite logged_in_alter_off.
    destruct (logged_in w r0) eqn:L; cbn.
    + destruct (orc unit (ReqCleanUp r0)) as [[]|e1]; cbn.
      * destruct (removePreviousWindowRef_throws w) as [e2|]; cbn.
        -- split_and!; try reflexivity.
           ++ unfold release. rewrite H. reflexivity.
           ++ exists [EvError (WalletDisconnectionError e2)]. split; [|reflexivity].
              rewrite <- !(app_assoc (emitted w)). reflexivity.
        -- split_and!; try reflexivity.
           ++ unfold release. rewrite H. reflexivity.
           ++ exists []. split; [|reflexivity].
              rewrite <- !(app_assoc (emitted w)). reflexivity.
      * split_and!; try reflexivity.
        -- unfold release. rewrite H. reflexivity.
        -- exists [EvError (WalletDisconnectionError e1)]. split; [|reflexivity].
           rewrite <- !(app_assoc (emitted w)). reflexivity.
    + rewrite lookup_alter_eq.
      assert (Hrel : forall t, t = release (this w) ->
                set_publicKey None
                  (set_wallet None
                     (set_disconnected true (set_connecting false (this w)))) = t).
      { intros t ->. unfold release. rewrite H. reflexivity. }
      destruct (heap w !! r0) as [ob|]; cbn.
      * destruct (clearElements_throws ob) as [e1|]; cbn.
        -- split_and!; try reflexivity.
           ++ unfold release. rewrite H. reflexivity.
           ++ exists [EvError (WalletDisconnectionError e1)]. split; [|reflexivity].
              rewrite <- !(app_assoc (emitted w)). reflexivity.
        -- destruct (removePreviousWindowRef_throws w) as [e2|]; cbn.
           ++ split_and!; try reflexivity.
              ** unfold release. rewrite H. reflexivity.
              ** exists [EvError (WalletDisconnectionError e2)]. split; [|reflexivity].
                 rewrite <- !(app_assoc (emitted w)). reflexivity.
           ++ split_and!; try reflexivity.
              ** unfold release. rewrite H. reflexivity.
              ** exists []. split; [|reflexivity].
                 rewrite <- !(app_assoc (emitted w)). reflexivity.
      * destruct (removePreviousWindowRef_throws w) as [e2|]; cbn.
        -- split_and!; try reflexivity.
           ++ unfold release. rewrite H. reflexivity.
           ++ exists [EvError (WalletDisconnectionError e2)]. split; [|reflexivity].
              rewrite <- !(app_assoc (emitted w)). reflexivity.
        -- split_and!; try reflexivity.
           ++ unfold release. rewrite H. reflexivity.
           ++ exists []. split; [|reflexivity].
              rewrite <- !(app_assoc (emitted w)). reflexivity.
  - split_and!; try reflexivity.
    + unfold release. rewrite H. reflexivity.
    + exists []. split; [|reflexivity].
      rewrite <- !(app_assoc (emitted w)). reflexivity.
Qed.

(** * An invariant of the connection flags *)

Lemma turns_mono {A} I (p : Prog A) (Q Q' : World -> Settle A -> Prop) w :
  (forall w' r, Q w' r -> Q' w' r) -> turns I p Q w -> turns I p Q' w.
Proof.
  revert Q Q' w.
  induction p as [A a|A e|A k IH|A w' k IH|A X req k IH|A q IHq k IH];
    intros Q Q' w HQ H; cbn in *; eauto.
  - destruct H as [Hi H]. split; eauto.
  - destruct H as [Hq H]. split; eauto.
Qed.

Lemma turns_bind {A B} I (p : Prog A) (f : A -> Prog B) Q w :
  turns I p (fun w' r => match r with
                         | Fulfilled a => turns I (f a) Q w'
                         | Failed e => Q w' (Failed e)
                         end) w ->
  turns I (bind p f) Q w.
Proof.
  revert B f Q w.
  induction p as [A a|A e|A k IH|A w' k IH|A X req k IH|A q IHq k IH];
    intros B f Q w H; cbn in *; auto.
  - destruct H as [Hi H]. split; auto.
  - destruct H as [Hq H]. split; auto.
Qed.

Lemma turns_try_catch {A} I (p : Prog A) (h : JsError -> Prog A) Q w :
  turns I p (fun w' r => match r with
                         | Fulfilled a => Q w' (Fulfilled a)
                         | Failed e => turns I (h e) Q w'
                         end) w ->
  turns I (try_catch p h) Q w.
Proof.
  revert h Q w.
  induction p as [A a|A e|A k IH|A w' k IH|A X req k IH|A q IHq k IH];
    intros h Q w H; cbn in *; auto.
  - destruct H as [Hi H]. split; auto.
  - destruct H as [Hq H]. split; auto.
Qed.

Lemma turns_finally {A} I (p : Prog A) (f : Prog unit) Q w :
  turns I p (fun w' r => turns I f (fun w'' r' => match r' with
                                                | Fulfilled _ => Q w'' r
                                                | Failed e => Q w'' (Failed e)
                                                end) w') w ->
  turns I (finally p f) Q w.
Proof.
  revert f Q w.
  induction p as [A a|A e|A k IH|A w' k IH|A X req k IH|A q IHq k IH];
    intros f Q w H; cbn [finally turns] in *; auto.
  - apply turns_bind. eapply turns_mono; [|exact H].
    intros w' [[]|e]; cbn; auto.
  - apply turns_bind. eapply turns_mono; [|exact H].
    intros w' [[]|e']; cbn; auto.
  - destruct H as [Hi H]. split; auto.
  - destruct H as [Hq H]. split; auto.
Qed.

Lemma turns_await_call {A} (I : World -> Prop) (p : Prog A) Q w :
  turns I p (fun w' r => I w' /\ forall w'', I w'' -> Q w'' r) w ->
  turns I (await_call p) Q w.
Proof.
  revert w.
  induction p as [A a|A e|A k IH|A w' k IH|A X req k IH|A q IHq k IH];
    intros w H; cbn in *; auto.
  - destruct H as [Hi H]. split; auto.
  - destruct H as [Hi H]. split; auto.
  - destruct H as [Hi H]. split; auto.
  - destruct H as [Hq H]. split; auto.
Qed.

Lemma consistent_this w w' : this w' = this w -> consistent w -> consistent w'.
Proof. unfold consistent. intros ->. auto. Qed.

Lemma consistent_released w w' :
  this w' = release (this w) -> consistent w'.
Proof.
  intros E. unfold consistent. rewrite E.
  destruct (release_facts (this w)) as (F1 & F2 & F3 & _).
  split; [auto|]. rewrite F1. discriminate.
Qed.

Lemma consistent_idle w w' :
  _disconnected (this w') = _disconnected (this w) ->
  _wallet (this w') = _wallet (this w) ->
  _connecting (this w') = false ->
  consistent w -> consistent w'.
Proof.
  unfold consistent. intros -> -> -> [H _]. split; [exact H|discriminate].
Qed.

Lemma turns_disconnect w Q :
  (forall w', _connecting (this w') = false -> _disconnected (this w') = true ->
              _wallet (this w') = None -> Q w' (Fulfilled tt)) ->
  (forall w', consistent w' -> Q w' (Fulfilled tt)) ->
  turns consistent disconnect Q w.
Proof.
  intros HQ HQ'. unfold disconnect. cbn.
  destruct (_wallet (this w)) as [r|] eqn:Hr; cbn.
  - match goal with |- context [if ?b then _ else _] => destruct b end; cbn.
    + split.
      * unfold consistent. cbn. split; [reflexivity|discriminate].
      * intros [[]|e] w' Hw'; cbn.
        -- destruct (removePreviousWindowRef_throws _); cbn; apply HQ';
             eapply consistent_this; try exact Hw'; reflexivity.
        -- apply HQ'. eapply consistent_this; try exact Hw'; reflexivity.
    + match goal with |- context [match ?x with Some _ => _ | None => _ end] =>
        destruct x as [ob|] end; cbn.
      * destruct (clearElements_throws ob); cbn; [apply HQ; reflexivity|].
        destruct (removePreviousWindowRef_throws w); cbn; apply HQ; reflexivity.
      * destruct (removePreviousWindowRef_throws w); cbn; apply HQ; reflexivity.
  - apply HQ; [reflexivity|reflexivity|exact Hr].
Qed.

Lemma forced_consistent w' :
  _connecting (this w') = false -> _disconnected (this w') = true ->
  _wallet (this w') = None -> consistent w'.
Proof.
  unfold consistent. intros -> -> ->. split; [reflexivity|discriminate].
Qed.

Lemma turns_disconnect_consistent w :
  turns consistent disconnect (fun w' _ => consistent w') w.
Proof. apply turns_disconnect; auto using forced_consistent. Qed.

Ltac keep_consistent :=
  match goal with
  | H : consistent ?w |- consistent _ =>
      first [ exact H
            | apply (consistent_this w); [reflexivity|exact H]
            | apply (consistent_idle w); [reflexivity|reflexivity|reflexivity|exact H] ]
  end.

Lemma turns_connect_resume r previous ans w :
  consistent w ->
  turns consistent (_connect_resume r previous ans) (fun w' _ => consistent w') w.
Proof.
  intros Hw. destruct (handshake_error ans) as [e|] eqn:He.
  - rewrite (connect_resume_failure_shape r previous ans e He).
    apply turns_bind, turns_finally, turns_try_catch, turns_bind, turns_bind,
      turns_await_call.
    apply turns_disconnect.
    + intros w' H1 H2 H3. split; [apply forced_consistent; assumption|].
      intros w'' Hw''. cbn. keep_consistent.
    + intros w' Hw'. split; [assumption|].
      intros w'' Hw''. cbn. keep_consistent.
  - assert (exists res key, ans = Fulfilled res /\ new_PublicKey (pk res) = Some key)
      as (res & key & -> & Hk).
    { unfold handshake_error in He. destruct ans as [res|e]; [|discriminate].
      destruct (new_PublicKey (pk res)) as [key|] eqn:Hk; [|discriminate].
      eauto. }
    unfold _connect_resume, construct_PublicKey, _connect_accept.
    cbn -[disconnect]. rewrite Hk. cbn -[disconnect].
    destruct (_disconnected (this w)) eqn:Hd; cbn -[disconnect].
    + keep_consistent.
    + destruct (switched_account previous key); cbn -[disconnect].
      * split; [apply turns_disconnect_consistent|].
        apply forced_consistent; cbn -[disconnect]; rewrite ?disconnect_this;
          destruct (release_facts (this w)) as (F1 & F2 & F3 & _); auto.
      * unfold removeQueryParam. cbn.
        repeat (match goal with |- context [existsb ?f ?l] => destruct (existsb f l) end; cbn);
          (unfold consistent; cbn; rewrite Hd; split; [discriminate|discriminate]).
Qed.

Lemma turns_connect a w :
  consistent w ->
  turns consistent (_connect a) (fun w' _ => consistent w') w.
Proof.
  intros Hw. unfold _connect. cbn -[disconnect].
  destruct (isInApp (env w)); cbn -[disconnect].
  - split; [apply turns_disconnect_consistent|].
    apply (consistent_released w). cbn -[disconnect]. apply disconnect_this.
  - destruct (connected w || _connecting (this w)) eqn:Hb; cbn -[disconnect]; [exact Hw|].
    apply orb_false_iff in Hb as [_ Hc].
    match goal with |- context [readyState ?W] =>
      change (readyState W) with (readyState w) end.
    destruct (readyState w); cbn -[disconnect];
      try (unfold consistent; cbn; split; [discriminate|discriminate]);
      (destruct (embed_ctor_throws w); cbn -[disconnect];
       [unfold consistent; cbn; split; discriminate|]);
      (split; [unfold consistent; cbn; split; [discriminate|intros _; split; [reflexivity|discriminate]]|]);
      intros ans w' Hw';
      apply (turns_connect_resume (next_ref w) (localStorage w !! storage_key) ans w' Hw').
Qed.

Lemma turns_live_wallet {B} (f : nat -> Prog B) Q w :
  Q w (Failed (WalletNotConnectedError None)) ->
  (forall r, turns consistent (f r) Q w) ->
  turns consistent (wallet <- live_wallet ;; f wallet) Q w.
Proof.
  intros Hf Hr. unfold live_wallet. cbn.
  destruct (_wallet (this w)); cbn; [|exact Hf].
  destruct (connected w); cbn; [apply Hr|exact Hf].
Qed.

Lemma turns_signIn input w :
  consistent w ->
  turns consistent (signIn input) (fun w' _ => consistent w') w.
Proof.
  intros Hw. unfold signIn. apply turns_try_catch. cbn [gets bind turns].
  assert (Hdirect : forall w1, consistent w1 ->
            turns consistent (signIn_direct input)
              (fun w' r => match r with
                           | Fulfilled _ => consistent w'
                           | Failed e =>
                               turns consistent (emit_and_rethrow (A:=SolanaSignInOutput) e)
                                 (fun w'' _ => consistent w'') w'
                           end) w1).
  { intros w1 Hw1. unfold signIn_direct. apply turns_live_wallet.
    - cbn. keep_consistent.
    - intros r. cbn. destruct (_publicKey (this w1)); cbn.
      + split; [keep_consistent|]. intros [proof|e] w' Hw'; cbn; keep_consistent.
      + keep_consistent. }
  destruct (connected w); cbn [bind turns].
  - apply Hdirect, Hw.
  - unfold signIn_via_connect. apply turns_bind, turns_bind, turns_await_call.
    eapply turns_mono; [|apply turns_connect, Hw].
    intros w1 res Hw1. cbn beta. split; [exact Hw1|]. intros w2 Hw2.
    destruct res as [output|e]; cbn [turns]; [|cbn; keep_consistent].
    destruct input as [i|].
    + destruct (match output with Some o => siwsOutput o | None => None end); cbn;
        keep_consistent.
    + cbn [turns]. apply Hdirect, Hw2.
Qed.

(** X19.  The flags agree with the channel reference at every
    suspension and at every exit of every operation of the adapter: once
    [_disconnected] is set no channel is held, and while [_connecting] is
    set a channel is held and [_disconnected] is not set.  Each operation
    keeps this, whatever the answers to its awaits, as long as the
    operations that run in between keep it. *)
Theorem flags_stay_consistent (op : Operation) (w : World) :
  consistent w ->
  turns consistent (perform op) (fun w' _ => consistent w') w.
Proof.
  intros Hw. destruct op; unfold perform.
  - unfold connect. apply turns_bind, turns_await_call.
    eapply turns_mono; [|apply turns_connect, Hw].
    intros w1 res Hw1. split; [exact Hw1|]. intros w2 Hw2.
    destruct res; exact Hw2.
  - unfold autoConnect_. apply turns_bind, turns_await_call.
    eapply turns_mono; [|apply turns_connect, Hw].
    intros w1 res Hw1. split; [exact Hw1|]. intros w2 Hw2.
    destruct res; exact Hw2.
  - apply turns_disconnect_consistent.
  - apply turns_bind. unfold signTransaction. apply turns_try_catch, turns_live_wallet.
    + cbn. keep_consistent.
    + intros r. cbn. split; [keep_consistent|].
      intros [[t'|]|e] w' Hw'; cbn; keep_consistent.
  - apply turns_bind. unfold signAllTransactions.
    apply turns_try_catch, turns_live_wallet.
    + cbn. keep_consistent.
    + intros r. cbn. split; [keep_consistent|].
      intros [[t'|]|e] w' Hw'; cbn; keep_consistent.
  - apply turns_bind. unfold signMessage. apply turns_try_catch, turns_live_wallet.
    + cbn. keep_consistent.
    + intros r. cbn. split; [keep_consistent|].
      intros [s|e] w' Hw'; cbn; keep_consistent.
  - apply turns_bind. unfold sendTransaction. apply turns_bind, turns_try_catch,
      turns_live_wallet.
    + cbn. keep_consistent.
    + intros r. cbn.
      match goal with |- context [match ?x with Some _ => _ | None => _ end] =>
        destruct x as [ob|] end; cbn;
        [destruct (sendTransaction_throws ob); cbn|];
        try keep_consistent;
        (split; [keep_consistent|]; intros [s|e] w' Hw'; cbn; keep_consistent).
  - apply turns_bind. eapply turns_mono; [|apply turns_signIn, Hw].
    intros w' [proof|e] Hw'; cbn; exact Hw'.
  - unfold showWallet. cbn. destruct (_showWallet (this w)); cbn; keep_consistent.
  - unfold hideWallet. cbn. destruct (_hideWallet (this w)); cbn; keep_consistent.
  - unfold _accountChanged. cbn. destruct (_publicKey (this w)) as [k|]; cbn;
      [|exact Hw].
    destruct (String.eqb (toBase58 k) newPublicKeyString); cbn; [exact Hw|].
    unfold construct_PublicKey. destruct (new_PublicKey newPublicKeyString); cbn;
      keep_consistent.
  - cbn. keep_consistent.
  - unfold on_disallowed. cbn -[disconnect].
    destruct (_wallet (this w)); cbn -[disconnect];
      (split; [apply turns_disconnect_consistent|]);
      (eapply consistent_released; apply disconnect_this).
Qed.

(** * A handshake that outlives a disconnect *)

Lemma flagged_disconnect w :
  turns flagged disconnect (fun w' _ => flagged w') w.
Proof.
  unfold disconnect. cbn.
  destruct (_wallet (this w)) as [r|]; cbn; [|reflexivity].
  match goal with |- context [if ?b then _ else _] => destruct b end; cbn.
  - split; [reflexivity|].
    intros [[]|e] w' Hw'; cbn.
    + destruct (removePreviousWindowRef_throws _); cbn; exact Hw'.
    + exact Hw'.
  - match goal with |- context [match ?x with Some _ => _ | None => _ end] =>
      destruct x as [ob|] end; cbn.
    + destruct (clearElements_throws ob); cbn; [reflexivity|].
      destruct (removePreviousWindowRef_throws w); reflexivity.
    + destruct (removePreviousWindowRef_throws w); reflexivity.
Qed.

Lemma flagged_live_wallet {B} (f : nat -> Prog B) Q w :
  Q w (Failed (WalletNotConnectedError None)) ->
  (forall r, turns flagged (f r) Q w) ->
  turns flagged (wallet <- live_wallet ;; f wallet) Q w.
Proof.
  intros Hf Hr. unfold live_wallet. cbn.
  destruct (_wallet (this w)); cbn; [|exact Hf].
  destruct (connected w); cbn; [apply Hr|exact Hf].
Qed.

Lemma flag_kept (op : Operation) (w : World) :
  starts_connect op = false ->
  flagged w ->
  turns flagged (perform op) (fun w' _ => flagged w') w.
Proof.
  intros Hop Hw. destruct op; try discriminate Hop; unfold perform.
  - apply flagged_disconnect.
  - apply turns_bind. unfold signTransaction. apply turns_try_catch, flagged_live_wallet.
    + cbn. exact Hw.
    + intros r. cbn. split; [exact Hw|].
      intros [[t'|]|e] w' Hw'; cbn; exact Hw'.
  - apply turns_bind. unfold signAllTransactions.
    apply turns_try_catch, flagged_live_wallet.
    + cbn. exact Hw.
    + intros r. cbn. split; [exact Hw|].
      intros [[t'|]|e] w' Hw'; cbn; exact Hw'.
  - apply turns_bind. unfold signMessage. apply turns_try_catch, flagged_live_wallet.
    + cbn. exact Hw.
    + intros r. cbn. split; [exact Hw|].
      intros [s|e] w' Hw'; cbn; exact Hw'.
  - apply turns_bind. unfold sendTransaction. apply turns_bind, turns_try_catch,
      flagged_live_wallet.
    + cbn. exact Hw.
    + intros r. cbn.
      match goal with |- context [match ?x with Some _ => _ | None => _ end] =>
        destruct x as [ob|] end; cbn;
        [destruct (sendTransaction_throws ob); cbn|];
        try exact Hw;
        (split; [exact Hw|]; intros [s|e] w' Hw'; cbn; exact Hw').
  - unfold showWallet. cbn. destruct (_showWallet (this w)); cbn; exact Hw.
  - unfold hideWallet. cbn. destruct (_hideWallet (this w)); cbn; exact Hw.
  - unfold _accountChanged. cbn. destruct (_publicKey (this w)) as [k|]; cbn;
      [|exact Hw].
    destruct (String.eqb (toBase58 k) newPublicKeyString); cbn; [exact Hw|].
    unfold construct_PublicKey. destruct (new_PublicKey newPublicKeyString); cbn;
      exact Hw.
  - cbn. exact Hw.
  - unfold on_disallowed. cbn -[disconnect].
    destruct (_wallet (this w)); cbn -[disconnect];
      (split; [apply flagged_disconnect|]);
      unfold flagged; rewrite disconnect_this;
      apply (release_facts (this _)).
Qed.

Lemma connect_resets_flag a w :
  isInApp (env w) = false ->
  connected w || _connecting (this w) = false ->
  _disconnected (this (fst (fst (exec (_connect a) w)))) = false.
Proof.
  intros Hi Hb. unfold _connect. cbn. rewrite Hi. cbn. rewrite Hb. cbn.
  assert (Hrs : readyState (with_this (set_disconnected false) w) = readyState w)
    by reflexivity.
  rewrite Hrs.
  destruct (readyState w); cbn; try reflexivity;
    destruct (embed_ctor_throws w); reflexivity.
Qed.

(** C4.  A [_connect] that got as far as [wallet.init] suspends with the
    continuation [_connect_resume].  [disconnect()] raises the
    [_disconnected] flag in whatever world it is called, and every
    operation of the adapter other than a connect attempt ([connect],
    [autoConnect], [signIn]) keeps it up, at every suspension and at every
    exit.  When the handshake resolves with a parseable account while the
    flag is up, the continuation changes nothing but [_connecting := false]:
    the public key is not set, the account is not persisted, nothing
    subscribes to [accountChanged] (heap and calls are untouched) and no
    event is emitted; the call resolves with [undefined].  The flag does
    not belong to the attempt, though: a later [_connect] that passes its
    guards lowers it in its first turn, and the earlier handshake, resolving
    with the flag down and an account that is not a switch from the
    persisted one, is accepted: the key is set, the account persisted, the
    listener registered on the channel of that earlier attempt and
    [connect] emitted. *)
Theorem stale_handshake_discarded
    (a : ConnectArgs) (w : World) (res : InitResult) (key : PublicKey) :
  starts_handshake w = true ->
  new_PublicKey (pk res) = Some key ->
  let r := next_ref w in
  let previous := localStorage w !! storage_key in
  let resolve := _connect_resume r previous (Fulfilled res) in
  exec (_connect a) w
  = (handshake_started a w, [],
     Blocked (ReqInit r (init_options a w)) (_connect_resume r previous))
  /\ (forall w_d, flagged (fst (fst (exec disconnect w_d))))
  /\ (forall op w1,
        starts_connect op = false ->
        flagged w1 ->
        turns flagged (perform op) (fun w' _ => flagged w') w1)
  /\ (forall w',
        flagged w' ->
        exec resolve w' = (with_this (set_connecting false) w', [], Done (Fulfilled None))
        /\ (let w'' := fst (fst (exec resolve w')) in
            _publicKey (this w'') = _publicKey (this w')
            /\ flagged w''
            /\ localStorage w'' = localStorage w'
            /\ heap w'' = heap w'
            /\ calls w'' = calls w'
            /\ emitted w'' = emitted w'))
  /\ (forall a2 w2,
        isInApp (env w2) = false ->
        connected w2 || _connecting (this w2) = false ->
        _disconnected (this (fst (fst (exec (_connect a2) w2)))) = false)
  /\ (forall w',
        _disconnected (this w') = false ->
        switched_account previous key = false ->
        let w'' := accepted r key w' in
        exec resolve w'
        = (w'', [], Done (Fulfilled (Some {| siwsOutput := init_siwsOutput res |})))
        /\ _publicKey (this w'') = Some key
        /\ localStorage w'' !! storage_key = Some (toBase58 key)
        /\ emitted w'' = emitted w' ++ [EvConnect key]
        /\ calls w'' = calls w' ++ [COn r]).
Proof.
  intros Hs Hk r previous resolve. split_and!.
  - apply connect_suspends; assumption.
  - intros w_d. unfold flagged. rewrite disconnect_this.
    apply (release_facts (this w_d)).
  - apply flag_kept.
  - intros w' Hd. subst resolve.
    rewrite (connect_resume_discarded r previous res key w' Hk Hd).
    cbn. split_and!; try reflexivity. exact Hd.
  - apply connect_resets_flag.
  - intros w' Hd Hsw w''. subst resolve w''.
    destruct (strip_redirect_fields w') as (S1 & S2 & S3 & S4 & S5).
    split_and!.
    + apply connect_resume_accepted; assumption.
    + reflexivity.
    + unfold accepted. fields. apply lookup_insert_eq.
    + unfold accepted. fields. rewrite S4. reflexivity.
    + unfold accepted. fields. rewrite S5. reflexivity.
Qed.

(** * The detector *)

Lemma test_alt ci a b s :
  JsRegex.test ci (JsRegex.Alt a b) s
  = JsRegex.test ci a s || JsRegex.test ci b s.
Proof.
  induction s as [|c s IH]; cbn.
  - destruct (JsRegex.matches ci a _ ""); reflexivity.
  - rewrite IH.
    destruct (JsRegex.matches ci a _ (String c s)); cbn; [reflexivity|].
    destruct (JsRegex.matches ci b _ (String c s)); cbn.
    + rewrite orb_true_r. reflexivity.
    + reflexivity.
Qed.

(** X20.  Without a user agent, or with an empty one, every
    detector answers false. *)
Theorem detector_without_user_agent (e : Env) :
  userAgent e = None \/ userAgent e = Some "" ->
  isWebView e = false
  /\ isMobileAndroid e = false
  /\ isMobileiOS e = false
  /\ isInApp e = false
  /\ isPhantomBrowser e = false.
Proof.
  unfold isWebView, isMobileAndroid, isMobileiOS, isInApp, isPhantomBrowser.
  intros [-> | ->]; split_and!; reflexivity.
Qed.

(** X21.  A user agent that contains [WebView], in any letter case,
    is classified as a web view and as an in-app browser, and as neither
    Android nor iOS, whatever else it contains. *)
Theorem webview_marker_is_in_app (e : Env) (s : string) :
  userAgent e = Some s ->
  JsRegex.test true (JsRegex.Lit "WebView") s = true ->
  isWebView e = true
  /\ isInApp e = true
  /\ isMobileAndroid e = false
  /\ isMobileiOS e = false.
Proof.
  intros Hu Ht.
  assert (Hs : truthy s = true) by (destruct s; [discriminate|reflexivity]).
  assert (Hw : isWebView_of (Some s) = true).
  { unfold isWebView_of, webview_regex. rewrite Hs. cbn [JsRegex.alts].
    rewrite test_alt, Ht. reflexivity. }
  unfold isWebView, isInApp, isMobileAndroid, isMobileiOS.
  rewrite Hu. split_and!.
  - exact Hw.
  - unfold isInApp_of, wvRegex. rewrite Hs. cbn [JsRegex.alts].
    rewrite test_alt, Ht. reflexivity.
  - unfold isMobileAndroid_of. rewrite Hw, Hs. cbn. rewrite andb_false_r. reflexivity.
  - unfold isMobileiOS_of. rewrite Hw, Hs. cbn. rewrite andb_false_r. reflexivity.
Qed.

Lemma phantom_is_in_app e : isPhantomBrowser e = true -> isInApp e = true.
Proof.
  unfold isPhantomBrowser, isPhantomBrowser_of, isInApp.
  destruct (userAgent e) as [s|]; [|discriminate].
  destruct (truthy s); [|discriminate].
  destruct (JsRegex.includes s "Phantom"); [auto|discriminate].
Qed.

(** X22.  In a Phantom in-app browser with a DOM, [readyState]
    reports [Loadable] whatever the installed flags, yet every [_connect]
    is refused with the plain text reason and opens no channel. *)
Theorem phantom_loadable_but_refused (a : ConnectArgs) (w : World) :
  isPhantomBrowser (env w) = true ->
  in_browser w = true ->
  readyState w = Loadable
  /\ snd (exec (_connect a) w) = Done (Failed (Reason not_supported_message))
  /\ filter is_channel_start (calls (fst (fst (exec (_connect a) w))))
     = filter is_channel_start (calls w).
Proof.
  intros Hp Hb. pose proof (phantom_is_in_app _ Hp) as Hi.
  split_and!.
  - unfold readyState, in_browser in *. rewrite Hp.
    apply andb_true_iff in Hb as [-> ->]. reflexivity.
  - unfold _connect. cbn -[disconnect]. rewrite Hi. cbn -[disconnect].
    destruct (exec disconnect w) as [[w1 d1] o1]. reflexivity.
  - unfold _connect. cbn -[disconnect]. rewrite Hi. cbn -[disconnect].
    destruct (disconnect_calls w) as (cs & Hc & Hcs).
    destruct (exec disconnect w) as [[w1 d1] o1]. cbn in *.
    rewrite Hc, <- app_assoc, filter_app, filter_app. cbn.
    rewrite Hcs, !app_nil_r. reflexivity.
Qed.

(** X23.  An adapter constructed without installed flags reports, in
    a browser, [Loadable] on Android and in a Phantom in-app browser and
    [Installed] everywhere else. *)
Theorem default_ready_state (c : WalletAdapterConfig) (w : World) :
  installedOnDesktop c = None ->
  installedOnIos c = None ->
  installedOnAndroid c = None ->
  this w = initial_adapter c (env w) ->
  in_browser w = true ->
  readyState w
  = if isPhantomBrowser (env w) || isMobileAndroid (env w)
    then Loadable else Installed.
Proof.
  intros Hd Hi Ha Ht Hb. unfold readyState, in_browser in *.
  apply andb_true_iff in Hb as [-> ->]. rewrite Ht. cbn. rewrite Hd, Hi, Ha. cbn.
  destruct (isPhantomBrowser (env w)); [reflexivity|].
  destruct (isMobileAndroid (env w)); [reflexivity|].
  destruct (isMobileiOS (env w)); reflexivity.
Qed.

(** X24.  From memo cells that agree with the environment, each
    memoised detector answers what the detector computes from the user
    agent, and leaves memo cells that still agree with the environment. *)
Theorem detector_memo_sound (e : Env) (m : Memo) :
  coherent e m ->
  fst (getUserAgent e m) = userAgent e
  /\ fst (isWebView_memo e m) = isWebView e
  /\ fst (isMobileAndroid_memo e m) = isMobileAndroid e
  /\ fst (isMobileiOS_memo e m) = isMobileiOS e
  /\ fst (isInApp_memo e m) = isInApp e
  /\ fst (isPhantomBrowser_memo e m) = isPhantomBrowser e
  /\ coherent e (snd (getUserAgent e m))
  /\ coherent e (snd (isWebView_memo e m))
  /\ coherent e (snd (isMobileAndroid_memo e m))
  /\ coherent e (snd (isMobileiOS_memo e m))
  /\ coherent e (snd (isInApp_memo e m))
  /\ coherent e (snd (isPhantomBrowser_memo e m)).
Proof.
  intros H.
  destruct (getUserAgent_coherent e m H) as [A1 A2].
  destruct (isWebView_memo_coherent e m H) as [B1 B2].
  destruct (isMobileAndroid_memo_coherent e m H) as [C1 C2].
  destruct (isMobileiOS_memo_coherent e m H) as [D1 D2].
  destruct (isInApp_memo_coherent e m H) as [E1 E2].
  destruct (isPhantomBrowser_memo_coherent e m H) as [F1 F2].
  split_and!; assumption.
Qed.

(** ** Notifications after a disconnect *)

(** X25.  After [disconnect] an [accountChanged] notification is ignored:
    on an adapter that holds no public key without a channel, the first
    turn of [disconnect] leaves a state in which [_accountChanged] changes
    nothing and emits nothing, whatever the text it carries. *)
Theorem account_change_after_disconnect (w : World) (newPublicKeyString : string) :
  well_formed (this w) ->
  let w1 := fst (fst (exec disconnect w)) in
  _publicKey (this w1) = None
  /\ exec (_accountChanged newPublicKeyString) w1 = (w1, [], Done (Fulfilled tt)).
Proof.
  intros [_ Hk] w1.
  assert (H : _publicKey (this w1) = None).
  { subst w1. rewrite disconnect_this.
    destruct (release_facts (this w)) as (_ & _ & _ & F). apply F.
    destruct (_wallet (this w)) eqn:E; [left; discriminate|right; apply Hk; reflexivity]. }
  split; [exact H|]. unfold _accountChanged. cbn. rewrite H. reflexivity.
Qed.

(** ** Connecting after a denial *)

Lemma disconnect_ctor w :
  embed_ctor_throws (fst (fst (exec disconnect w))) = embed_ctor_throws w.
Proof.
  destruct (_wallet (this w)) as [r|] eqn:H.
  - destruct (logged_in w r) eqn:L.
    + rewrite (disconnect_suspends w r H L). reflexivity.
    + rewrite (disconnect_forced w r H L). reflexivity.
  - rewrite (disconnect_no_channel w H). reflexivity.
Qed.

Lemma disconnect_env w : env (fst (fst (exec disconnect w))) = env w.
Proof.
  destruct (disconnect_turn w) as (w1 & o & E & _ & _ & _ & He & _).
  rewrite E. exact He.
Qed.

Lemma released_starts_handshake w w1 :
  this w1 = release (this w) ->
  env w1 = env w ->
  embed_ctor_throws w1 = embed_ctor_throws w ->
  isInApp (env w) = false ->
  in_browser w = true ->
  embed_ctor_throws w = None ->
  starts_handshake w1 = true.
Proof.
  intros Ht He Hc Hi Hb Hn.
  destruct (release_facts (this w)) as (F1 & F2 & F3 & _).
  unfold starts_handshake, connected, readyState, in_browser in *.
  rewrite Hc, Hn, He, Hi, Ht, F1, F3.
  apply andb_true_iff in Hb as [-> ->]. cbn.
  match goal with |- context [installedToWalletReadyState ?b] => destruct b end;
    reflexivity.
Qed.

(** X26.  A denial does not stop the adapter from connecting.  After the
    disallow callback has run, in a supported browser where the embed can be
    constructed, the next [_connect] still constructs an embed and calls
    [wallet.init], with [_isDisallowed] set. *)
Theorem denial_does_not_block_connect (a : ConnectArgs) (w : World) :
  isInApp (env w) = false ->
  in_browser w = true ->
  embed_ctor_throws w = None ->
  let w1 := fst (fst (exec on_disallowed w)) in
  _isDisallowed (this w1) = true
  /\ exec (_connect a) w1
     = (handshake_started a w1, [],
        Blocked (ReqInit (next_ref w1) (init_options a w1))
          (_connect_resume (next_ref w1) (localStorage w1 !! storage_key))).
Proof.
  intros Hi Hb Hn w1.
  pose proof (on_disallowed_effect w) as P. cbv zeta in P. fold w1 in P.
  destruct P as (Hd & _).
  split; [exact Hd|].
  apply connect_suspends.
  subst w1. rewrite on_disallowed_turn. cbn [fst].
  match goal with |- context [exec disconnect ?W] => set (W0 := W) end.
  apply (released_starts_handshake W0).
  - apply disconnect_this.
  - apply disconnect_env.
  - apply disconnect_ctor.
  - exact Hi.
  - exact Hb.
  - exact Hn.
Qed.

(** ** Instances *)

Lemma connect_refused_in_app_witness :
  isInApp (env in_app_page) = true
  /\ snd (exec (_connect plain_connect) in_app_page)
     = Done (Failed (Reason not_supported_message))
  /\ this (fst (fst (exec (_connect plain_connect) in_app_page)))
     = release (this in_app_page).
Proof.
  assert (H : isInApp (env in_app_page) = true) by (vm_compute; reflexivity).
  pose proof (connect_refused_in_app plain_connect in_app_page H) as P.
  cbv zeta in P. destruct P as (E & T & _).
  split_and!; [exact H|rewrite E; reflexivity|rewrite E; exact T].
Defined.

Lemma connect_config_error_witness :
  let e := External "container not found" in
  embed_ctor_throws broken_page = Some e
  /\ exec (_connect plain_connect) broken_page
     = (with_emitted [EvError (WalletConfigError e)]
          (with_this (fun t => set_connecting false (set_disconnected false t))
             broken_page),
        [], Done (Failed (WalletConfigError e))).
Proof.
  assert (H1 : isInApp (env broken_page) = false) by (vm_compute; reflexivity).
  assert (H2 : connected broken_page || _connecting (this broken_page) = false)
    by reflexivity.
  assert (H3 : readyState broken_page <> Unsupported)
    by (intros H; vm_compute in H; discriminate H).
  assert (H4 : embed_ctor_throws broken_page = Some (External "container not found"))
    by reflexivity.
  split; [exact H4|].
  exact (connect_config_error plain_connect broken_page _ H1 H2 H3 H4).
Defined.

Lemma connect_accepts_witness :
  let w' := accepted 0 key_A redirected_page in
  has_param "hyperLinkAutoConnect" redirected_page = true
  /\ exec (_connect_resume 0 None (Fulfilled handshake_A)) redirected_page
     = (w', [], Done (Fulfilled (Some {| siwsOutput := None |})))
  /\ localStorage w' = <[storage_key := ADDR_A]> (localStorage redirected_page)
  /\ emitted w' = [EvConnect key_A]
  /\ has_param "hyperLinkAutoConnect" w' = false
  /\ has_param "ref" w' = true.
Proof.
  assert (H1 : new_PublicKey (pk handshake_A) = Some key_A)
    by (apply (new_PublicKey_toBase58 key_A)).
  assert (H2 : _disconnected (this redirected_page) = false) by reflexivity.
  assert (H3 : switched_account None key_A = false) by reflexivity.
  pose proof (connect_accepts 0 None handshake_A key_A redirected_page H1 H2 H3) as P.
  cbv zeta in P |- *.
  destruct P as (E & _ & Hl & He & _ & _ & Hp & _ & _ & Hq).
  split_and!.
  - reflexivity.
  - exact E.
  - exact Hl.
  - exact He.
  - exact Hp.
  - rewrite (Hq "ref"); [reflexivity|discriminate|discriminate|discriminate].
Defined.

Lemma handshake_failure_disconnects_witness :
  let ans := Failed (External "popup closed") in
  let w1 := fst (fst (exec (_connect_resume 0 None ans) pending_page)) in
  handshake_error ans = Some (External "popup closed")
  /\ this w1 = release (this pending_page)
  /\ localStorage w1 = localStorage pending_page.
Proof.
  assert (H : handshake_error (Failed (External "popup closed"))
              = Some (External "popup closed")) by reflexivity.
  destruct (handshake_failure_disconnects 0 None _ _ pending_page H) as (T & L & _).
  cbv zeta. split_and!; [exact H|exact T|exact L].
Defined.

Lemma connecting_cleared_on_every_exit_witness :
  connected fresh_page || _connecting (this fresh_page) = false
  /\ wp (_connect plain_connect) (fun w' _ => _connecting (this w') = false) fresh_page.
Proof.
  assert (H : connected fresh_page || _connecting (this fresh_page) = false)
    by reflexivity.
  split; [exact H|].
  exact (connecting_cleared_on_every_exit plain_connect fresh_page H).
Defined.

Lemma handshake_options_witness :
  starts_handshake returning_page = true
  /\ exists o k,
       exec (entry CallConnect) returning_page
       = (handshake_started plain_connect returning_page, [],
          Blocked (ReqInit (next_ref returning_page) o) k)
       /\ opt_directConnect o = false
       /\ opt_autoConnect o = true.
Proof.
  assert (H : starts_handshake returning_page = true) by (vm_compute; reflexivity).
  split; [exact H|].
  destruct (handshake_options CallConnect returning_page H)
    as (o & k & E & _ & _ & Hd & _).
  exists o, k. split; [exact E|].
  apply Hd. vm_compute. reflexivity.
Defined.

Lemma signTransaction_connected_witness :
  connected (session key_A) = true
  /\ exists k,
       exec (signTransaction (Tx 7)) (session key_A)
       = (with_calls [CSignTransaction 0 (Tx 7)] (session key_A), [],
          Blocked (ReqSignTransaction 0 (Tx 7)) k)
       /\ exec (k (Fulfilled None)) (session key_A)
          = (session key_A, [], Done (Fulfilled (Tx 7))).
Proof.
  assert (H1 : _wallet (this (session key_A)) = Some 0) by reflexivity.
  assert (H2 : connected (session key_A) = true) by (vm_compute; reflexivity).
  split; [exact H2|].
  destruct (signTransaction_connected (session key_A) 0 (Tx 7) H1 H2)
    as (k & E & _ & Hn & _).
  exists k. split; [exact E|exact (Hn (session key_A))].
Defined.

Lemma signAllTransactions_connected_witness :
  connected (session key_A) = true
  /\ exists k,
       exec (signAllTransactions [Tx 1; Tx 2]) (session key_A)
       = (with_calls [CSignAllTransactions 0 [Tx 1; Tx 2]] (session key_A), [],
          Blocked (ReqSignAllTransactions 0 [Tx 1; Tx 2]) k)
       /\ exec (k (Fulfilled (Some [Tx 3; Tx 4]))) (session key_A)
          = (session key_A, [], Done (Fulfilled [Tx 3; Tx 4])).
Proof.
  assert (H1 : _wallet (this (session key_A)) = Some 0) by reflexivity.
  assert (H2 : connected (session key_A) = true) by (vm_compute; reflexivity).
  split; [exact H2|].
  destruct (signAllTransactions_connected (session key_A) 0 [Tx 1; Tx 2] H1 H2)
    as (k & E & Hs & _).
  exists k. split; [exact E|exact (Hs [Tx 3; Tx 4] (session key_A))].
Defined.

Lemma signMessage_connected_witness :
  connected (session key_A) = true
  /\ exists k,
       exec (signMessage [104; 105]%Z) (session key_A)
       = (with_calls [CSignMessage 0 [104; 105]%Z] (session key_A), [],
          Blocked (ReqSignMessage 0 [104; 105]%Z) k)
       /\ exec (k (Failed (External "rejected"))) (session key_A)
          = (with_emitted
               [EvConnect key_A; EvError (WalletSignMessageError (External "rejected"))]
               (session key_A),
             [], Done (Failed (WalletSignMessageError (External "rejected")))).
Proof.
  assert (H1 : _wallet (this (session key_A)) = Some 0) by reflexivity.
  assert (H2 : connected (session key_A) = true) by (vm_compute; reflexivity).
  split; [exact H2|].
  destruct (signMessage_connected (session key_A) 0 [104; 105]%Z H1 H2)
    as (k & E & _ & Hf).
  exists k. split; [exact E|exact (Hf (External "rejected") (session key_A))].
Defined.

Lemma sendTransaction_connected_witness :
  heap (session key_A) !! 0 = Some logged_in_embed
  /\ exists k,
       exec (sendTransaction (Tx 7)) (session key_A)
       = (with_calls [CSendTransaction 0 (Tx 7)] (session key_A), [],
          Blocked (ReqSendTransaction 0 (Tx 7)) k)
       /\ exec (k (Failed (External "rejected"))) (session key_A)
          = (session key_A, [], Done (Failed (External "rejected"))).
Proof.
  assert (H1 : _wallet (this (session key_A)) = Some 0) by reflexivity.
  assert (H2 : heap (session key_A) !! 0 = Some logged_in_embed)
    by (vm_compute; reflexivity).
  assert (H3 : isLoggedIn logged_in_embed = true) by reflexivity.
  split; [exact H2|].
  pose proof (sendTransaction_connected (session key_A) 0 logged_in_embed (Tx 7)
                H1 H2 H3) as P.
  lazy zeta beta iota delta [logged_in_embed sendTransaction_throws] in P.
  destruct P as (k & E & _ & Hf).
  exists k. split; [exact E|exact (Hf (External "rejected") (session key_A))].
Defined.

Lemma late_denial_disconnects_witness :
  let denial := {| status := 403 |} in
  let w1 :=
    fst (fst (exec (check_after_json on_disallowed denial
                      (Fulfilled (BodyWith (JString "https://other.example"))))
                (session key_A))) in
  allowed denial (JString "https://other.example") = false
  /\ _isDisallowed (this w1) = true
  /\ _disconnected (this w1) = true
  /\ _wallet (this w1) = None
  /\ _publicKey (this w1) = None.
Proof.
  assert (H : allowed {| status := 403 |} (JString "https://other.example") = false)
    by reflexivity.
  pose proof (late_denial_disconnects {| status := 403 |}
                (JString "https://other.example") (session key_A) H) as P.
  cbv zeta.
  destruct (exec (check_after_json on_disallowed {| status := 403 |}
                    (Fulfilled (BodyWith (JString "https://other.example"))))
              (session key_A)) as [[w1 d] o].
  destruct P as (_ & Hi & _ & Hd & Hw & Hp & _).
  cbn [fst]. split_and!; [exact H|exact Hi|exact Hd|exact Hw|].
  apply Hp. discriminate.
Defined.

Lemma unparsable_origin_skips_check_witness :
  parse_url fresh_page "null" = None
  /\ exec (checkIfAllowListed PRODUCTION "client-1" "null" on_disallowed) fresh_page
     = (fresh_page, [], Done (Failed (TypeError "Invalid URL"))).
Proof.
  assert (H : parse_url fresh_page "null" = None) by reflexivity.
  split; [exact H|].
  exact (unparsable_origin_skips_check PRODUCTION "client-1" "null" on_disallowed
           fresh_page H).
Defined.

Lemma signIn_while_connecting_witness :
  _connecting (this pending_page) = true
  /\ exists k,
       exec (signIn (Some sample_input)) pending_page = (pending_page, [], Blocked Tick k)
       /\ exec (k (Fulfilled tt)) pending_page
          = (with_emitted [EvError no_proof] pending_page, [], Done (Failed no_proof)).
Proof.
  assert (H1 : isInApp (env pending_page) = false) by (vm_compute; reflexivity).
  assert (H2 : connected pending_page = false) by (vm_compute; reflexivity).
  assert (H3 : _connecting (this pending_page) = true) by reflexivity.
  split; [exact H3|].
  destruct (signIn_while_connecting pending_page sample_input H1 H2 H3) as (k & E & Hk).
  exists k. split; [exact E|exact (Hk (Fulfilled tt) pending_page)].
Defined.

Lemma signIn_without_payload_witness :
  new_PublicKey (pk handshake_A) = Some key_A
  /\ exists k,
       exec (signIn_resume None 0 None (Fulfilled handshake_A)) pending_page
       = (accepted 0 key_A pending_page, [], Blocked Tick k)
       /\ exists k',
            exec (k (Fulfilled tt)) (session key_A)
            = (with_calls [CSignIn 0 None] (session key_A), [],
               Blocked (ReqSignIn 0 None) k')
            /\ exec (k' (Fulfilled sample_proof)) (session key_A)
               = (session key_A, [], Done (Fulfilled sample_proof)).
Proof.
  assert (H1 : new_PublicKey (pk handshake_A) = Some key_A)
    by (apply (new_PublicKey_toBase58 key_A)).
  assert (H2 : _disconnected (this pending_page) = false) by reflexivity.
  assert (H3 : switched_account None key_A = false) by reflexivity.
  split; [exact H1|].
  destruct (signIn_without_payload 0 None handshake_A key_A pending_page H1 H2 H3)
    as (k & E & _ & Hk).
  exists k. split; [exact E|].
  assert (H4 : _wallet (this (session key_A)) = Some 0) by reflexivity.
  assert (H5 : connected (session key_A) = true) by (vm_compute; reflexivity).
  assert (H6 : _publicKey (this (session key_A)) = Some key_A) by reflexivity.
  destruct (Hk (Fulfilled tt) (session key_A) 0 key_A H4 H5 H6) as (k' & E' & Hk').
  exists k'. split; [exact E'|exact (Hk' sample_proof (session key_A))].
Defined.

Lemma signIn_reports_failure_twice_witness :
  let e := External "popup closed" in
  let w' := fst (fst (run offline (signIn_resume (Some sample_input) 0 None (Failed e))
                        pending_page)) in
  handshake_error (Failed e) = Some e
  /\ this w' = release (this pending_page)
  /\ exists l,
       emitted w'
       = emitted pending_page
         ++ l ++ [EvDisconnect; EvError (WalletConnectionError e);
                  EvError (WalletConnectionError e)].
Proof.
  assert (H : handshake_error (Failed (External "popup closed"))
              = Some (External "popup closed")) by reflexivity.
  pose proof (signIn_reports_failure_twice offline (Some sample_input) 0 None
                (Failed (External "popup closed")) (External "popup closed")
                pending_page H) as P.
  cbv zeta.
  destruct (run offline (signIn_resume (Some sample_input) 0 None
                           (Failed (External "popup closed"))) pending_page)
    as [[w' d] result].
  destruct P as (_ & _ & T & l & E & _).
  cbn [fst]. split_and!; [exact H|exact T|].
  exists l. exact E.
Defined.

Lemma flags_stay_consistent_witness :
  consistent fresh_page
  /\ turns consistent (perform OpConnect) (fun w' _ => consistent w') fresh_page.
Proof.
  assert (H : consistent fresh_page) by (split; discriminate).
  split; [exact H|].
  exact (flags_stay_consistent OpConnect fresh_page H).
Defined.

Lemma detector_without_user_agent_witness :
  userAgent server_side = None
  /\ isInApp server_side = false
  /\ isMobileiOS server_side = false.
Proof.
  assert (H : userAgent server_side = None \/ userAgent server_side = Some "")
    by (left; reflexivity).
  destruct (detector_without_user_agent server_side H) as (_ & _ & Hi & Ha & _).
  split_and!; [reflexivity|exact Ha|exact Hi].
Defined.

Lemma webview_marker_is_in_app_witness :
  JsRegex.test true (JsRegex.Lit "WebView") ua_ios_webview = true
  /\ isWebView (browser ua_ios_webview) = true
  /\ isInApp (browser ua_ios_webview) = true
  /\ isMobileiOS (browser ua_ios_webview) = false.
Proof.
  assert (H1 : userAgent (browser ua_ios_webview) = Some ua_ios_webview)
    by reflexivity.
  assert (H2 : JsRegex.test true (JsRegex.Lit "WebView") ua_ios_webview = true)
    by (vm_compute; reflexivity).
  destruct (webview_marker_is_in_app (browser ua_ios_webview) ua_ios_webview H1 H2)
    as (Hw & Hi & _ & Ho).
  split_and!; [exact H2|exact Hw|exact Hi|exact Ho].
Defined.

Lemma phantom_loadable_but_refused_witness :
  isPhantomBrowser (env phantom_page) = true
  /\ _installedOnIos (this phantom_page) = true
  /\ readyState phantom_page = Loadable
  /\ snd (exec (_connect plain_connect) phantom_page)
     = Done (Failed (Reason not_supported_message)).
Proof.
  assert (H1 : isPhantomBrowser (env phantom_page) = true) by (vm_compute; reflexivity).
  assert (H2 : in_browser phantom_page = true) by reflexivity.
  destruct (phantom_loadable_but_refused plain_connect phantom_page H1 H2)
    as (Hr & Hc & _).
  split_and!; [exact H1|reflexivity|exact Hr|exact Hc].
Defined.

Lemma default_ready_state_witness :
  isMobileAndroid (browser ua_android_chrome) = true
  /\ readyState (default_page (browser ua_android_chrome)) = Loadable
  /\ isMobileiOS (browser ua_iphone_safari) = true
  /\ readyState (default_page (browser ua_iphone_safari)) = Installed.
Proof.
  assert (A : isMobileAndroid (browser ua_android_chrome) = true)
    by (vm_compute; reflexivity).
  assert (I : isMobileiOS (browser ua_iphone_safari) = true)
    by (vm_compute; reflexivity).
  assert (P : isPhantomBrowser (browser ua_iphone_safari) = false)
    by (vm_compute; reflexivity).
  assert (M : isMobileAndroid (browser ua_iphone_safari) = false)
    by (vm_compute; reflexivity).
  pose proof (default_ready_state default_config (default_page (browser ua_android_chrome))
                eq_refl eq_refl eq_refl eq_refl eq_refl) as R1.
  pose proof (default_ready_state default_config (default_page (browser ua_iphone_safari))
                eq_refl eq_refl eq_refl eq_refl eq_refl) as R2.
  change (env (default_page (browser ua_android_chrome)))
    with (browser ua_android_chrome) in R1.
  change (env (default_page (browser ua_iphone_safari)))
    with (browser ua_iphone_safari) in R2.
  rewrite A, orb_true_r in R1. rewrite P, M in R2.
  split_and!; [exact A|exact R1|exact I|exact R2].
Defined.

Lemma detector_memo_sound_witness :
  coherent (browser ua_android_webview) memo0
  /\ fst (isInApp_memo (browser ua_android_webview) memo0)
     = isInApp (browser ua_android_webview)
  /\ coherent (browser ua_android_webview)
       (snd (isInApp_memo (browser ua_android_webview) memo0)).
Proof.
  assert (H : coherent (browser ua_android_webview) memo0) by (apply memo0_coherent).
  destruct (detector_memo_sound (browser ua_android_webview) memo0 H)
    as (_ & _ & _ & _ & E & _ & _ & _ & _ & _ & C & _).
  split_and!; [exact H|exact E|exact C].
Defined.

Lemma account_change_after_disconnect_witness :
  let w1 := fst (fst (exec disconnect (session key_A))) in
  _publicKey (this (session key_A)) = Some key_A
  /\ _publicKey (this w1) = None
  /\ exec (_accountChanged ADDR_B) w1 = (w1, [], Done (Fulfilled tt)).
Proof.
  assert (H : well_formed (this (session key_A))) by (split; discriminate).
  pose proof (account_change_after_disconnect (session key_A) ADDR_B H) as P.
  cbv zeta in P |- *. destruct P as [Hk E].
  split_and!; [reflexivity|exact Hk|exact E].
Defined.

Lemma disconnect_keeps_persisted_account_witness :
  let w1 := fst (fst (exec disconnect (accepted 0 key_A pending_page))) in
  localStorage w1 !! storage_key = Some ADDR_A
  /\ opt_directConnect (init_options plain_connect w1) = false
  /\ opt_autoConnect (init_options plain_connect w1) = true.
Proof.
  pose proof (disconnect_keeps_persisted_account 0 key_A pending_page pending_page
                (Fulfilled tt) plain_connect) as P.
  cbv zeta in P |- *. destruct P as (S & _ & D & A).
  split_and!; [exact S|exact D|exact A].
Defined.

Lemma wallet_surface_methods_witness :
  let w1 := fst (fst (exec (onWalletHandshake 5 6) fresh_page)) in
  (exists msg,
     exec hideWallet fresh_page
     = (with_calls [CConsoleError msg] fresh_page, [], Done (Fulfilled tt)))
  /\ exec (showWallet (Some SWAP)) w1
     = (with_calls [CShowWallet 5 (Some SWAP)] w1, [], Done (Fulfilled tt))
  /\ exec hideWallet w1 = (with_calls [CHideWallet 6] w1, [], Done (Fulfilled tt)).
Proof.
  pose proof (wallet_surface_methods fresh_page (Some SWAP) 5 6) as P.
  cbv zeta in P |- *. destruct P as (_ & Hh & Hs & Hh').
  split_and!; [exact (Hh eq_refl)|exact Hs|exact Hh'].
Defined.

Lemma constructor_starts_check_witness :
  let configUrl := {| q_clientId := "client-1"; q_referrerUrl := "https://dapp.example" |} in
  let w1 := fst (fst (exec (constructor sample_config) fresh_page)) in
  snd (fst (exec (constructor sample_config) fresh_page))
  = [Parked (ReqFetch configUrl) (check_after_fetch on_disallowed)]
  /\ filter is_fetch (calls w1) = [CFetch configUrl]
  /\ this w1 = this fresh_page.
Proof.
  pose proof (constructor_starts_check sample_config fresh_page) as P.
  cbv zeta.
  destruct (exec (constructor sample_config) fresh_page) as [[w1 d] o].
  destruct P as (_ & T & _ & _ & _ & F).
  destruct (F {| protocol := "https:"; hostname := "dapp.example"; port := "" |}
              eq_refl eq_refl) as [D C].
  cbn [fst snd]. split_and!; [exact D|exact C|exact T].
Defined.

Lemma denial_does_not_block_connect_witness :
  let w1 := fst (fst (exec on_disallowed (session key_A))) in
  _isDisallowed (this w1) = true
  /\ exists k,
       exec (_connect plain_connect) w1
       = (handshake_started plain_connect w1, [],
          Blocked (ReqInit 1 (init_options plain_connect w1)) k)
       /\ opt_autoConnect (init_options plain_connect w1) = true.
Proof.
  assert (H1 : isInApp (env (session key_A)) = false) by (vm_compute; reflexivity).
  assert (H2 : in_browser (session key_A) = true) by reflexivity.
  assert (H3 : embed_ctor_throws (session key_A) = None) by reflexivity.
  pose proof (denial_does_not_block_connect plain_connect (session key_A) H1 H2 H3)
    as P.
  cbv zeta in P |- *. destruct P as [Hd E].
  split; [exact Hd|]. eexists. split; [exact E|].
  vm_compute. reflexivity.
Defined.

Lemma stale_handshake_discarded_witness :
  let w' := fst (fst (exec disconnect pending_page)) in
  starts_handshake fresh_page = true
  /\ flagged w'
  /\ _publicKey (this w') = None
  /\ exec (_connect_resume 0 None (Fulfilled handshake_A)) w'
     = (with_this (set_connecting false) w', [], Done (Fulfilled None)).
Proof.
  assert (H1 : starts_handshake fresh_page = true) by (vm_compute; reflexivity).
  assert (H2 : new_PublicKey (pk handshake_A) = Some key_A)
    by (apply (new_PublicKey_toBase58 key_A)).
  pose proof (stale_handshake_discarded plain_connect fresh_page handshake_A key_A
                H1 H2) as P.
  cbv zeta in P |- *. destruct P as (_ & Hf & _ & Hd & _).
  split_and!.
  - exact H1.
  - exact (Hf pending_page).
  - vm_compute. reflexivity.
  - exact (proj1 (Hd _ (Hf pending_page))).
Defined.

(** The counterexample to the unconditional reading: connect, disconnect,
    connect again, and only then the first handshake resolves. *)
Lemma reconnect_revives_stale_handshake :
  let w1 := handshake_started plain_connect fresh_page in
  let w2 := fst (fst (exec disconnect w1)) in
  let w3 := handshake_started plain_connect w2 in
  let w4 := fst (fst (exec (connect_resume 0 None (Fulfilled handshake_A)) w3)) in
  exec connect fresh_page
  = (w1, [], Blocked (ReqInit 0 (init_options plain_connect fresh_page))
               (connect_resume 0 None))
  /\ exec disconnect w1 = (w2, [], Done (Fulfilled tt))
  /\ _disconnected (this w2) = true
  /\ exec connect w2
     = (w3, [], Blocked (ReqInit 1 (init_options plain_connect w2))
                  (connect_resume 1 None))
  /\ _disconnected (this w3) = false
  /\ _wallet (this w3) = Some 1
  /\ _publicKey (this w4) = Some key_A
  /\ _wallet (this w4) = Some 1
  /\ localStorage w4 !! storage_key = Some ADDR_A
  /\ emitted w4 = [EvDisconnect; EvConnect key_A]
  /\ calls w4
     = [CNew 0; CInit 0 (init_options plain_connect fresh_page);
        COff 0; CClearElements 0; CRemovePreviousWindowRef;
        CNew 1; CInit 1 (init_options plain_connect w2);
        COn 0].
Proof.
  cbv zeta.
  assert (H1 : starts_handshake fresh_page = true) by (vm_compute; reflexivity).
  assert (E1 := entry_suspends CallConnect fresh_page H1). cbv zeta in E1. cbn [entry] in E1.
  assert (Hw : _wallet (this (handshake_started plain_connect fresh_page)) = Some 0)
    by reflexivity.
  assert (Hl : logged_in (handshake_started plain_connect fresh_page) 0 = false)
    by (vm_compute; reflexivity).
  assert (E2 := disconnect_forced _ 0 Hw Hl).
  rewrite E2. cbn [fst].
  match goal with |- context [handshake_started plain_connect ?W] =>
    match W with
    | fresh_page => fail 1
    | _ => set (w2 := W)
    end end.
  assert (H2 : starts_handshake w2 = true) by (vm_compute; reflexivity).
  assert (E3 := entry_suspends CallConnect w2 H2). cbv zeta in E3. cbn [entry] in E3.
  assert (Hk : new_PublicKey (pk handshake_A) = Some key_A)
    by (apply (new_PublicKey_toBase58 key_A)).
  assert (E4 : exec (connect_resume 0 None (Fulfilled handshake_A))
                 (handshake_started plain_connect w2)
               = (accepted 0 key_A (handshake_started plain_connect w2), [],
                  Blocked Tick (fun _ => settle (Fulfilled tt)))).
  { unfold connect_resume. rewrite exec_bind, exec_await_call.
    assert (Hd : _disconnected (this (handshake_started plain_connect w2)) = false)
      by reflexivity.
    assert (Hs : switched_account None key_A = false) by reflexivity.
    rewrite (connect_resume_accepted 0 None handshake_A key_A _ Hk Hd Hs).
    reflexivity. }
  rewrite E4. cbn [fst].
  split_and!.
  - exact E1.
  - reflexivity.
  - reflexivity.
  - exact E3.
  - reflexivity.
  - reflexivity.
  - reflexivity.
  - reflexivity.
  - vm_compute. reflexivity.
  - vm_compute. reflexivity.
  - vm_compute. reflexivity.
Defined.

Lemma signIn_paths_witness :
  (exists k,
     exec (signIn_resume (Some sample_input) 0 None (Fulfilled handshake_B))
       (handshake_started
          {| forceNoDirectConnect := false; siwsInput := Some sample_input;
             autoConnect := false |} fresh_page)
     = (accepted 0 key_B
          (handshake_started
             {| forceNoDirectConnect := false; siwsInput := Some sample_input;
                autoConnect := false |} fresh_page),
        [], Blocked Tick k)
     /\ exec (k (Fulfilled tt)) (session key_B)
        = (session key_B, [], Done (Fulfilled sample_proof)))
  /\ (exists k,
        exec (signIn (Some sample_input)) (session key_B)
        = (with_calls [CSignIn 0 (signIn_argument (Some sample_input))] (session key_B),
           [], Blocked (ReqSignIn 0 (signIn_argument (Some sample_input))) k)
        /\ exec (k (Fulfilled sample_proof)) (session key_B)
           = (session key_B, [], Done (Fulfilled sample_proof))).
Proof.
  destruct signIn_paths as (Ha & _ & Hb & _).
  split.
  - assert (H1 : starts_handshake fresh_page = true) by (vm_compute; reflexivity).
    assert (H2 : new_PublicKey (pk handshake_B) = Some key_B)
      by (apply (new_PublicKey_toBase58 key_B)).
    pose proof (Ha fresh_page
                (handshake_started
                   {| forceNoDirectConnect := false; siwsInput := Some sample_input;
                      autoConnect := false |} fresh_page)
                sample_input handshake_B key_B H1 H2) as P.
    cbv zeta in P. destruct P as (_ & _ & _ & Hacc & _).
    destruct (Hacc eq_refl eq_refl) as (k & E & Hk).
    exists k. split; [exact E|]. exact (Hk (Fulfilled tt) (session key_B)).
  - assert (H1 : _wallet (this (session key_B)) = Some 0) by reflexivity.
    assert (H2 : connected (session key_B) = true) by (vm_compute; reflexivity).
    assert (H3 : _publicKey (this (session key_B)) = Some key_B) by reflexivity.
    destruct (Hb (session key_B) (Some sample_input) 0 key_B H1 H2 H3) as (k & E & Hk).
    exists k. split; [exact E|]. exact (Hk sample_proof (session key_B)).
Defined.

(** The counterexample to the unconditional reading: the page remembers
    [ADDR_A], the handshake answers with [ADDR_B] and a proof. *)
Lemma signIn_drops_proof_on_account_switch :
  let outcome := run answers_B (signIn (Some sample_input)) returning_page in
  connected returning_page = false
  /\ answers_B _ (ReqInit 0
                    (init_options
                       {| forceNoDirectConnect := false;
                          siwsInput := Some sample_input; autoConnect := false |}
                       returning_page))
     = Fulfilled handshake_B
  /\ init_siwsOutput handshake_B = Some sample_proof
  /\ snd outcome = Failed no_proof
  /\ emitted (fst (fst outcome)) = [EvDisconnect; EvError no_proof]
  /\ calls (fst (fst outcome))
     = [CNew 0;
        CInit 0 (init_options
                   {| forceNoDirectConnect := false;
                      siwsInput := Some sample_input; autoConnect := false |}
                   returning_page);
        COff 0; CClearElements 0; CRemovePreviousWindowRef]
  /\ _publicKey (this (fst (fst outcome))) = None.
Proof.
  cbv zeta. split_and!; vm_compute; reflexivity.
Defined.
